(** * Session lifecycle and content-list pipeline of the portfolio/blog SPA

    A shallow embedding of the client-side logic of the repository:
    - [ApiService] (src/services/api.ts): the request layer and the
      translation of server messages;
    - [AuthService] (src/services/authService.ts): token bootstrap, refresh,
      logout;
    - [AuthProvider] (src/contexts/AuthContext.tsx): the login flow and the
      session error;
    - [App] (App.tsx): the role gate and the content-mutating handlers;
    - [PostManagementPage] / [PortfolioPage]: sort and paginate.

    Browser storage is a finite map from keys to strings, the network is an
    explicit argument (the settled outcome of each [fetch]), and React state
    is a record that the handlers transform. *)

From Stdlib Require Import ZArith NArith List Ascii String DecimalString Permutation Lia.
From Stdlib Require OrderedTypeEx.
From stdpp Require Import base gmap strings list.

Import ListNotations.
Local Open Scope string_scope.
Local Open Scope list_scope.

(* ===================================================================== *)
(** * JavaScript strings and the regular expressions the code tests       *)
(* ===================================================================== *)

Module Js.

(** A JavaScript string is kept as its UTF-8 bytes (a Rocq [string]); the
    regular expressions of the source are run on the code points.  All
    pattern characters are in the Basic Multilingual Plane, where code points
    and UTF-16 code units coincide. *)

Definition codepoint := N.

Definition bytes_of (s : string) : list N :=
  map N_of_ascii (list_ascii_of_string s).

Definition cont (b : N) : N := N.land b 63.

Fixpoint utf8_decode (bs : list N) : list codepoint :=
  match bs with
  | [] => []
  | b :: r =>
    if (b <? 128)%N then b :: utf8_decode r
    else if (b <? 224)%N then
      match r with
      | c1 :: r1 => (N.land b 31 * 64 + cont c1)%N :: utf8_decode r1
      | [] => [65533%N]
      end
    else if (b <? 240)%N then
      match r with
      | c1 :: c2 :: r2 =>
        (N.land b 15 * 4096 + cont c1 * 64 + cont c2)%N :: utf8_decode r2
      | _ => [65533%N]
      end
    else
      match r with
      | c1 :: c2 :: c3 :: r3 =>
        (N.land b 7 * 262144 + cont c1 * 4096 + cont c2 * 64 + cont c3)%N
          :: utf8_decode r3
      | _ => [65533%N]
      end
  end.

Definition chars (s : string) : list codepoint := utf8_decode (bytes_of s).

(** Truthiness of a string value: the empty string is falsy. *)
Definition truthy (s : string) : bool :=
  match s with EmptyString => false | String _ _ => true end.

(** [a || b] on possibly-undefined strings. *)
Definition or_else (a : option string) (b : string) : string :=
  match a with
  | Some s => if truthy s then s else b
  | None => b
  end.

(** [String.prototype.startsWith]. *)
Definition startsWith (s p : string) : bool := String.prefix p s.

(** [String(n)] for a non-negative integer. *)
Definition string_of_N (n : N) : string := NilEmpty.string_of_uint (N.to_uint n).

(** ** Regular expressions

    Only the constructs that occur in the source.  [test] is a search for a
    match anywhere in the subject, as [RegExp.prototype.test] does for a
    pattern without anchors. *)

Inductive regex :=
| Lit (s : string)
| AnyChar
| Space
| Alt (a b : regex)
| Seq (a b : regex)
| Star (a : regex)
| Opt (a : regex).

(** LineTerminator: what [.] refuses. *)
Definition is_line_terminator (c : codepoint) : bool :=
  (c =? 10)%N || (c =? 13)%N || (c =? 8232)%N || (c =? 8233)%N.

(** WhiteSpace and LineTerminator: what [\s] accepts. *)
Definition is_space (c : codepoint) : bool :=
  ((9 <=? c) && (c <=? 13))%N || (c =? 32)%N || (c =? 160)%N || (c =? 5760)%N
  || ((8192 <=? c) && (c <=? 8202))%N || (c =? 8232)%N || (c =? 8233)%N
  || (c =? 8239)%N || (c =? 8287)%N || (c =? 12288)%N || (c =? 65279)%N.

(** Canonicalize of the [i] flag (non-Unicode mode).  A character outside
    ASCII never canonicalizes to an ASCII one, so for patterns whose cased
    characters are ASCII letters the folding of ASCII is all that matters. *)
Definition canonicalize (ci : bool) (c : codepoint) : codepoint :=
  if ci && (97 <=? c)%N && (c <=? 122)%N then (c - 32)%N else c.

Fixpoint match_lit (ci : bool) (p s : list codepoint) : option (list codepoint) :=
  match p with
  | [] => Some s
  | x :: p' =>
    match s with
    | y :: s' =>
      if (canonicalize ci x =? canonicalize ci y)%N then match_lit ci p' s' else None
    | [] => None
    end
  end.

(** [re_match ci r k s]: some prefix of [s] matches [r] and the continuation
    [k] accepts what is left. *)
Fixpoint re_match (ci : bool) (r : regex) (k : list codepoint -> bool)
    (s : list codepoint) {struct r} : bool :=
  match r with
  | Lit p =>
    match match_lit ci (chars p) s with Some s' => k s' | None => false end
  | AnyChar =>
    match s with c :: s' => negb (is_line_terminator c) && k s' | [] => false end
  | Space =>
    match s with c :: s' => is_space c && k s' | [] => false end
  | Alt a b => re_match ci a k s || re_match ci b k s
  | Seq a b => re_match ci a (re_match ci b k) s
  | Opt a => re_match ci a k s || k s
  | Star a =>
    (fix star (fuel : nat) (s : list codepoint) : bool :=
       k s ||
       match fuel with
       | O => false
       | S fuel' =>
         re_match ci a (fun s' => (length s' <? length s)%nat && star fuel' s') s
       end) (length s) s
  end.

Fixpoint search (ci : bool) (r : regex) (s : list codepoint) : bool :=
  re_match ci r (fun _ => true) s ||
  match s with
  | [] => false
  | _ :: s' => search ci r s'
  end.

(** [/r/.test(s)] and [/r/i.test(s)]. *)
Definition test (r : regex) (s : string) : bool := search false r (chars s).
Definition test_i (r : regex) (s : string) : bool := search true r (chars s).

End Js.

(* ===================================================================== *)
(** * types/auth.ts                                                       *)
(* ===================================================================== *)

Inductive UserRole := USER | ADMIN | SUPER_USER.

Record User := {
  user_id : string;
  username : string;
  email : string;
  avatarUrl : string;
  role : UserRole
}.

(** An [AuthResponse] as it arrives: a field the server left out is
    [undefined]. *)
Record AuthResponse := {
  token : option string;
  refreshToken : option string;
  user : option User
}.

(** [{} as T] *)
Definition empty_response : AuthResponse :=
  {| token := None; refreshToken := None; user := None |}.

(* ===================================================================== *)
(** * ApiService: the request layer                                       *)
(* ===================================================================== *)

(** The values the deployment and the i18n runtime supply. *)
Record env := {
  baseURL : string;            (* VITE_API_BASE_URL || REACT_APP_API_BASE_URL || '/api' *)
  language : option string;    (* i18n?.language *)
  JSON_stringify : User -> string
}.

(** One call of [fetch(url, config)]. *)
Record FetchCall := {
  call_url : string;
  call_method : option string;
  call_headers : list (string * string);
  call_body : option (list (string * string))
}.

(** [window.location], as far as the code reads it. *)
Record Location := {
  pathname : string;
  search : string;
  hash : string
}.

(** What the handlers share: browser storage, the address bar and the
    requests sent so far. *)
Record world := {
  localStorage : gmap string string;
  location : Location;
  fetched : list FetchCall
}.

Definition getItem (k : string) (w : world) : option string := localStorage w !! k.

Definition setItem (k v : string) (w : world) : world :=
  {| localStorage := <[k := v]> (localStorage w);
     location := location w; fetched := fetched w |}.

Definition removeItem (k : string) (w : world) : world :=
  {| localStorage := delete k (localStorage w);
     location := location w; fetched := fetched w |}.

Definition do_fetch (c : FetchCall) (w : world) : world :=
  {| localStorage := localStorage w;
     location := location w; fetched := fetched w ++ [c] |}.

(** [history.replaceState(null, '', url)] with [url] the page's own path
    followed by its query.  The browser resolves [url] against the address
    of the document.  A [url] that begins with one [/] keeps host, path and
    query: the document stays and the fragment is gone from the address
    bar.  A [url] that begins with [//] is scheme-relative: what follows
    the two slashes is read as a host, which is another origin than the
    document's, and [replaceState] throws a [SecurityError] ([None]); the
    address stays as it was. *)
Definition replaceState_path_search (w : world) : option world :=
  if String.prefix "//" (pathname (location w) +:+ search (location w)) then None
  else Some {| localStorage := localStorage w;
               location := {| pathname := pathname (location w);
                              search := search (location w);
                              hash := EmptyString |};
               fetched := fetched w |}.

(** Thrown values: [ApiError] of api.ts, any other [Error], and a thrown
    value that is not an [Error]. *)
Inductive exn :=
| ApiError (message : string) (status : N)
| JsError (message : string)
| NotAnError.

(** The body of an error response as [response.json()] gives it; [None]
    where the body is not JSON (the code then takes [{}]). *)
Record ErrorData := {
  ed_message : option string;
  ed_error : option string;
  ed_details : option string
}.

(** The body of a successful response as [response.text()] and [JSON.parse]
    give it: no text, a value, or an error thrown on the way. *)
Inductive Parsed (T : Type) :=
| EmptyText
| Json (v : T)
| SyntaxError (msg : string).
Arguments EmptyText {T}.
Arguments Json {T} v.
Arguments SyntaxError {T} msg.

Record Response (T : Type) := {
  status : N;
  statusText : string;
  errorBody : option ErrorData;
  okBody : Parsed T
}.
Arguments status {T} _.
Arguments statusText {T} _.
Arguments errorBody {T} _.
Arguments okBody {T} _.

(** How one [fetch] settles: the promise rejects (no response at all) or
    resolves with a response. *)
Inductive FetchOutcome (T : Type) :=
| Rejected (msg : string)
| Settled (r : Response T).
Arguments Rejected {T} msg.
Arguments Settled {T} r.

Record RequestInit := {
  method : option string;
  headers : option (list (string * string));
  body : option (list (string * string))
}.

Module ApiService.

Import Js.

Definition getToken (w : world) : option string := getItem "authToken" w.
Definition setToken (token : string) (w : world) : world := setItem "authToken" token w.
Definition removeToken (w : world) : world := removeItem "authToken" w.

Record message_map := { zh : regex; en : string; zhOut : option string }.

(** The patterns of the first three entries of [maps]. *)
Definition re_wrong_password : regex :=
  Alt (Lit "用戶名或密碼錯誤") (Lit "認證失敗").

Definition re_bad_credential : regex :=
  Alt (Seq (Lit "登入失敗")
        (Seq (Opt (Alt (Lit ":") (Lit "：")))
          (Seq (Star Space) (Lit "憑證錯誤"))))
      (Lit "憑證錯誤").

Definition re_unknown_user : regex :=
  Alt (Lit "使用者名稱不存在") (Lit "用戶名不存在").

Definition maps : list message_map := [
  {| zh := re_wrong_password;
     en := "Invalid username or password."; zhOut := Some "用戶名或密碼錯誤" |};
  {| zh := re_bad_credential;
     en := "Invalid username or password."; zhOut := Some "用戶名或密碼錯誤" |};
  {| zh := re_unknown_user;
     en := "Username does not exist."; zhOut := Some "使用者名稱不存在" |};
  {| zh := Lit "用戶名長度必須在3-50個字符之間";
     en := "Username must be between 3 and 50 characters.";
     zhOut := Some "用戶名長度必須在3-50個字元之間" |};
  {| zh := Lit "密碼長度至少6個字符";
     en := "Password must be at least 6 characters.";
     zhOut := Some "密碼長度至少 6 個字元" |};
  {| zh := Alt (Lit "郵箱格式不正確") (Lit "郵箱格式不正确");
     en := "Invalid email format."; zhOut := Some "電子郵件格式不正確" |};
  {| zh := Alt (Seq (Lit "用戶名") (Seq (Star AnyChar) (Lit "已存在")))
            (Alt (Seq (Lit "使用者名稱") (Seq (Star AnyChar) (Lit "已存在")))
                 (Seq (Lit "帳號") (Seq (Star AnyChar) (Lit "已存在"))));
     en := "Username already exists."; zhOut := Some "使用者名稱已存在" |};
  {| zh := Alt (Seq (Lit "郵箱") (Seq (Star AnyChar) (Lit "已被使用")))
            (Alt (Lit "郵箱已存在")
              (Alt (Seq (Lit "電子郵件") (Seq (Star AnyChar) (Lit "已被使用")))
                   (Seq (Lit "電子郵件") (Seq (Star AnyChar) (Lit "已存在")))));
     en := "Email already exists."; zhOut := Some "電子郵件已被使用" |};
  {| zh := Lit "密碼確認不匹配";
     en := "Passwords do not match."; zhOut := Some "兩次密碼輸入不一致" |}
].

(** The [for (const m of maps)] loop: the first entry whose pattern matches
    decides. *)
Fixpoint translate_loop (isZh : bool) (ms : list message_map) (message : string)
    : option string :=
  match ms with
  | [] => None
  | m :: ms' =>
    if test (zh m) message
    then Some (if isZh then or_else (zhOut m) message else en m)
    else translate_loop isZh ms' message
  end.

Definition translateServerMessage (e : env) (message : string) : string :=
  let lang := or_else (language e) "en" in
  let isZh := startsWith lang "zh" in
  match translate_loop isZh maps message with
  | Some out => out
  | None =>
    if isZh then message
    else if test (Alt (Lit "錯誤") (Lit "失敗")) message
         then "Request failed. Please try again."
         else message
  end.

(** [response.ok] *)
Definition ok (st : N) : bool := ((200 <=? st) && (st <=? 299))%N.

(** [errorData && (errorData.message || errorData.error || errorData.details)],
    [None] where the chain ends falsy. *)
Definition error_text (d : option ErrorData) : option string :=
  match d with
  | None => None
  | Some d =>
    let pick o := match o with Some s => if truthy s then Some s else None | None => None end in
    match pick (ed_message d) with
    | Some s => Some s
    | None =>
      match pick (ed_error d) with
      | Some s => Some s
      | None => pick (ed_details d)
      end
    end
  end.

(** [(errorData && (...)) || `API Error: ${response.status} ${response.statusText}`] *)
Definition rawMessage {T : Type} (r : Response T) : string :=
  match error_text (errorBody r) with
  | Some s => s
  | None => "API Error: " +:+ string_of_N (status r) +:+ " " +:+ statusText r
  end.

(** The part of [request] before [await fetch]: the token is read, the
    configuration is assembled and the request leaves.  [...options] comes
    after the [headers] key, so headers passed by the caller replace the
    assembled ones. *)
Definition request_send (e : env) (endpoint : string) (options : RequestInit)
    (w : world) : world :=
  let url := if startsWith endpoint "http" then endpoint else baseURL e +:+ endpoint in
  let token := getToken w in
  let assembled :=
    [("Content-Type", "application/json")]
    ++ match token with
       | Some t => if truthy t then [("Authorization", "Bearer " +:+ t)] else []
       | None => []
       end
    ++ [("Accept-Language", or_else (language e) "en")] in
  do_fetch {| call_url := url;
              call_method := method options;
              call_headers := match headers options with
                              | Some h => h
                              | None => assembled
                              end;
              call_body := body options |} w.

(** The part of [request] after the [fetch] has settled. *)
Definition request_settle {T : Type} (e : env) (empty : T) (net : FetchOutcome T)
    (w : world) : world * (exn + T) :=
  match net with
  | Rejected msg => (w, inl (JsError msg))
  | Settled r =>
    if negb (ok (status r)) then
      let message := translateServerMessage e (rawMessage r) in
      let w' := if (status r =? 401)%N then removeToken w else w in
      (w', inl (ApiError message (status r)))
    else
      match okBody r with
      | EmptyText => (w, inr empty)
      | Json v => (w, inr v)
      | SyntaxError msg => (w, inl (JsError msg))
      end
  end.

(** An awaited [request]: nothing else runs between sending and settling. *)
Definition request {T : Type} (e : env) (empty : T) (endpoint : string)
    (options : RequestInit) (net : FetchOutcome T) (w : world) : world * (exn + T) :=
  request_settle e empty net (request_send e endpoint options w).

(** A [fetch] outcome on which [request] throws. *)
Definition request_fails {T : Type} (net : FetchOutcome T) : bool :=
  match net with
  | Rejected _ => true
  | Settled r =>
    if negb (ok (status r)) then true
    else match okBody r with SyntaxError _ => true | _ => false end
  end.

Definition deletePost (e : env) (id : string) :=
  request e tt ("/content/posts/" +:+ id)
    {| method := Some "DELETE"; headers := None; body := None |}.

Definition deletePortfolioItem (e : env) (id : string) :=
  request e tt ("/content/portfolio/" +:+ id)
    {| method := Some "DELETE"; headers := None; body := None |}.

Definition deleteComment (e : env) (id : string) :=
  request e tt ("/comments/" +:+ id)
    {| method := Some "DELETE"; headers := None; body := None |}.

(** [translateServerMessage] as a function of [isZh] alone. *)
Definition translate_as (isZh : bool) (message : string) : string :=
  match translate_loop isZh maps message with
  | Some out => out
  | None =>
    if isZh then message
    else if test (Alt (Lit "錯誤") (Lit "失敗")) message
         then "Request failed. Please try again."
         else message
  end.

(** [uploadFile] before [await fetch]: only the Authorization header is
    set.  (The [FormData] body is not recorded in the call.) *)
Definition uploadFile_send (e : env) (endpoint : string) (w : world) : world :=
  let url := if startsWith endpoint "http" then endpoint else baseURL e +:+ endpoint in
  let token := getToken w in
  do_fetch {| call_url := url;
              call_method := Some "POST";
              call_headers := match token with
                              | Some t => if truthy t then [("Authorization", "Bearer " +:+ t)] else []
                              | None => []
                              end;
              call_body := None |} w.

(** [uploadFile] after the [fetch] has settled.  On a response that is not
    ok the [try] block always throws, with the server's message when the
    body parses, and the [catch] block, which takes no notice of what it
    caught, throws the error that leaves the function. *)
Definition uploadFile_settle {T : Type} (empty : T) (net : FetchOutcome T)
    (w : world) : world * (exn + T) :=
  match net with
  | Rejected msg => (w, inl (JsError msg))
  | Settled r =>
    if negb (ok (status r)) then
      let fallback := "Upload Error: " +:+ string_of_N (status r) in
      let thrown_in_try : exn :=
        match errorBody r with
        | Some err => JsError (or_else (ed_message err) fallback)
        | None => JsError "Unexpected token"
        end in
      match (inl thrown_in_try : exn + T) with
      | inl _ => (w, inl (JsError fallback))
      | inr v => (w, inr v)
      end
    else
      match okBody r with
      | EmptyText => (w, inr empty)
      | Json v => (w, inr v)
      | SyntaxError msg => (w, inl (JsError msg))
      end
  end.

Definition uploadFile {T : Type} (e : env) (empty : T) (endpoint : string)
    (net : FetchOutcome T) (w : world) : world * (exn + T) :=
  uploadFile_settle empty net (uploadFile_send e endpoint w).

(** The entry of [maps] that decides for a message: the first whose
    pattern matches. *)
Definition matching_entry (message : string) : option message_map :=
  find (fun m => test (zh m) message) maps.

(** The response has status 401. *)
Definition answered_401 {T : Type} (net : FetchOutcome T) : bool :=
  match net with
  | Rejected _ => false
  | Settled r => (status r =? 401)%N
  end.

End ApiService.

(* ===================================================================== *)
(** * URLSearchParams                                                     *)
(* ===================================================================== *)

Module URLSearchParams.

Definition amp : ascii := "&"%char.
Definition eq_sign : ascii := "="%char.
Definition plus : ascii := "+"%char.
Definition percent : ascii := "%"%char.

(** Split at every [sep]. *)
Fixpoint split_on (sep : ascii) (s : string) : list string :=
  match s with
  | EmptyString => [EmptyString]
  | String c s' =>
    if Ascii.eqb c sep then EmptyString :: split_on sep s'
    else match split_on sep s' with
         | x :: xs => String c x :: xs
         | [] => [String c EmptyString]
         end
  end.

(** Name and value of one sequence: split at the first [=]; no [=] gives
    an empty value. *)
Fixpoint name_value (s : string) : string * string :=
  match s with
  | EmptyString => (EmptyString, EmptyString)
  | String c s' =>
    if Ascii.eqb c eq_sign then (EmptyString, s')
    else let (n, v) := name_value s' in (String c n, v)
  end.

Fixpoint plus_to_space (s : string) : string :=
  match s with
  | EmptyString => EmptyString
  | String c s' => String (if Ascii.eqb c plus then " "%char else c) (plus_to_space s')
  end.

Definition hex_value (c : ascii) : option N :=
  let n := N_of_ascii c in
  if ((48 <=? n) && (n <=? 57))%N then Some (n - 48)%N
  else if ((65 <=? n) && (n <=? 70))%N then Some (n - 55)%N
  else if ((97 <=? n) && (n <=? 102))%N then Some (n - 87)%N
  else None.

(** Percent-decoding of a byte sequence. *)
Fixpoint percent_decode (s : string) : string :=
  match s with
  | EmptyString => EmptyString
  | String c s' =>
    if Ascii.eqb c percent then
      match s' with
      | String h (String l s'') =>
        match hex_value h, hex_value l with
        | Some a, Some b => String (ascii_of_N (a * 16 + b)) (percent_decode s'')
        | _, _ => String c (percent_decode s')
        end
      | _ => String c (percent_decode s')
      end
    else String c (percent_decode s')
  end.

(** U+FFFD, the replacement character, in UTF-8. *)
Definition replacement : string :=
  String (ascii_of_N 239) (String (ascii_of_N 191) (String (ascii_of_N 189) EmptyString)).

(** "UTF-8 decode without BOM": the decoder of the Encoding standard, its
    result kept in UTF-8.  [needed] counts the continuation bytes still
    expected, [lower] and [upper] bound the next one, and [pending] holds
    the bytes of the sequence read so far.  A byte that cannot start or
    continue a sequence yields U+FFFD; a byte that ends a sequence early is
    read again as the start of the next one. *)
Fixpoint utf8_decode (needed : nat) (lower upper : N) (pending : string) (s : string)
    : string :=
  match s with
  | EmptyString =>
    match needed with O => EmptyString | S _ => replacement end
  | String c s' =>
    let b := N_of_ascii c in
    let start :=
      if (b <=? 127)%N then String c (utf8_decode 0 128 191 EmptyString s')
      else if ((194 <=? b) && (b <=? 223))%N then
        utf8_decode 1 128 191 (String c EmptyString) s'
      else if ((224 <=? b) && (b <=? 239))%N then
        utf8_decode 2 (if (b =? 224)%N then 160 else 128)%N
                      (if (b =? 237)%N then 159 else 191)%N (String c EmptyString) s'
      else if ((240 <=? b) && (b <=? 244))%N then
        utf8_decode 3 (if (b =? 240)%N then 144 else 128)%N
                      (if (b =? 244)%N then 143 else 191)%N (String c EmptyString) s'
      else replacement +:+ utf8_decode 0 128 191 EmptyString s' in
    match needed with
    | O => start
    | S n =>
      if ((lower <=? b) && (b <=? upper))%N then
        match n with
        | O => pending +:+ String c (utf8_decode 0 128 191 EmptyString s')
        | S _ => utf8_decode n 128 191 (pending +:+ String c EmptyString) s'
        end
      else replacement +:+ start
    end
  end.

(** Name and value are percent-decoded after [+] has become a space, and
    the bytes are then decoded as UTF-8. *)
Definition decode (s : string) : string :=
  utf8_decode 0 128 191 EmptyString (percent_decode (plus_to_space s)).

(** The application/x-www-form-urlencoded parser. *)
Definition parse (input : string) : list (string * string) :=
  flat_map (fun sequence =>
              if Js.truthy sequence
              then let (n, v) := name_value sequence in [(decode n, decode v)]
              else [])
           (split_on amp input).

(** [new URLSearchParams(init)]: one leading [?] is dropped. *)
Definition create (init : string) : list (string * string) :=
  match init with
  | String c rest => if Ascii.eqb c "?"%char then parse rest else parse init
  | EmptyString => parse init
  end.

(** [params.get(name)]: the value of the first pair of that name. *)
Fixpoint get (name : string) (params : list (string * string)) : option string :=
  match params with
  | [] => None
  | (n, v) :: rest => if String.eqb n name then Some v else get name rest
  end.

(** [s] has no character [c]. *)
Fixpoint lacks (c : ascii) (s : string) : bool :=
  match s with
  | EmptyString => true
  | String x s' => negb (Ascii.eqb x c) && lacks c s'
  end.

(** A value that the parser returns as it is written: no separator and
    nothing to decode. *)
Definition plain (s : string) : bool :=
  lacks amp s && lacks plus s && lacks percent s.

(** Every byte of [s] is an ASCII character, as in every fragment that
    [location.hash] returns. *)
Fixpoint ascii_only (s : string) : bool :=
  match s with
  | EmptyString => true
  | String c s' => (N_of_ascii c <=? 127)%N && ascii_only s'
  end.

End URLSearchParams.

(* ===================================================================== *)
(** * AuthService                                                         *)
(* ===================================================================== *)

Module AuthService.

Import Js.

(** [localStorage.setItem(k, v)] converts [v] to a string. *)
Definition to_stored (v : option string) : string :=
  match v with Some s => s | None => "undefined" end.

Definition truthy_opt (v : option string) : bool :=
  match v with Some s => truthy s | None => false end.

(** The tokens of a response are saved when it carries a token. *)
Definition save_tokens (provider : option string) (response : AuthResponse)
    (w : world) : world :=
  if truthy_opt (token response) then
    let w1 := setItem "authToken" (to_stored (token response)) w in
    let w2 := setItem "refreshToken" (to_stored (refreshToken response)) w1 in
    match provider with
    | Some p => setItem "authProvider" p w2
    | None => w2
    end
  else w.

Definition login (e : env) (username password : string)
    (net : FetchOutcome AuthResponse) (w : world) : world * (exn + AuthResponse) :=
  match ApiService.request e empty_response "/auth/login"
          {| method := Some "POST"; headers := None;
             body := Some [("username", username); ("password", password)] |}
          net w with
  | (w1, inr response) => (save_tokens (Some "local") response w1, inr response)
  | (w1, inl error) => (w1, inl error)
  end.

(** [String.prototype.slice(1)] *)
Definition slice1 (s : string) : string :=
  match s with String _ r => r | EmptyString => EmptyString end.

(** [bootstrapFromHash]: the state it leaves and what it returns; [None]
    where the [SecurityError] of [replaceState] leaves the function, after
    the tokens have been stored. *)
Definition bootstrapFromHash (w : world) : world * option bool :=
  let hash := hash (location w) in
  if negb (startsWith hash "#") then (w, Some false)
  else
    let params := URLSearchParams.create (slice1 hash) in
    let token := URLSearchParams.get "token" params in
    let refreshToken := URLSearchParams.get "refreshToken" params in
    let w1 := if truthy_opt token then setItem "authToken" (to_stored token) w else w in
    let w2 := if truthy_opt refreshToken
              then setItem "refreshToken" (to_stored refreshToken) w1 else w1 in
    if truthy_opt token then
      match replaceState_path_search w2 with
      | Some w3 => (w3, Some true)
      | None => (w2, None)
      end
    else (w2, Some false).

(** [logout] up to its [await]: the refresh token is read and the request
    leaves with it. *)
Definition logout_begin (e : env) (w : world) : world :=
  let refreshToken := or_else (getItem "refreshToken" w) EmptyString in
  ApiService.request_send e "/auth/logout"
    {| method := Some "POST";
       headers := Some [("Refresh-Token", refreshToken)];
       body := None |} w.

(** [logout] from the moment its request has settled: an error is caught
    and logged, and the [finally] block removes the four keys. *)
Definition logout_settle (e : env) (net : FetchOutcome unit) (w : world) : world :=
  let w1 := match ApiService.request_settle e tt net w with
            | (w1, inr _) => w1
            | (w1, inl _) => w1
            end in
  removeItem "authProvider"
    (removeItem "userProfile"
      (removeItem "refreshToken"
        (removeItem "authToken" w1))).

(** An awaited [logout]. *)
Definition logout (e : env) (net : FetchOutcome unit) (w : world) : world :=
  logout_settle e net (logout_begin e w).

(** The [try] block of [refreshToken]. *)
Definition refreshToken_try (e : env) (net : FetchOutcome AuthResponse) (w : world)
    : world * (exn + AuthResponse) :=
  let refreshToken := getItem "refreshToken" w in
  if negb (truthy_opt refreshToken) then (w, inl (JsError "沒有刷新令牌"))
  else
    match ApiService.request e empty_response "/auth/refresh"
            {| method := Some "POST"; headers := None;
               body := Some [("refreshToken", to_stored refreshToken)] |}
            net w with
    | (w1, inr response) => (save_tokens None response w1, inr response)
    | (w1, inl error) => (w1, inl error)
    end.

(** One run of [refreshToken]: the world when its promise settles, what it
    settles with, and whether a [logout] was started whose promise nobody
    awaits ([this.logout()] in the [catch] block). *)
Record RefreshRun := {
  settled_world : world;
  settled_with : exn + AuthResponse;
  logout_started : bool
}.

Definition refreshToken_run (e : env) (net : FetchOutcome AuthResponse) (w : world)
    : RefreshRun :=
  match refreshToken_try e net w with
  | (w1, inr response) =>
    {| settled_world := w1; settled_with := inr response; logout_started := false |}
  | (w1, inl error) =>
    {| settled_world := logout_begin e w1; settled_with := inl error;
       logout_started := true |}
  end.

(** The world once everything [refreshToken] started has finished:
    [net_logout] is how the request of the started [logout] settles. *)
Definition refreshToken_finished (e : env) (net : FetchOutcome AuthResponse)
    (net_logout : FetchOutcome unit) (w : world) : world :=
  let run := refreshToken_run e net w in
  if logout_started run then logout_settle e net_logout (settled_world run)
  else settled_world run.

Definition isAuthenticated (w : world) : bool :=
  truthy_opt (getItem "authToken" w).

(** [JSON.stringify(undefined)] is [undefined], which is stored as the
    string "undefined". *)
Definition setCurrentUser (e : env) (user : option User) (w : world) : world :=
  setItem "userProfile" (to_stored (option_map (JSON_stringify e) user)) w.

(** The three credentials kept in storage are gone. *)
Definition no_credentials (w : world) : Prop :=
  getItem "authToken" w = None /\
  getItem "refreshToken" w = None /\
  getItem "userProfile" w = None.

(** The token store, the pair of access and refresh token, is empty. *)
Definition token_store_cleared (w : world) : Prop :=
  getItem "authToken" w = None /\ getItem "refreshToken" w = None.

(** The call that [logout] sends. *)
Definition logout_call (e : env) (w : world) : FetchCall :=
  {| call_url := baseURL e +:+ "/auth/logout";
     call_method := Some "POST";
     call_headers := [("Refresh-Token", or_else (getItem "refreshToken" w) EmptyString)];
     call_body := None |}.

Record RegisterRequest := {
  reg_username : string;
  reg_email : string;
  reg_password : string;
  reg_confirmPassword : string
}.

Definition register (e : env) (userData : RegisterRequest)
    (net : FetchOutcome AuthResponse) (w : world) : world * (exn + AuthResponse) :=
  match ApiService.request e empty_response "/auth/register"
          {| method := Some "POST"; headers := None;
             body := Some [("username", reg_username userData);
                           ("email", reg_email userData);
                           ("password", reg_password userData);
                           ("confirmPassword", reg_confirmPassword userData)] |}
          net w with
  | (w1, inr response) => (save_tokens (Some "local") response w1, inr response)
  | (w1, inl error) => (w1, inl error)
  end.

(** The payload of [/auth/me]; a missing [user] is [undefined]. *)
Record MeResponse := { me_user : option User }.

Definition getMe (e : env) (net : FetchOutcome MeResponse) (w : world)
    : world * (exn + option User) :=
  match ApiService.request e {| me_user := None |} "/auth/me"
          {| method := Some "GET"; headers := None; body := None |} net w with
  | (w1, inr resp) => (w1, inr (me_user resp))
  | (w1, inl error) => (w1, inl error)
  end.

(** What [JSON.parse] makes of a stored profile: it throws, or gives a
    falsy value such as [null], or a value that is taken as the user. *)
Inductive ParsedProfile :=
| ParseThrows (msg : string)
| ParsedFalsy
| ParsedUser (u : User).

(** [userStr ? JSON.parse(userStr) : null] *)
Definition getCurrentUser (JSON_parse : string -> ParsedProfile) (w : world)
    : exn + option User :=
  match getItem "userProfile" w with
  | Some userStr =>
    if truthy userStr then
      match JSON_parse userStr with
      | ParseThrows msg => inl (JsError msg)
      | ParsedFalsy => inr None
      | ParsedUser u => inr (Some u)
      end
    else inr None
  | None => inr None
  end.

End AuthService.

(* ===================================================================== *)
(** * AuthProvider (contexts/AuthContext.tsx)                             *)
(* ===================================================================== *)

Module AuthContext.

Import Js.

Record AuthState := {
  state_user : option User;
  state_isAuthenticated : bool;
  state_loading : bool;
  state_error : option string
}.

Record LoginRequest := { login_username : string; login_password : string }.

(** [error instanceof Error ? error.message : '登入失敗'] *)
Definition rawMessage_of (error : exn) : string :=
  match error with
  | ApiError m _ => m
  | JsError m => m
  | NotAnError => "登入失敗"
  end.

(** [/用戶|密碼|認證|憑證|Invalid|credential/i] *)
Definition auth_failure_pattern : regex :=
  Alt (Lit "用戶") (Alt (Lit "密碼") (Alt (Lit "認證") (Alt (Lit "憑證")
    (Alt (Lit "Invalid") (Lit "credential"))))).

Definition generic_message : string := "用戶名或密碼錯誤".

(** The server's message is one of the first two entries of the
    translation table: wrong user name or password, bad credential. *)
Definition says_wrong_credentials (raw : string) : bool :=
  test ApiService.re_wrong_password raw || test ApiService.re_bad_credential raw.

Definition normalize (rawMessage : string) : string :=
  if test_i auth_failure_pattern rawMessage then generic_message else rawMessage.

Definition login (e : env) (credentials : LoginRequest)
    (net : FetchOutcome AuthResponse) (st : AuthState) (w : world)
    : AuthState * world * bool :=
  (* setLoading(true); setError(null) *)
  match AuthService.login e (login_username credentials) (login_password credentials)
          net w with
  | (w1, inr response) =>
    ({| state_user := user response;
        state_isAuthenticated := true;
        state_loading := false;
        state_error := None |},
     AuthService.setCurrentUser e (user response) w1,
     true)
  | (w1, inl error) =>
    let rawMessage := rawMessage_of error in
    ({| state_user := state_user st;
        state_isAuthenticated := state_isAuthenticated st;
        state_loading := false;
        state_error := Some (normalize rawMessage) |},
     w1,
     false)
  end.

Definition set_session (user : option User) (isAuthenticated : bool) (st : AuthState)
    : AuthState :=
  {| state_user := user; state_isAuthenticated := isAuthenticated;
     state_loading := state_loading st; state_error := state_error st |}.

Definition setLoading (loading : bool) (st : AuthState) : AuthState :=
  {| state_user := state_user st; state_isAuthenticated := state_isAuthenticated st;
     state_loading := loading; state_error := state_error st |}.

Definition setError (error : option string) (st : AuthState) : AuthState :=
  {| state_user := state_user st; state_isAuthenticated := state_isAuthenticated st;
     state_loading := state_loading st; state_error := error |}.

Definition clearError (st : AuthState) : AuthState := setError None st.

(** [register] of the provider: as [login], but the message of the error
    is stored as it is. *)
Definition register (e : env) (userData : AuthService.RegisterRequest)
    (net : FetchOutcome AuthResponse) (st : AuthState) (w : world)
    : AuthState * world * bool :=
  let st1 := setError None (setLoading true st) in
  match AuthService.register e userData net w with
  | (w1, inr response) =>
    (setLoading false (set_session (user response) true st1),
     AuthService.setCurrentUser e (user response) w1,
     true)
  | (w1, inl error) =>
    let errorMessage :=
      match error with
      | ApiError m _ => m
      | JsError m => m
      | NotAnError => "註冊失敗"
      end in
    (setLoading false (setError (Some errorMessage) st1), w1, false)
  end.

(** [logout] of the provider; [AuthService.logout] catches every error
    itself, so the [catch] block here has nothing to catch. *)
Definition logout (e : env) (net : FetchOutcome unit) (st : AuthState) (w : world)
    : AuthState * world :=
  let st1 := setLoading true st in
  let w1 := AuthService.logout e net w in
  (setLoading false (set_session None false st1), w1).

(** [initializeAuth], the effect run once when the provider mounts.
    [net_me] is how the request of [getMe] settles and [net_logout] how the
    request of [logout] settles, where they are sent.  What
    [bootstrapFromHash] throws is caught and dropped: the effect goes on
    with the state that the bootstrap has left. *)
Definition initializeAuth (e : env) (JSON_parse : string -> AuthService.ParsedProfile)
    (net_me : FetchOutcome AuthService.MeResponse) (net_logout : FetchOutcome unit)
    (st : AuthState) (w : world) : AuthState * world :=
  let w1 := fst (AuthService.bootstrapFromHash w) in
  let hasToken := AuthService.isAuthenticated w1 in
  if hasToken then
    match AuthService.getMe e net_me w1 with
    | (w2, inr me) =>
      (setLoading false (set_session me true st), AuthService.setCurrentUser e me w2)
    | (w2, inl _) =>
      match AuthService.getCurrentUser JSON_parse w2 with
      | inr (Some storedUser) =>
        (setLoading false (set_session (Some storedUser) true st), w2)
      | inr None => (setLoading false st, w2)
      | inl _ =>
        let (st3, w3) := logout e net_logout st w2 in
        (setLoading false st3, w3)
      end
    end
  else (setLoading false st, w1).

Definition refreshUser (e : env) (JSON_parse : string -> AuthService.ParsedProfile)
    (net_logout : FetchOutcome unit) (st : AuthState) (w : world)
    : AuthState * world :=
  match AuthService.getCurrentUser JSON_parse w with
  | inr (Some storedUser) => (set_session (Some storedUser) true st, w)
  | inr None => (st, w)
  | inl _ => logout e net_logout st w
  end.

End AuthContext.

(* ===================================================================== *)
(** * App.tsx: the role gate and the content-mutating handlers            *)
(* ===================================================================== *)

(** The fields of a post or portfolio item that the logic reads. *)
Record ContentItem := {
  item_id : string;
  title : option string;
  titleZh : option string;
  date : option string;
  categoryKey : option string;
  views : option Z
}.

Record Comment := {
  comment_id : string;
  postId : string;
  text : string;
  parentId : option string
}.

Module App.

Definition role_eqb (a b : UserRole) : bool :=
  match a, b with
  | USER, USER | ADMIN, ADMIN | SUPER_USER, SUPER_USER => true
  | _, _ => false
  end.

(** [isAuthenticated && ((user?.role === 'SUPER_USER') || (user?.role === 'ADMIN')
      || (user?.username === 'admin'))] *)
Definition isSuperUser (isAuthenticated : bool) (user : option User) : bool :=
  isAuthenticated &&
  (match user with Some u => role_eqb (role u) SUPER_USER | None => false end
   || match user with Some u => role_eqb (role u) ADMIN | None => false end
   || match user with Some u => String.eqb (username u) "admin" | None => false end).

(** The state of [App] that the handlers touch, with what they do to the
    outside: route changes and alerts. *)
Record AppState := {
  userAddedPosts : list ContentItem;
  userAddedPortfolioItems : list ContentItem;
  allComments : list Comment;
  navigated : list string;
  alerts : list string;
  browser : world
}.

Definition setUserAddedPosts (f : list ContentItem -> list ContentItem) (st : AppState) :=
  {| userAddedPosts := f (userAddedPosts st);
     userAddedPortfolioItems := userAddedPortfolioItems st;
     allComments := allComments st; navigated := navigated st;
     alerts := alerts st; browser := browser st |}.

Definition setUserAddedPortfolioItems (f : list ContentItem -> list ContentItem)
    (st : AppState) :=
  {| userAddedPosts := userAddedPosts st;
     userAddedPortfolioItems := f (userAddedPortfolioItems st);
     allComments := allComments st; navigated := navigated st;
     alerts := alerts st; browser := browser st |}.

Definition setAllComments (cs : list Comment) (st : AppState) :=
  {| userAddedPosts := userAddedPosts st;
     userAddedPortfolioItems := userAddedPortfolioItems st;
     allComments := cs; navigated := navigated st;
     alerts := alerts st; browser := browser st |}.

Definition navigate (path : string) (st : AppState) :=
  {| userAddedPosts := userAddedPosts st;
     userAddedPortfolioItems := userAddedPortfolioItems st;
     allComments := allComments st; navigated := navigated st ++ [path];
     alerts := alerts st; browser := browser st |}.

Definition alert (msg : string) (st : AppState) :=
  {| userAddedPosts := userAddedPosts st;
     userAddedPortfolioItems := userAddedPortfolioItems st;
     allComments := allComments st; navigated := navigated st;
     alerts := alerts st ++ [msg]; browser := browser st |}.

Definition with_browser (w : world) (st : AppState) :=
  {| userAddedPosts := userAddedPosts st;
     userAddedPortfolioItems := userAddedPortfolioItems st;
     allComments := allComments st; navigated := navigated st;
     alerts := alerts st; browser := w |}.

(** [Array.prototype.findIndex]; [None] is -1. *)
Fixpoint findIndex {A : Type} (f : A -> bool) (l : list A) : option nat :=
  match l with
  | [] => None
  | x :: l' => if f x then Some O else option_map S (findIndex f l')
  end.

(** [ids.includes(x)] *)
Definition includes (ids : list string) (x : string) : bool :=
  existsb (String.eqb x) ids.

Definition handleSaveBlogPost (isSuperUser : bool) (postData : ContentItem)
    (st : AppState) : AppState :=
  if negb isSuperUser then st
  else
    let st1 :=
      setUserAddedPosts
        (fun p =>
           match findIndex (fun item => String.eqb (item_id item) (item_id postData)) p with
           | Some i => <[i := postData]> p
           | None => postData :: p
           end) st in
    navigate ("/blog/" +:+ item_id postData) st1.

Definition handleAddBlogPost (isSuperUser : bool) (postData : ContentItem)
    (st : AppState) : AppState :=
  if negb isSuperUser then st
  else setUserAddedPosts (fun p => postData :: p) st.

(** [await Promise.all(ids.map(id => del(id)))]: every request leaves at
    once; [net id] is how the request for [id] settles.  The result is the
    world after all have settled and whether all were fulfilled. *)
Definition delete_all (e : env) (endpoint : string -> string)
    (ids : list string) (net : string -> FetchOutcome unit) (w : world) : world * bool :=
  let sent :=
    fold_left (fun w id =>
                 ApiService.request_send e (endpoint id)
                   {| method := Some "DELETE"; headers := None; body := None |} w)
              ids w in
  fold_left (fun (acc : world * bool) id =>
               match ApiService.request_settle e tt (net id) (fst acc) with
               | (w', inr _) => (w', snd acc)
               | (w', inl _) => (w', false)
               end)
            ids (sent, true).

Definition handleDeleteBlogPosts (e : env) (isSuperUser : bool) (ids : list string)
    (net : string -> FetchOutcome unit) (st : AppState) : AppState :=
  if negb isSuperUser then st
  else
    match delete_all e (fun id => "/content/posts/" +:+ id) ids net (browser st) with
    | (w, true) =>
      setUserAddedPosts
        (List.filter (fun post => negb (includes ids (item_id post))))
        (with_browser w st)
    | (w, false) => alert "刪除文章失敗，請重試" (with_browser w st)
    end.

Definition handleAddPortfolioItem (isSuperUser : bool) (item : ContentItem)
    (st : AppState) : AppState :=
  if negb isSuperUser then st
  else setUserAddedPortfolioItems (fun p => item :: p) st.

Definition handleUpdatePortfolioItem (isSuperUser : bool) (item : ContentItem)
    (st : AppState) : AppState :=
  if negb isSuperUser then st
  else setUserAddedPortfolioItems
         (map (fun i => if String.eqb (item_id i) (item_id item) then item else i)) st.

Definition handleDeletePortfolioItems (e : env) (isSuperUser : bool) (ids : list string)
    (net : string -> FetchOutcome unit) (st : AppState) : AppState :=
  if negb isSuperUser then st
  else
    match delete_all e (fun id => "/content/portfolio/" +:+ id) ids net (browser st) with
    | (w, true) =>
      setUserAddedPortfolioItems
        (List.filter (fun i => negb (includes ids (item_id i))))
        (with_browser w st)
    | (w, false) => alert "刪除作品項目失敗，請重試" (with_browser w st)
    end.

(** [c.parentId === parentId] *)
Definition is_child_of (parent : string) (c : Comment) : bool :=
  match parentId c with
  | Some q => String.eqb q parent
  | None => false
  end.

(** The recursive closure [findChildren] of [handleDeleteComment], which
    adds to the shared set [toDelete]; the recursion of the source has no
    bound, so it is run with fuel and [None] is "still running". *)
Fixpoint findChildren (fuel : nat) (p : list Comment) (parent : string)
    (toDelete : gset string) : option (gset string) :=
  match fuel with
  | O => None
  | S fuel' =>
    fold_left
      (fun acc c =>
         match acc with
         | Some td => findChildren fuel' p (comment_id c) (td ∪ {[comment_id c]})
         | None => None
         end)
      (List.filter (is_child_of parent) p)
      (Some toDelete)
  end.

(** The updater passed to [setAllComments]. *)
Definition delete_comment_updater (fuel : nat) (id : string) (p : list Comment)
    : option (list Comment) :=
  match findChildren fuel p id {[id]} with
  | Some toDelete =>
    Some (List.filter (fun c => negb (bool_decide (comment_id c ∈ toDelete))) p)
  | None => None
  end.

Definition handleDeleteComment (fuel : nat) (e : env) (isSuperUser : bool)
    (id : string) (net : FetchOutcome unit) (st : AppState) : option AppState :=
  if negb isSuperUser then Some st
  else
    match ApiService.deleteComment e id net (browser st) with
    | (w, inr _) =>
      match delete_comment_updater fuel id (allComments st) with
      | Some cs => Some (setAllComments cs (with_browser w st))
      | None => None
      end
    | (w, inl _) => Some (alert "刪除留言失敗" (with_browser w st))
    end.

(** [c] is a reply, at any depth, below the comment with id [a]: its
    chain of parent ids leads to [a] through comments of [p]. *)
Inductive descendant (p : list Comment) (a : string) : Comment -> Prop :=
| reply c :
    In c p -> parentId c = Some a -> descendant p a c
| reply_below c' c :
    descendant p a c' -> In c p -> parentId c = Some (comment_id c') ->
    descendant p a c.

(** The comments form a forest: parent ids go strictly down a rank. *)
Definition forest (depth : string -> nat) (p : list Comment) : Prop :=
  forall c q, In c p -> parentId c = Some q -> depth q < depth (comment_id c).

(** What a finished run of [findChildren] on [x] has added to the set:
    the replies to [x], and with every id it added the replies to that id;
    and only ids of replies below [x]. *)
Definition closes (p : list Comment) (x : string) (td td' : gset string) : Prop :=
  td ⊆ td' /\
  (forall c, In c p -> parentId c = Some x -> comment_id c ∈ td') /\
  (forall y, y ∈ td' -> y ∉ td ->
     (exists d, descendant p x d /\ comment_id d = y) /\
     (forall c, In c p -> parentId c = Some y -> comment_id c ∈ td')).

Definition max_depth (depth : string -> nat) (p : list Comment) : nat :=
  fold_right Nat.max 0 (map (fun c => depth (comment_id c)) p).

End App.

(* ===================================================================== *)
(** * Arrays: sort and slice                                              *)
(* ===================================================================== *)

Module JsArray.

Section Sort.
Context {A : Type}.
(** The comparator returns a number; [None] is NaN. *)
Variable comparefn : A -> A -> option Z.

(** SortCompare: a NaN from the comparator counts as +0. *)
Definition SortCompare (x y : A) : Z :=
  match comparefn x y with Some v => v | None => 0 end.

(** [Array.prototype.sort].  For a comparator that is consistent on the
    elements of the array ECMAScript fixes the result: the elements in
    sort order, those that compare equal in the order they had.  That is
    the array which this insertion sort builds from the right: an element
    moves behind those it is strictly greater than and stays in front of
    its equals.  For a comparator that is not consistent, such as one that
    returns NaN for an invalid date, the order is implementation-defined:
    there [sort] stands for the engine only in what every engine does, the
    result being a permutation of the array. *)
Fixpoint insert (x : A) (l : list A) : list A :=
  match l with
  | [] => [x]
  | y :: l' => if (0 <? SortCompare x y)%Z then y :: insert x l' else x :: l
  end.

Fixpoint sort (l : list A) : list A :=
  match l with
  | [] => []
  | x :: l' => insert x (sort l')
  end.

(** Every element compares at most equal to its successor. *)
Fixpoint ordered (l : list A) : Prop :=
  match l with
  | [] => True
  | x :: l' =>
    match l' with [] => True | y :: _ => (SortCompare x y <= 0)%Z end /\ ordered l'
  end.

(** The comparator never puts two elements each strictly behind the
    other. *)
Definition sign_antisymmetric : Prop :=
  forall x y, (0 < SortCompare x y)%Z -> (SortCompare y x <= 0)%Z.

(** ** What ECMAScript asks of a sort

    [comparefn] is a consistent comparator for the elements of [l]: it
    never returns NaN, every element compares equal to itself, comparing
    equal is symmetric, and comparing equal, less and greater are each
    transitive. *)
Definition consistent_on (l : list A) : Prop :=
  (forall a b, In a l -> In b l -> comparefn a b <> None) /\
  (forall a, In a l -> SortCompare a a = 0%Z) /\
  (forall a b, In a l -> In b l -> SortCompare a b = 0%Z -> SortCompare b a = 0%Z) /\
  (forall a b c, In a l -> In b l -> In c l ->
     SortCompare a b = 0%Z -> SortCompare b c = 0%Z -> SortCompare a c = 0%Z) /\
  (forall a b c, In a l -> In b l -> In c l ->
     (SortCompare a b < 0)%Z -> (SortCompare b c < 0)%Z -> (SortCompare a c < 0)%Z) /\
  (forall a b c, In a l -> In b l -> In c l ->
     (SortCompare a b > 0)%Z -> (SortCompare b c > 0)%Z -> (SortCompare a c > 0)%Z).

Definition consistent : Prop := forall l, consistent_on l.

(** The sort order: no element stands behind one that it compares less
    than. *)
Fixpoint in_sort_order (l : list A) : Prop :=
  match l with
  | [] => True
  | x :: l' => (forall y, In y l' -> ~ (SortCompare y x < 0)%Z) /\ in_sort_order l'
  end.

Definition equal_to (x y : A) : bool := (SortCompare x y =? 0)%Z.

(** Stability: the elements that compare equal to an element of the array
    stand in [new] in the order they have in [old]. *)
Definition stable (old new : list A) : Prop :=
  forall x, In x old -> List.filter (equal_to x) new = List.filter (equal_to x) old.
End Sort.

(** A function that sorts as ECMAScript asks: called with a comparator
    that is consistent on the array it returns the elements of the array,
    in sort order, and is stable.  Nothing is asked for other
    comparators. *)
Definition conforms {A : Type}
    (engine_sort : (A -> A -> option Z) -> list A -> list A) : Prop :=
  forall comparefn l,
    consistent_on comparefn l ->
    Permutation (engine_sort comparefn l) l /\
    in_sort_order comparefn (engine_sort comparefn l) /\
    stable comparefn l (engine_sort comparefn l).

(** [Array.prototype.slice(start, end)] with its relative (negative)
    indices and clamping. *)
Definition slice {A : Type} (l : list A) (start end_ : Z) : list A :=
  let len := Z.of_nat (length l) in
  let k := if (start <? 0)%Z then Z.max (len + start) 0 else Z.min start len in
  let final := if (end_ <? 0)%Z then Z.max (len + end_) 0 else Z.min end_ len in
  firstn (Z.to_nat (final - k)) (skipn (Z.to_nat k) l).

End JsArray.

(* ===================================================================== *)
(** * The content list pipeline of the pages                              *)
(* ===================================================================== *)

Module ContentList.

Import Js.

(** What the browser and the i18n runtime compute for the comparators. *)
Record platform := {
  i18n_language : string;
  (** [new Date(s).getTime()]; [None] is NaN (an invalid date) *)
  Date_getTime : string -> option Z;
  (** [a.localeCompare(b)] *)
  localeCompare : string -> string -> Z;
  (** the translation function [t] *)
  t : string -> string
}.

(** [blogCategoryDefinitions] of components/data/blogData *)
Record CategoryDef := { titleKey : string; categoryKeys : list string }.

Section Pipeline.
Variable pf : platform.
Variable blogCategoryDefinitions : list CategoryDef.

Definition sub (a b : option Z) : option Z :=
  match a, b with
  | Some x, Some y => Some (x - y)%Z
  | _, _ => None
  end.

Definition views_or_0 (a : ContentItem) : option Z :=
  match views a with Some v => Some v | None => Some 0%Z end.

Definition truthy_opt (v : option string) : bool :=
  match v with Some s => truthy s | None => false end.

Definition lc (a b : string) : option Z := Some (localeCompare pf a b).

(** ** PostManagementPage *)

Inductive SortOrder :=
| date_desc | date_asc | title_asc | title_desc | views_desc | views_asc.

(** [new Date(a.date).getTime()] *)
Definition post_time (a : ContentItem) : option Z :=
  match date a with Some d => Date_getTime pf d | None => None end.

(** [(i18n.language === 'zh-Hant' && a.titleZh) ? a.titleZh : (a.title || '')] *)
Definition post_title (a : ContentItem) : string :=
  if String.eqb (i18n_language pf) "zh-Hant" && truthy_opt (titleZh a)
  then or_else (titleZh a) EmptyString
  else or_else (title a) EmptyString.

Definition compare_posts (sortOrder : SortOrder) (a b : ContentItem) : option Z :=
  let titleA := post_title a in
  let titleB := post_title b in
  match sortOrder with
  | date_asc => sub (post_time a) (post_time b)
  | title_asc => lc titleA titleB
  | title_desc => lc titleB titleA
  | views_desc => sub (views_or_0 b) (views_or_0 a)
  | views_asc => sub (views_or_0 a) (views_or_0 b)
  | date_desc => sub (post_time b) (post_time a)
  end.

(** The sorting step of [processedPosts]. *)
Definition sort_posts (sortOrder : SortOrder) (items : list ContentItem) :=
  JsArray.sort (compare_posts sortOrder) items.

Definition category_filter (filterCategory : string) (items : list ContentItem) :=
  if negb (String.eqb filterCategory "all") then
    match find (fun def => String.eqb (titleKey def) filterCategory)
               blogCategoryDefinitions with
    | Some activeCategoryDef =>
      List.filter
        (fun post =>
           match categoryKey post with
           | Some k => truthy k && existsb (String.eqb k) (categoryKeys activeCategoryDef)
           | None => false
           end) items
    | None => items
    end
  else items.

Definition processedPosts (filterCategory : string) (sortOrder : SortOrder)
    (posts : list ContentItem) : list ContentItem :=
  sort_posts sortOrder (category_filter filterCategory posts).

Definition paginatedPosts {A : Type} (processedPosts : list A)
    (currentPage itemsPerPage : Z) : list A :=
  let startIndex := ((currentPage - 1) * itemsPerPage)%Z in
  JsArray.slice processedPosts startIndex (startIndex + itemsPerPage)%Z.

(** ** PortfolioPage *)

Inductive SortKey :=
| k_date_desc | k_date_asc | k_title_asc | k_title_desc
| k_category_asc | k_category_desc | k_views_desc | k_views_asc.

(** [a.date ? new Date(a.date).getTime() : 0] *)
Definition item_time (a : ContentItem) : option Z :=
  match date a with
  | Some d => if truthy d then Date_getTime pf d else Some 0%Z
  | None => Some 0%Z
  end.

(** [(i18n.language === 'zh-Hant' && a.titleZh) ? a.titleZh : (a.title || a.id)] *)
Definition item_title (a : ContentItem) : string :=
  if String.eqb (i18n_language pf) "zh-Hant" && truthy_opt (titleZh a)
  then or_else (titleZh a) EmptyString
  else or_else (title a) (item_id a).

(** [t(a.categoryKey || '')] *)
Definition item_category (a : ContentItem) : string :=
  t pf (or_else (categoryKey a) EmptyString).

Definition compare_items (sortKey : SortKey) (a b : ContentItem) : option Z :=
  let titleA := item_title a in
  let titleB := item_title b in
  let categoryA := item_category a in
  let categoryB := item_category b in
  match sortKey with
  | k_date_asc => sub (item_time a) (item_time b)
  | k_title_asc => lc titleA titleB
  | k_title_desc => lc titleB titleA
  | k_category_asc => lc categoryA categoryB
  | k_category_desc => lc categoryB categoryA
  | k_views_desc => sub (views_or_0 b) (views_or_0 a)
  | k_views_asc => sub (views_or_0 a) (views_or_0 b)
  | k_date_desc => sub (item_time b) (item_time a)
  end.

Definition sortedItems (sortKey : SortKey) (allPortfolioItems : list ContentItem) :=
  JsArray.sort (compare_items sortKey) allPortfolioItems.

(** The orders that compare dates, and what they ask of a collection for
    the comparator never to return NaN: every date is a valid one. *)
Definition dates_are_valid (sortOrder : SortOrder) (posts : list ContentItem) : Prop :=
  match sortOrder with
  | date_desc | date_asc => forall p, In p posts -> post_time p <> None
  | _ => True
  end.

Definition item_dates_are_valid (sortKey : SortKey) (items : list ContentItem) : Prop :=
  match sortKey with
  | k_date_desc | k_date_asc => forall p, In p items -> item_time p <> None
  | _ => True
  end.

End Pipeline.

End ContentList.

(* ===================================================================== *)
(** * RegisterPage                                                        *)
(* ===================================================================== *)

Module RegisterPage.

Import Js.

(** [String.prototype.length]: UTF-16 code units. *)
Definition length16 (s : string) : nat :=
  fold_right (fun c n => if (65536 <=? c)%N then S (S n) else S n) 0 (chars s).

Record Form := {
  username_field : string;
  email_field : string;
  password_field : string;
  confirmPassword_field : string;
  error : option string;
  successMessage : option string;
  isSubmitting : bool;
  usernameError : option string;
  emailError : option string;
  (** [window.location.href], once the page has set it *)
  href : option string
}.

Definition set_errors (err usernameErr emailErr : option string) (f : Form) : Form :=
  {| username_field := username_field f; email_field := email_field f;
     password_field := password_field f;
     confirmPassword_field := confirmPassword_field f;
     error := err; successMessage := successMessage f;
     isSubmitting := isSubmitting f;
     usernameError := usernameErr; emailError := emailErr; href := href f |}.

Definition setIsSubmitting (b : bool) (f : Form) : Form :=
  {| username_field := username_field f; email_field := email_field f;
     password_field := password_field f;
     confirmPassword_field := confirmPassword_field f;
     error := error f; successMessage := successMessage f; isSubmitting := b;
     usernameError := usernameError f; emailError := emailError f; href := href f |}.

Definition succeed (msg : string) (f : Form) : Form :=
  {| username_field := username_field f; email_field := email_field f;
     password_field := password_field f;
     confirmPassword_field := confirmPassword_field f;
     error := error f; successMessage := Some msg; isSubmitting := isSubmitting f;
     usernameError := usernameError f; emailError := emailError f;
     href := Some "/" |}.

(** [/用戶名.*已存在|Username already exists/i] *)
Definition re_username_taken : regex :=
  Alt (Seq (Lit "用戶名") (Seq (Star AnyChar) (Lit "已存在")))
      (Lit "Username already exists").

(** [/郵箱.*已被使用|郵箱已存在|Email already exists/i] *)
Definition re_email_taken : regex :=
  Alt (Seq (Lit "郵箱") (Seq (Star AnyChar) (Lit "已被使用")))
    (Alt (Lit "郵箱已存在") (Lit "Email already exists")).

(** The effect on [authError]: the error of the session becomes a field
    error or the error of the form. *)
Definition onAuthError (authError : option string) (f : Form) : Form :=
  match authError with
  | None => f
  | Some msg =>
    if negb (truthy msg) then f
    else if test_i re_username_taken msg then set_errors None (Some msg) None f
    else if test_i re_email_taken msg then set_errors None None (Some msg) f
    else set_errors (Some msg) (usernameError f) (emailError f) f
  end.

(** [handleSubmit].  [t] is the translation function, [register] the
    function of that name from [useAuth()], with what it throws, and
    [authError] the session error as the handler's closure holds it. *)
Definition handleSubmit {S : Type} (t : string -> string)
    (register : AuthService.RegisterRequest -> S -> S * (exn + bool))
    (authError : option string) (f : Form) (st : S) : Form * S :=
  let f1 :=
    {| username_field := username_field f; email_field := email_field f;
       password_field := password_field f;
       confirmPassword_field := confirmPassword_field f;
       error := None; successMessage := None; isSubmitting := true;
       usernameError := None; emailError := None; href := href f |} in
  if (length16 (username_field f) <? 3)%nat then
    (setIsSubmitting false
       (set_errors (error f1) (Some "使用者名稱至少需要3個字元") (emailError f1) f1), st)
  else if negb (String.eqb (password_field f) (confirmPassword_field f)) then
    (setIsSubmitting false
       (set_errors (Some (t "registerPage.passwordsDoNotMatchError"))
          (usernameError f1) (emailError f1) f1), st)
  else
    match register {| AuthService.reg_username := username_field f;
                      AuthService.reg_email := email_field f;
                      AuthService.reg_password := password_field f;
                      AuthService.reg_confirmPassword := confirmPassword_field f |} st with
    | (st', inr true) =>
      (setIsSubmitting false
         (succeed (t "registerPage.registrationSuccessMessage") f1), st')
    | (st', inr false) =>
      let f2 := match authError with
                | Some a => if truthy a
                            then set_errors (Some a) (usernameError f1) (emailError f1) f1
                            else f1
                | None => f1
                end in
      (setIsSubmitting false f2, st')
    | (st', inl err) =>
      let f2 :=
        match err with
        | ApiError message _ =>
          let m := message in
          if test_i re_username_taken m
          then set_errors (error f1) (Some m) (emailError f1) f1
          else if test_i re_email_taken m
          then set_errors (error f1) (usernameError f1) (Some m) f1
          else set_errors (Some m) (usernameError f1) (emailError f1) f1
        | JsError message => set_errors (Some message) (usernameError f1) (emailError f1) f1
        | NotAnError => set_errors (Some "註冊失敗") (usernameError f1) (emailError f1) f1
        end in
      (setIsSubmitting false f2, st')
    end.

(** [register] of the provider as the page calls it: session and world are
    the state, and nothing is thrown. *)
Definition provider_register (e : env) (net : FetchOutcome AuthResponse)
    (userData : AuthService.RegisterRequest) (s : AuthContext.AuthState * world)
    : (AuthContext.AuthState * world) * (exn + bool) :=
  match AuthContext.register e userData net (fst s) (snd s) with
  | (st', w', ok) => ((st', w'), inr ok)
  end.

End RegisterPage.

(* ===================================================================== *)
(** * App.tsx: route guards                                               *)
(* ===================================================================== *)

Module Routes.

(** What a route element renders: its page, or a redirect. *)
Inductive Element :=
| Page (name : string)
| Navigate (to : string).

Definition ProtectedRoute (isAuthenticated : bool) (children : Element) : Element :=
  if negb isAuthenticated then Navigate "/login" else children.

Definition SuperUserRoute (isSuperUser : bool) (children : Element) : Element :=
  if negb isSuperUser then Navigate "/" else children.

(** The element of the routes [blog/add], [blog/edit/:postId],
    [manage/photos] and [manage/posts]. *)
Definition managed_route (isAuthenticated : bool) (user : option User) (name : string)
    : Element :=
  ProtectedRoute isAuthenticated
    (SuperUserRoute (App.isSuperUser isAuthenticated user) (Page name)).

(** The element of the route [account]. *)
Definition account_route (isAuthenticated : bool) : Element :=
  ProtectedRoute isAuthenticated (Page "account").

End Routes.

(* ===================================================================== *)
(** * PostManagementPage: the selection                                   *)
(* ===================================================================== *)

Module Selection.

(** [prev.includes(id) ? prev.filter(i => i !== id) : [...prev, id]] *)
Definition handleSelectOne (id : string) (prev : list string) : list string :=
  if App.includes prev id
  then List.filter (fun i => negb (String.eqb i id)) prev
  else prev ++ [id].

(** [handleSelectAll]: the ids of the page, or nothing. *)
Definition handleSelectAll (checked : bool) (paginatedPosts : list ContentItem)
    : list string :=
  if checked then map item_id paginatedPosts else [].

Record DeleteState := {
  selectedIds : list string;
  itemToDelete : option string;
  isDeleteModalOpen : bool
}.

(** [handleConfirmDelete]: the ids handed to [onDelete], if it is called,
    and the state afterwards. *)
Definition handleConfirmDelete (s : DeleteState) : option (list string) * DeleteState :=
  let close ids sel item :=
    (ids, {| selectedIds := sel; itemToDelete := item; isDeleteModalOpen := false |}) in
  match itemToDelete s with
  | Some item =>
    if Js.truthy item then close (Some [item]) (selectedIds s) None
    else if (0 <? length (selectedIds s))%nat
         then close (Some (selectedIds s)) [] (itemToDelete s)
         else close None (selectedIds s) (itemToDelete s)
  | None =>
    if (0 <? length (selectedIds s))%nat
    then close (Some (selectedIds s)) [] (itemToDelete s)
    else close None (selectedIds s) (itemToDelete s)
  end.

End Selection.

(* ===================================================================== *)
(** * PortfolioPage: carousel and infinite scroll                         *)
(* ===================================================================== *)

Module Portfolio.

Record PortfolioItemData := {
  content : ContentItem;
  isFeatured : bool;
  isStatic : bool
}.

Definition ITEMS_PER_PAGE : Z := 12.
Definition ITEMS_TO_LOAD : Z := 6.

Section Carousel.
Variable pf : ContentList.platform.

(** [(b.date ? new Date(b.date).getTime() : 0) - (a.date ? new Date(a.date).getTime() : 0)] *)
Definition by_date_desc (a b : PortfolioItemData) : option Z :=
  ContentList.sub (ContentList.item_time pf (content b))
                  (ContentList.item_time pf (content a)).

Definition allPortfolioItems (userAddedPortfolioItems : list PortfolioItemData) :=
  JsArray.sort by_date_desc userAddedPortfolioItems.

Definition carouselItems (allPortfolioItems : list PortfolioItemData) :=
  let featuredItems :=
    JsArray.sort by_date_desc (List.filter isFeatured allPortfolioItems) in
  let nonFeaturedItems :=
    JsArray.sort by_date_desc
      (List.filter (fun item => negb (isFeatured item)) allPortfolioItems) in
  let combined := featuredItems ++ nonFeaturedItems in
  JsArray.slice combined 0 8.
End Carousel.

(** [filteredItems] *)
Definition filteredItems (activeFilter : string) (sortedItems : list ContentItem) :=
  if String.eqb activeFilter "portfolioPage.filterAll" then sortedItems
  else List.filter
         (fun item => match categoryKey item with
                      | Some k => String.eqb k activeFilter
                      | None => false
                      end) sortedItems.

(** [itemsToDisplay] *)
Definition itemsToDisplay {A : Type} (filteredItems : list A) (displayCount : Z) :=
  JsArray.slice filteredItems 0 displayCount.

(** The updater [prev => Math.min(prev + ITEMS_TO_LOAD, filteredItems.length)] *)
Definition load_more (total prev : Z) : Z := Z.min (prev + ITEMS_TO_LOAD) total.

(** The observer's callback, once its timer has fired. *)
Definition on_intersect (isIntersecting isLoading : bool) (total displayCount : Z) : Z :=
  if isIntersecting && negb isLoading && (displayCount <? total)%Z
  then load_more total displayCount
  else displayCount.

(** The display count after the sentinel has come into view [k] times
    since the filter was chosen. *)
Fixpoint scrolled (k : nat) (total : Z) : Z :=
  match k with
  | O => ITEMS_PER_PAGE
  | S k' => on_intersect true false total (scrolled k' total)
  end.

End Portfolio.

(* ===================================================================== *)
(** * PostNavigation                                                      *)
(* ===================================================================== *)

Module PostNavigation.

Section Navigation.
Variable pf : ContentList.platform.

(** [[...allPosts].sort((a, b) => new Date(b.date).getTime() - new Date(a.date).getTime())] *)
Definition sortedPosts (allPosts : list ContentItem) : list ContentItem :=
  JsArray.sort (fun a b => ContentList.sub (ContentList.post_time pf b)
                                           (ContentList.post_time pf a)) allPosts.

Definition currentIndex (currentPost : ContentItem) (allPosts : list ContentItem)
    : option nat :=
  App.findIndex (fun p => String.eqb (item_id p) (item_id currentPost))
                (sortedPosts allPosts).

(** [currentIndex > -1 && currentIndex < sortedPosts.length - 1
      ? sortedPosts[currentIndex + 1] : null] *)
Definition previousPost (currentPost : ContentItem) (allPosts : list ContentItem)
    : option ContentItem :=
  match currentIndex currentPost allPosts with
  | Some i =>
    if (Z.of_nat i <? Z.of_nat (length (sortedPosts allPosts)) - 1)%Z
    then sortedPosts allPosts !! (i + 1)%nat
    else None
  | None => None
  end.

(** [currentIndex > 0 ? sortedPosts[currentIndex - 1] : null] *)
Definition nextPost (currentPost : ContentItem) (allPosts : list ContentItem)
    : option ContentItem :=
  match currentIndex currentPost allPosts with
  | Some i => if (0 <? i)%nat then sortedPosts allPosts !! (i - 1)%nat else None
  | None => None
  end.
End Navigation.

End PostNavigation.

(* ===================================================================== *)
(** * TimeAgo and BlogHero                                                *)
(* ===================================================================== *)

Module TimeAgo.

(** The units of [formatTimeAgo], with their length in seconds and their
    labels. *)
Inductive TimeUnit := Years | Months | Days | Hours | Minutes.

Definition seconds_in (u : TimeUnit) : Z :=
  match u with
  | Years => 31536000
  | Months => 2592000
  | Days => 86400
  | Hours => 3600
  | Minutes => 60
  end.

Definition label (language : string) (u : TimeUnit) : string :=
  let zh := String.eqb language "zh-Hant" in
  match u with
  | Years => if zh then "年前" else " years ago"
  | Months => if zh then "個月前" else " months ago"
  | Days => if zh then "天前" else " days ago"
  | Hours => if zh then "小時前" else " hours ago"
  | Minutes => if zh then "分鐘前" else " minutes ago"
  end.

(** [Math.floor(interval) + label] where [interval = seconds / unit] has
    been found greater than 1.  On integers [seconds / unit > 1] is
    [seconds > unit], and the floor of the quotient is the integer
    quotient. *)
Definition ago (language : string) (seconds : Z) (u : TimeUnit) : string :=
  Js.string_of_N (Z.to_N (seconds / seconds_in u)) +:+ label language u.

(** [formatTimeAgo]; [now] and the time of [date] in milliseconds, the
    latter [None] for an invalid date, with which every comparison is
    false. *)
Definition formatTimeAgo (language : string) (now : Z) (date : option Z) : string :=
  let just_now := if String.eqb language "zh-Hant" then "剛剛" else "just now" in
  match date with
  | None => just_now
  | Some d =>
    let seconds := ((now - d) / 1000)%Z in
    if (seconds_in Years <? seconds)%Z then ago language seconds Years
    else if (seconds_in Months <? seconds)%Z then ago language seconds Months
    else if (seconds_in Days <? seconds)%Z then ago language seconds Days
    else if (seconds_in Hours <? seconds)%Z then ago language seconds Hours
    else if (seconds_in Minutes <? seconds)%Z then ago language seconds Minutes
    else just_now
  end.

(** The largest count that [formatTimeAgo] shows with a unit; years have
    none. *)
Definition most (u : TimeUnit) : option Z :=
  match u with
  | Years => None
  | Months => Some 12%Z
  | Days => Some 30%Z
  | Hours => Some 24%Z
  | Minutes => Some 60%Z
  end.

End TimeAgo.

Module BlogHero.

(** The indices [(realIndex + 1 + i) % posts.length] for
    [i < Math.min(4, posts.length - 1)], none when there are fewer than two
    posts. *)
Definition upcomingIndices (realIndex n : nat) : list nat :=
  if (n <? 2)%nat then []
  else map (fun i => ((realIndex + 1 + i) mod n)%nat) (seq 0 (Nat.min 4 (n - 1))).

Definition upcomingPosts {A : Type} (posts : list A) (realIndex : nat) : list (option A) :=
  map (fun nextIndex => posts !! nextIndex) (upcomingIndices realIndex (length posts)).

End BlogHero.

(* ===================================================================== *)
(** * CategorySidebar, BlogSidebar and BlogPage: ranked lists              *)
(* ===================================================================== *)

Module CategorySidebar.

Section Sidebar.
Variable pf : ContentList.platform.

(** [!p.categoryKey || !currentKeys.has(p.categoryKey)] *)
Definition outside (currentKeys : list string) (p : ContentItem) : bool :=
  match categoryKey p with
  | Some k => if Js.truthy k then negb (existsb (String.eqb k) currentKeys) else true
  | None => true
  end.

(** [{ titleKey, postsToList }]: with a current category the five latest
    posts of the other categories, without one the five most viewed. *)
Definition postsToList (currentCategoryInfo : option ContentList.CategoryDef)
    (allPosts : list ContentItem) : string * list ContentItem :=
  match currentCategoryInfo with
  | Some info =>
    let currentKeys := ContentList.categoryKeys info in
    let latestPostsFromOthers :=
      JsArray.slice
        (JsArray.sort
           (fun a b => ContentList.sub (ContentList.post_time pf b)
                                       (ContentList.post_time pf a))
           (List.filter (outside currentKeys) allPosts))
        0 5 in
    ("blogSidebar.otherCategoryPosts", latestPostsFromOthers)
  | None =>
    let popularPosts :=
      JsArray.slice
        (JsArray.sort
           (fun a b => ContentList.sub (ContentList.views_or_0 b)
                                       (ContentList.views_or_0 a))
           allPosts)
        0 5 in
    ("blogSidebar.popularPosts", popularPosts)
  end.
End Sidebar.

End CategorySidebar.

Module BlogSidebar.

Section Popular.
Context {A : Type}.
(** [post.likes], a number or undefined *)
Variable likes : A -> option Z.

(** [likes || 0] *)
Definition likes_or_0 (a : A) : Z :=
  match likes a with Some v => v | None => 0 end.

Definition popularPosts (allPosts : list A) : list A :=
  JsArray.sort (fun a b => Some (likes_or_0 b - likes_or_0 a)%Z) allPosts.

(** [popularPosts[0]] *)
Definition breakingPost (allPosts : list A) : option A :=
  popularPosts allPosts !! 0%nat.

Definition otherPopularPosts (allPosts : list A) : list A :=
  JsArray.slice (popularPosts allPosts) 1 5.
End Popular.

End BlogSidebar.

Module BlogPage.

Section Blog.
Context {A : Type}.
(** [post.createdAt], a number; [None] is NaN *)
Variable createdAt : A -> option Z.

Definition sortedPosts (allPosts : list A) : list A :=
  JsArray.sort (fun a b => ContentList.sub (createdAt b) (createdAt a)) allPosts.

Definition heroPosts (allPosts : list A) : list A :=
  JsArray.slice (sortedPosts allPosts) 0 6.

Definition postcardPosts (allPosts : list A) : list A :=
  JsArray.slice (sortedPosts allPosts) 6 18.
End Blog.

End BlogPage.

(* ===================================================================== *)
(** * Sample data                                                         *)
(* ===================================================================== *)

Definition stale_session : world :=
  {| localStorage := <["authToken" := "expired"]> (<["refreshToken" := "r1"]> ∅);
     location := {| pathname := "/"; search := EmptyString; hash := EmptyString |};
     fetched := [] |}.

Definition response_401 : Response unit :=
  {| status := 401; statusText := "Unauthorized"; errorBody := None;
     okBody := EmptyText |}.

Definition get_posts : RequestInit :=
  {| method := None; headers := None; body := None |}.

Definition plain_env : env :=
  {| baseURL := "/api"; language := Some "en"; JSON_stringify := fun u => username u |}.

Definition response_500 : Response AuthResponse :=
  {| status := 500; statusText := "Internal Server Error"; errorBody := None;
     okBody := EmptyText |}.

Definition oauth_redirect : world :=
  {| localStorage := ∅;
     location := {| pathname := "/"; search := EmptyString;
                    hash := "#token=abc&refreshToken=xyz" |};
     fetched := [] |}.

(** The same redirect at an address whose path begins with two slashes. *)
Definition oauth_redirect_double_slash : world :=
  {| localStorage := ∅;
     location := {| pathname := "//foo"; search := EmptyString;
                    hash := "#token=abc&refreshToken=xyz" |};
     fetched := [] |}.

Definition zh_env : env :=
  {| baseURL := "/api"; language := Some "zh-Hant"; JSON_stringify := fun u => username u |}.

(** A refused login: status 401 and the server's message. *)
Definition login_refused (msg : string) : Response AuthResponse :=
  {| status := 401; statusText := "Unauthorized";
     errorBody := Some {| ed_message := Some msg; ed_error := None; ed_details := None |};
     okBody := EmptyText |}.

Definition anonymous : AuthContext.AuthState :=
  {| AuthContext.state_user := None;
     AuthContext.state_isAuthenticated := false;
     AuthContext.state_loading := false;
     AuthContext.state_error := None |}.

Definition some_credentials : AuthContext.LoginRequest :=
  {| AuthContext.login_username := "alice"; AuthContext.login_password := "guess" |}.

(** The session error after a login that the server refuses with [msg]. *)
Definition surfaced (e : env) (msg : string) : option string :=
  AuthContext.state_error
    (fst (fst (AuthContext.login e some_credentials (Settled (login_refused msg))
                 anonymous oauth_redirect))).

(** Comparison by code units, a stand-in for a collation. *)
Definition ordinal_compare (a b : string) : Z :=
  match String.compare a b with Lt => (-1)%Z | Eq => 0%Z | Gt => 1%Z end.

Definition sample_platform : ContentList.platform :=
  {| ContentList.i18n_language := "en";
     ContentList.Date_getTime := fun s => Some (Z.of_nat (String.length s));
     ContentList.localeCompare := ordinal_compare;
     ContentList.t := fun k => k |}.

Definition post (i ttl : string) (v : Z) : ContentItem :=
  {| item_id := i; title := Some ttl; titleZh := None; date := Some i;
     categoryKey := None; views := Some v |}.

Definition sample_posts : list ContentItem :=
  [post "3" "c" 5; post "1" "a" 5; post "22" "b" 1].

Definition admin_named_user : User :=
  {| user_id := "7"; username := "admin"; email := "a@example.org";
     avatarUrl := EmptyString; role := USER |}.

Definition empty_app : App.AppState :=
  {| App.userAddedPosts := sample_posts; App.userAddedPortfolioItems := [];
     App.allComments := []; App.navigated := []; App.alerts := [];
     App.browser := stale_session |}.

Definition comment (i : string) (parent : option string) : Comment :=
  {| comment_id := i; postId := "post-1"; text := "..."; parentId := parent |}.

(** A thread a > b > c next to a thread d > e. *)
Definition thread : list Comment :=
  [comment "a" None; comment "b" (Some "a"); comment "c" (Some "b");
   comment "d" None; comment "e" (Some "d")].

Definition thread_depth (i : string) : nat :=
  if String.eqb i "c" then 2
  else if String.eqb i "b" || String.eqb i "e" then 1
  else 0.

Definition app_with_thread : App.AppState :=
  {| App.userAddedPosts := sample_posts; App.userAddedPortfolioItems := [];
     App.allComments := thread; App.navigated := []; App.alerts := [];
     App.browser := stale_session |}.

Definition no_content : Response unit :=
  {| status := 204; statusText := "No Content"; errorBody := None;
     okBody := EmptyText |}.

Definition fresh_session : world :=
  {| localStorage := ∅;
     location := {| pathname := "/"; search := EmptyString; hash := EmptyString |};
     fetched := [] |}.

Definition alice : User :=
  {| user_id := "1"; username := "alice"; email := "alice@example.org";
     avatarUrl := EmptyString; role := USER |}.

Definition login_accepted : Response AuthResponse :=
  {| status := 200; statusText := "OK"; errorBody := None;
     okBody := Json {| token := Some "t1"; refreshToken := Some "r2"; user := Some alice |} |}.

Definition upload_refused : Response unit :=
  {| status := 413; statusText := "Payload Too Large";
     errorBody := Some {| ed_message := Some "file too large"; ed_error := None;
                          ed_details := None |};
     okBody := EmptyText |}.

Definition me_401 : Response AuthService.MeResponse :=
  {| status := 401; statusText := "Unauthorized"; errorBody := None;
     okBody := EmptyText |}.

(** A parser that knows one stored profile. *)
Definition parse_alice (s : string) : AuthService.ParsedProfile :=
  if String.eqb s "alice" then AuthService.ParsedUser alice
  else AuthService.ParseThrows "Unexpected token".

Definition expired_with_profile : world :=
  {| localStorage := <["authToken" := "expired"]> (<["userProfile" := "alice"]> ∅);
     location := {| pathname := "/"; search := EmptyString; hash := EmptyString |};
     fetched := [] |}.

Definition name_taken : Response AuthResponse :=
  {| status := 409; statusText := "Conflict";
     errorBody := Some {| ed_message := Some "用戶名 bob 已存在"; ed_error := None;
                          ed_details := None |};
     okBody := EmptyText |}.

Definition bob_request : AuthService.RegisterRequest :=
  {| AuthService.reg_username := "bob"; AuthService.reg_email := "bob@example.org";
     AuthService.reg_password := "secret1"; AuthService.reg_confirmPassword := "secret1" |}.

Definition blank_form : RegisterPage.Form :=
  {| RegisterPage.username_field := "bo"; RegisterPage.email_field := "bo@example.org";
     RegisterPage.password_field := "secret1";
     RegisterPage.confirmPassword_field := "secret1";
     RegisterPage.error := None; RegisterPage.successMessage := None;
     RegisterPage.isSubmitting := false; RegisterPage.usernameError := None;
     RegisterPage.emailError := None; RegisterPage.href := None |}.

Definition post_b_revised : ContentItem :=
  {| item_id := "1"; title := Some "a, revised"; titleZh := None; date := Some "1";
     categoryKey := None; views := Some 6%Z |}.

Definition portfolio_app : App.AppState :=
  {| App.userAddedPosts := []; App.userAddedPortfolioItems := sample_posts;
     App.allComments := thread; App.navigated := []; App.alerts := [];
     App.browser := stale_session |}.

Definition post_unknown : ContentItem :=
  {| item_id := "9"; title := Some "z"; titleZh := None; date := Some "9";
     categoryKey := None; views := Some 0%Z |}.

(** The server deletes every post but the one with id 22. *)
Definition refuses_22 (id : string) : FetchOutcome unit :=
  if String.eqb id "22" then Settled response_401 else Settled no_content.

Definition photography : ContentList.CategoryDef :=
  {| ContentList.titleKey := "blogPage.categoryPhotography";
     ContentList.categoryKeys := ["blogPage.categoryPhotography"; "blogPage.categoryStreet"] |}.

Definition categorized (i : string) (k : option string) : ContentItem :=
  {| item_id := i; title := Some i; titleZh := None; date := Some i;
     categoryKey := k; views := None |}.

Definition mixed_posts : list ContentItem :=
  [categorized "1" (Some "blogPage.categoryStreet");
   categorized "22" None;
   categorized "333" (Some "blogPage.categoryTools")].

Definition photo (i : string) (featured : bool) : Portfolio.PortfolioItemData :=
  {| Portfolio.content := categorized i None; Portfolio.isFeatured := featured;
     Portfolio.isStatic := false |}.

Definition few_photos : list Portfolio.PortfolioItemData :=
  [photo "1" false; photo "22" true; photo "333" false].

(** A refresh that the server accepts without sending a new refresh
    token. *)
Definition refresh_without_refresh_token : Response AuthResponse :=
  {| status := 200; statusText := "OK"; errorBody := None;
     okBody := Json {| token := Some "t2"; refreshToken := None; user := None |} |}.

Definition row_and_selection : Selection.DeleteState :=
  {| Selection.selectedIds := ["3"; "1"]; Selection.itemToDelete := Some "22";
     Selection.isDeleteModalOpen := true |}.

(** Eight posts, given by the time of their creation. *)
Definition eight_posts : list Z := [3; 8; 1; 6; 2; 7; 5; 4]%Z.

Definition viewed (i : string) (n : Z) : ContentItem :=
  {| item_id := i; title := None; titleZh := None; date := None;
     categoryKey := None; views := Some n |}.

Definition seven_viewed : list ContentItem :=
  [viewed "a" 3; viewed "b" 9; viewed "c" 1; viewed "d" 4; viewed "e" 0; viewed "f" 7;
   viewed "g" 2].

(* ===================================================================== *)
(** * Properties                                                          *)
(* ===================================================================== *)

(** ** Regular expressions and translated messages *)

Example test_searches_the_subject :
  Js.test (Js.Lit "密碼") "您的密碼不正確" = true /\ Js.test (Js.Lit "密碼") "password" = false.
Proof. vm_compute. split; reflexivity. Qed.

Example test_i_folds_ascii_case :
  Js.test_i (Js.Lit "Invalid") "INVALID token" = true /\
  Js.test (Js.Lit "Invalid") "INVALID token" = false.
Proof. vm_compute. split; reflexivity. Qed.

Example bad_credential_accepts_colon_and_spaces :
  Js.test ApiService.re_bad_credential "登入失敗：  憑證錯誤" = true /\
  Js.test ApiService.re_bad_credential "登入失敗" = false.
Proof. vm_compute. split; reflexivity. Qed.

Example dot_does_not_cross_a_line_break :
  let taken := Js.Seq (Js.Lit "帳號") (Js.Seq (Js.Star Js.AnyChar) (Js.Lit "已存在")) in
  Js.test taken "帳號 bob 已存在" = true /\
  Js.test taken ("帳號" +:+ String (ascii_of_nat 10) "已存在") = false.
Proof. vm_compute. split; reflexivity. Qed.

Example translate_by_language :
  ApiService.translateServerMessage plain_env "郵箱已存在" = "Email already exists." /\
  ApiService.translateServerMessage zh_env "郵箱已存在" = "電子郵件已被使用" /\
  ApiService.translateServerMessage plain_env "伺服器錯誤" = "Request failed. Please try again." /\
  ApiService.translateServerMessage zh_env "伺服器錯誤" = "伺服器錯誤".
Proof. vm_compute. repeat split; reflexivity. Qed.

Example raw_message_without_body :
  ApiService.rawMessage response_401 = "API Error: 401 Unauthorized".
Proof. vm_compute. reflexivity. Qed.

Example search_params_decoding :
  URLSearchParams.create "?a=1+2&b=%41%zz&&c"
  = [("a", "1 2"); ("b", "A%zz"); ("c", EmptyString)].
Proof. vm_compute. reflexivity. Qed.

(** Bytes that are not UTF-8 come out as U+FFFD. *)
Example search_params_utf8 :
  URLSearchParams.create "a=%E4%B8%AD&b=x%FFy&c=%E4%B8"
  = [("a", "中"); ("b", "x" +:+ URLSearchParams.replacement +:+ "y");
     ("c", URLSearchParams.replacement)].
Proof. vm_compute. reflexivity. Qed.

(** An empty [token] parameter stores nothing and leaves the fragment. *)
Example bootstrap_ignores_empty_token :
  AuthService.bootstrapFromHash
    {| localStorage := ∅;
       location := {| pathname := "/"; search := EmptyString; hash := "#token=&refreshToken=xyz" |};
       fetched := [] |}
  = ({| localStorage := {["refreshToken" := "xyz"]};
        location := {| pathname := "/"; search := EmptyString; hash := "#token=&refreshToken=xyz" |};
        fetched := [] |}, Some false).
Proof. vm_compute. reflexivity. Qed.

(** ** Storage *)

Lemma getItem_removeItem k k' w :
  getItem k (removeItem k' w) = if decide (k' = k) then None else getItem k w.
Proof. unfold getItem, removeItem; simpl. apply lookup_delete. Qed.

Lemma getItem_setItem k k' v w :
  getItem k (setItem k' v w) = if decide (k' = k) then Some v else getItem k w.
Proof. unfold getItem, setItem; simpl. apply lookup_insert. Qed.

Lemma fetched_removeItem k w : fetched (removeItem k w) = fetched w.
Proof. reflexivity. Qed.

Lemma request_settle_fetched {T} e (empty : T) net w :
  fetched (fst (ApiService.request_settle e empty net w)) = fetched w.
Proof.
  unfold ApiService.request_settle.
  destruct net as [msg | r]; simpl; [reflexivity |].
  destruct (negb (ApiService.ok (status r))); simpl.
  - destruct (status r =? 401)%N; reflexivity.
  - destruct (okBody r); reflexivity.
Qed.

Lemma request_settle_other_keys {T} e (empty : T) net w k :
  k <> "authToken" ->
  getItem k (fst (ApiService.request_settle e empty net w)) = getItem k w.
Proof.
  intros Hk. unfold ApiService.request_settle.
  destruct net as [msg | r]; simpl; [reflexivity |].
  destruct (negb (ApiService.ok (status r))); simpl.
  - destruct (status r =? 401)%N; simpl; [| reflexivity].
    unfold ApiService.removeToken. rewrite getItem_removeItem.
    destruct (decide ("authToken" = k)); congruence.
  - destruct (okBody r); reflexivity.
Qed.

Lemma request_send_storage e endpoint options w :
  localStorage (ApiService.request_send e endpoint options w) = localStorage w.
Proof. reflexivity. Qed.

Lemma logout_settle_clears e net w :
  AuthService.no_credentials (AuthService.logout_settle e net w).
Proof.
  unfold AuthService.no_credentials, AuthService.logout_settle.
  repeat split; repeat (rewrite getItem_removeItem; simpl);
    repeat case_decide; congruence.
Qed.

(** C2. Whatever the outcome of the server-side logout request (fulfilled,
    an error status, or no response at all), after [logout] the storage
    holds no access token, no refresh token and no cached profile; the
    request itself was sent first, carrying the refresh token. *)
Theorem logout_clears_storage (e : env) (net : FetchOutcome unit) (w : world) :
  AuthService.no_credentials (AuthService.logout e net w) /\
  fetched (AuthService.logout e net w) = fetched w ++ [AuthService.logout_call e w].
Proof.
  split.
  - apply logout_settle_clears.
  - unfold AuthService.logout, AuthService.logout_settle.
    rewrite !fetched_removeItem.
    pose proof (request_settle_fetched e tt net (AuthService.logout_begin e w)) as H.
    destruct (ApiService.request_settle e tt net (AuthService.logout_begin e w))
      as [w1 [err | v]]; simpl in H; rewrite H; reflexivity.
Qed.

Lemma request_401_removes_access_token_frame {T : Type} (e : env) (empty : T)
    (endpoint : string) (options : RequestInit) (r : Response T) (w : world) :
  status r = 401%N ->
  exists message,
    snd (ApiService.request e empty endpoint options (Settled r) w)
    = inl (ApiError message 401) /\
    getItem "authToken" (fst (ApiService.request e empty endpoint options (Settled r) w))
    = None /\
    (forall k, k <> "authToken" ->
       getItem k (fst (ApiService.request e empty endpoint options (Settled r) w))
       = getItem k w).
Proof.
  intros Hst. unfold ApiService.request, ApiService.request_settle.
  rewrite Hst. simpl. eexists. split; [reflexivity |]. split.
  - unfold ApiService.removeToken. rewrite getItem_removeItem. reflexivity.
  - intros k Hk. unfold ApiService.removeToken. rewrite getItem_removeItem.
    destruct (decide ("authToken" = k)); [congruence | reflexivity].
Qed.

(** ** The request layer on a 401 *)

(** C3, as stated, fails: after a 401 the refresh token is still stored. *)
Lemma request_401_keeps_refresh_token :
  let w' := fst (ApiService.request plain_env tt "/content/posts" get_posts
                   (Settled response_401) stale_session) in
  getItem "refreshToken" w' = Some "r1" /\ ~ AuthService.token_store_cleared w'.
Proof.
  assert (H : getItem "refreshToken"
                (fst (ApiService.request plain_env tt "/content/posts" get_posts
                        (Settled response_401) stale_session)) = Some "r1")
    by (vm_compute; reflexivity).
  split; [exact H |].
  intros [_ Hr]. rewrite H in Hr. discriminate.
Qed.

(** C3, amended. A request that is answered with 401 throws an [ApiError]
    of status 401 and removes the access token, and only the access token,
    from storage; [isAuthenticated] is false afterwards. *)
Theorem request_401_removes_access_token {T : Type} (e : env) (empty : T)
    (endpoint : string) (options : RequestInit) (r : Response T) (w : world) :
  status r = 401%N ->
  let out := ApiService.request e empty endpoint options (Settled r) w in
  (exists message, snd out = inl (ApiError message 401)) /\
  getItem "authToken" (fst out) = None /\
  AuthService.isAuthenticated (fst out) = false /\
  (forall k, k <> "authToken" -> getItem k (fst out) = getItem k w).
Proof.
  intros Hst out. subst out.
  unfold ApiService.request, ApiService.request_settle.
  rewrite Hst. simpl.
  repeat split.
  - eexists. reflexivity.
  - unfold ApiService.removeToken. rewrite getItem_removeItem. reflexivity.
  - unfold AuthService.isAuthenticated, ApiService.removeToken.
    rewrite getItem_removeItem. reflexivity.
  - intros k Hk. unfold ApiService.removeToken. rewrite getItem_removeItem.
    destruct (decide ("authToken" = k)); [congruence | reflexivity].
Qed.

Lemma request_401_removes_access_token_witness :
  status response_401 = 401%N /\
  AuthService.isAuthenticated
    (fst (ApiService.request plain_env tt "/content/posts" get_posts
            (Settled response_401) stale_session)) = false.
Proof.
  split; [reflexivity |].
  apply (request_401_removes_access_token plain_env tt "/content/posts" get_posts
           response_401 stale_session).
  reflexivity.
Defined.

(** ** refreshToken *)

Lemma request_fails_spec {T} e (empty : T) net w :
  ApiService.request_fails net = true ->
  exists err, snd (ApiService.request_settle e empty net w) = inl err.
Proof.
  unfold ApiService.request_fails, ApiService.request_settle.
  destruct net as [msg | r]; simpl.
  - eauto.
  - destruct (negb (ApiService.ok (status r))); simpl; [eauto |].
    destruct (okBody r); try discriminate. eauto.
Qed.

(** When [refreshToken] fails, for want of a stored refresh token or
    because the exchange request fails, it rejects with the very error of
    its [try] block and has started a [logout]; once that logout's request
    has settled, in whatever way, the access token, the refresh token and
    the cached profile are gone from storage, and a further [refreshToken]
    stops at the missing refresh token without sending an exchange
    request. *)
Theorem refresh_failure_forces_logout (e : env) (net : FetchOutcome AuthResponse)
    (net_logout : FetchOutcome unit) (w : world) :
  AuthService.truthy_opt (getItem "refreshToken" w) = false \/
  ApiService.request_fails net = true ->
  let run := AuthService.refreshToken_run e net w in
  let finished := AuthService.refreshToken_finished e net net_logout w in
  (exists error,
      AuthService.settled_with run = inl error /\
      snd (AuthService.refreshToken_try e net w) = inl error) /\
  AuthService.logout_started run = true /\
  (exists call, fetched (AuthService.settled_world run)
                = fetched (fst (AuthService.refreshToken_try e net w)) ++ [call]
                /\ call_url call = baseURL e +:+ "/auth/logout") /\
  AuthService.no_credentials finished /\
  (forall net', AuthService.refreshToken_try e net' finished
                = (finished, inl (JsError "沒有刷新令牌"))).
Proof.
  intros Hfail run finished.
  assert (Htry : exists w1 error, AuthService.refreshToken_try e net w = (w1, inl error)).
  { unfold AuthService.refreshToken_try.
    destruct (AuthService.truthy_opt (getItem "refreshToken" w)) eqn:Hrt; simpl.
    - destruct Hfail as [Hf | Hf]; [discriminate |].
      unfold ApiService.request.
      destruct (request_fails_spec e empty_response net
                  (ApiService.request_send e "/auth/refresh"
                     {| method := Some "POST"; headers := None;
                        body := Some [("refreshToken",
                                       AuthService.to_stored (getItem "refreshToken" w))] |}
                     w) Hf) as [err Herr].
      destruct (ApiService.request_settle _ _ _ _) as [w1 res]; simpl in Herr.
      subst res. eauto.
    - eauto. }
  destruct Htry as (w1 & error & Htry).
  assert (Hrun : run = {| AuthService.settled_world := AuthService.logout_begin e w1;
                          AuthService.settled_with := inl error;
                          AuthService.logout_started := true |}).
  { subst run. unfold AuthService.refreshToken_run. rewrite Htry. reflexivity. }
  assert (Hclear : AuthService.no_credentials finished).
  { subst finished. unfold AuthService.refreshToken_finished. fold run.
    rewrite Hrun. simpl. apply logout_settle_clears. }
  split; [| split; [| split; [| split]]].
  - exists error. rewrite Hrun, Htry. split; reflexivity.
  - rewrite Hrun. reflexivity.
  - rewrite Hrun, Htry. simpl. eexists. split; reflexivity.
  - exact Hclear.
  - intros net'. unfold AuthService.refreshToken_try.
    destruct Hclear as (_ & Hr & _). rewrite Hr. reflexivity.
Qed.

Lemma refresh_failure_forces_logout_witness :
  ApiService.request_fails (Settled response_500) = true /\
  AuthService.no_credentials
    (AuthService.refreshToken_finished plain_env (Settled response_500)
       (Rejected "Failed to fetch") stale_session).
Proof.
  split; [reflexivity |].
  apply (refresh_failure_forces_logout plain_env (Settled response_500)
           (Rejected "Failed to fetch") stale_session).
  right. reflexivity.
Defined.

(** C6. The started [logout] is not awaited.  With an access token and the
    refresh token [r1] in storage and an exchange request answered with
    status 500, [refreshToken] rejects while both tokens are still stored:
    the logout request has left, and the keys go only when it settles.  A
    second [refreshToken] at that moment sends [r1] again. *)
Theorem refresh_rejects_before_storage_is_cleared :
  let run := AuthService.refreshToken_run plain_env (Settled response_500) stale_session in
  let again :=
    AuthService.refreshToken_run plain_env (Settled response_500)
      (AuthService.settled_world run) in
  AuthService.settled_with run
  = inl (ApiError "API Error: 500 Internal Server Error" 500) /\
  AuthService.logout_started run = true /\
  getItem "refreshToken" (AuthService.settled_world run) = Some "r1" /\
  getItem "authToken" (AuthService.settled_world run) = Some "expired" /\
  map call_url (fetched (AuthService.settled_world again))
  = ["/api/auth/refresh"; "/api/auth/logout"; "/api/auth/refresh"; "/api/auth/logout"] /\
  map call_body (fetched (AuthService.settled_world again))
  = [Some [("refreshToken", "r1")]; None; Some [("refreshToken", "r1")]; None].
Proof. vm_compute. repeat split; reflexivity. Qed.

(** The headers that [logout] passes replace the assembled ones: the
    logout request carries the refresh token and no Authorization header. *)
Example logout_request_headers :
  map call_headers (fetched (AuthService.logout_begin plain_env stale_session))
  = [[("Refresh-Token", "r1")]].
Proof. vm_compute. reflexivity. Qed.

(** ** The OAuth fragment *)

Lemma split_on_app sep a b :
  URLSearchParams.lacks sep a = true ->
  URLSearchParams.split_on sep (a +:+ String sep b)
  = a :: URLSearchParams.split_on sep b.
Proof.
  induction a as [| c a IH]; simpl; intros H.
  - rewrite Ascii.eqb_refl. reflexivity.
  - apply andb_prop in H as [Hc Ha].
    destruct (Ascii.eqb c sep); [discriminate |].
    rewrite (IH Ha). reflexivity.
Qed.

Lemma split_on_lacks sep a :
  URLSearchParams.lacks sep a = true -> URLSearchParams.split_on sep a = [a].
Proof.
  induction a as [| c a IH]; simpl; intros H; [reflexivity |].
  apply andb_prop in H as [Hc Ha].
  destruct (Ascii.eqb c sep); [discriminate |].
  rewrite (IH Ha). reflexivity.
Qed.

Lemma plus_to_space_lacks s :
  URLSearchParams.lacks URLSearchParams.plus s = true ->
  URLSearchParams.plus_to_space s = s.
Proof.
  induction s as [| c s IH]; simpl; intros H; [reflexivity |].
  apply andb_prop in H as [Hc Hs].
  destruct (Ascii.eqb c URLSearchParams.plus); [discriminate |].
  rewrite (IH Hs). reflexivity.
Qed.

Lemma percent_decode_lacks s :
  URLSearchParams.lacks URLSearchParams.percent s = true ->
  URLSearchParams.percent_decode s = s.
Proof.
  induction s as [| c s IH]; simpl; intros H; [reflexivity |].
  apply andb_prop in H as [Hc Hs].
  destruct (Ascii.eqb c URLSearchParams.percent); [discriminate |].
  rewrite (IH Hs). reflexivity.
Qed.

Lemma utf8_decode_ascii s :
  URLSearchParams.ascii_only s = true ->
  URLSearchParams.utf8_decode 0 128 191 EmptyString s = s.
Proof.
  induction s as [| c s IH]; simpl; intros H; [reflexivity |].
  apply andb_prop in H as [Hc Hs]. rewrite Hc, (IH Hs). reflexivity.
Qed.

Lemma decode_plain s :
  URLSearchParams.plain s = true -> URLSearchParams.ascii_only s = true ->
  URLSearchParams.decode s = s.
Proof.
  unfold URLSearchParams.plain, URLSearchParams.decode. intros H Hascii.
  apply andb_prop in H as [H Hpc]. apply andb_prop in H as [_ Hpl].
  rewrite (plus_to_space_lacks s Hpl), (percent_decode_lacks s Hpc).
  apply utf8_decode_ascii, Hascii.
Qed.

Lemma oauth_fragment_params abc xyz :
  URLSearchParams.plain abc = true -> URLSearchParams.ascii_only abc = true ->
  URLSearchParams.plain xyz = true -> URLSearchParams.ascii_only xyz = true ->
  URLSearchParams.create ("token=" +:+ abc +:+ "&refreshToken=" +:+ xyz)
  = [("token", abc); ("refreshToken", xyz)].
Proof.
  intros Ha Aa Hx Ax.
  pose proof (decode_plain abc Ha Aa) as Da. pose proof (decode_plain xyz Hx Ax) as Dx.
  unfold URLSearchParams.plain in Ha, Hx.
  apply andb_prop in Ha as [Ha _]. apply andb_prop in Ha as [Ha _].
  apply andb_prop in Hx as [Hx _]. apply andb_prop in Hx as [Hx _].
  change (URLSearchParams.create ("token=" +:+ abc +:+ "&refreshToken=" +:+ xyz))
    with (URLSearchParams.parse
            (("token=" +:+ abc) +:+ String URLSearchParams.amp ("refreshToken=" +:+ xyz))).
  unfold URLSearchParams.parse.
  rewrite split_on_app by exact Ha.
  rewrite (split_on_lacks URLSearchParams.amp ("refreshToken=" +:+ xyz)) by exact Hx.
  cbn -[URLSearchParams.decode].
  change (Js.truthy ("token=" +:+ abc)) with true.
  change (Js.truthy ("refreshToken=" +:+ xyz)) with true.
  change (URLSearchParams.name_value ("token=" +:+ abc)) with ("token", abc).
  change (URLSearchParams.name_value ("refreshToken=" +:+ xyz))
    with ("refreshToken", xyz).
  cbn -[URLSearchParams.decode]. rewrite Da, Dx. reflexivity.
Qed.

Lemma replaceState_spec w w' :
  replaceState_path_search w = Some w' ->
  localStorage w' = localStorage w /\ fetched w' = fetched w /\
  pathname (location w') = pathname (location w) /\
  search (location w') = search (location w) /\
  hash (location w') = EmptyString.
Proof.
  unfold replaceState_path_search.
  destruct (String.prefix _ _); [discriminate |]. intros [= <-]. repeat split.
Qed.

(** On a load whose path does not begin with [//] and whose fragment
    carries a [token] parameter that is not empty, the bootstrap stores
    the decoded parameter as access token, stores the [refreshToken]
    parameter too when there is one that is not empty and leaves the
    stored refresh token alone otherwise, leaves the address bar at path
    and query without the fragment, and returns true. *)
Lemma bootstrap_stores_and_strips (w : world) (t : string) :
  Js.startsWith (hash (location w)) "#" = true ->
  URLSearchParams.get "token" (URLSearchParams.create (AuthService.slice1 (hash (location w))))
  = Some t ->
  Js.truthy t = true ->
  String.prefix "//" (pathname (location w) +:+ search (location w)) = false ->
  let refreshToken :=
    URLSearchParams.get "refreshToken"
      (URLSearchParams.create (AuthService.slice1 (hash (location w)))) in
  let out := AuthService.bootstrapFromHash w in
  snd out = Some true /\
  getItem "authToken" (fst out) = Some t /\
  getItem "refreshToken" (fst out)
  = (if AuthService.truthy_opt refreshToken then refreshToken else getItem "refreshToken" w) /\
  hash (location (fst out)) = EmptyString /\
  pathname (location (fst out)) = pathname (location w) /\
  search (location (fst out)) = search (location w).
Proof.
  intros Hh Ht Htruthy Hpath refreshToken out. subst out.
  unfold AuthService.bootstrapFromHash. rewrite Hh, Ht. fold refreshToken.
  cbn [negb AuthService.truthy_opt AuthService.to_stored]. rewrite Htruthy.
  set (w2 := if AuthService.truthy_opt refreshToken then _ else _).
  assert (Hloc : location w2 = location w).
  { subst w2. destruct (AuthService.truthy_opt refreshToken); reflexivity. }
  unfold replaceState_path_search. rewrite Hloc, Hpath. cbn [fst snd location].
  unfold getItem. cbn [localStorage].
  refine (conj eq_refl (conj _ (conj _ (conj eq_refl (conj eq_refl eq_refl))))).
  - subst w2. destruct (AuthService.truthy_opt refreshToken); cbn [localStorage setItem].
    + rewrite lookup_insert_ne by discriminate. apply lookup_insert_eq.
    + apply lookup_insert_eq.
  - subst w2. destruct refreshToken as [r |]; cbn [AuthService.truthy_opt].
    + destruct (Js.truthy r); cbn [localStorage setItem AuthService.to_stored].
      * apply lookup_insert_eq.
      * rewrite lookup_insert_ne by discriminate. reflexivity.
    + cbn [localStorage setItem]. rewrite lookup_insert_ne by discriminate. reflexivity.
Qed.

(** The fragment [#token=abc&refreshToken=xyz] with [abc] and [xyz] not
    empty and written in ASCII without [&], [+] or [%]: both are stored as
    they are written. *)
Lemma bootstrap_from_oauth_fragment (abc xyz : string) (w : world) :
  Js.truthy abc = true -> Js.truthy xyz = true ->
  URLSearchParams.plain abc = true -> URLSearchParams.ascii_only abc = true ->
  URLSearchParams.plain xyz = true -> URLSearchParams.ascii_only xyz = true ->
  String.prefix "//" (pathname (location w) +:+ search (location w)) = false ->
  hash (location w) = "#token=" +:+ abc +:+ "&refreshToken=" +:+ xyz ->
  let out := AuthService.bootstrapFromHash w in
  snd out = Some true /\
  getItem "authToken" (fst out) = Some abc /\
  getItem "refreshToken" (fst out) = Some xyz /\
  hash (location (fst out)) = EmptyString /\
  pathname (location (fst out)) = pathname (location w) /\
  search (location (fst out)) = search (location w).
Proof.
  intros Ta Tx Pa Aa Px Ax Hpath Hh.
  assert (Hparams : URLSearchParams.create (AuthService.slice1 (hash (location w)))
                    = [("token", abc); ("refreshToken", xyz)]).
  { rewrite Hh. apply (oauth_fragment_params abc xyz Pa Aa Px Ax). }
  assert (Hstart : Js.startsWith (hash (location w)) "#" = true) by (rewrite Hh; reflexivity).
  assert (Htoken : URLSearchParams.get "token"
                     (URLSearchParams.create (AuthService.slice1 (hash (location w))))
                   = Some abc) by (rewrite Hparams; reflexivity).
  pose proof (bootstrap_stores_and_strips w abc Hstart Htoken Ta Hpath) as H.
  cbv zeta in H. rewrite Hparams in H.
  change (URLSearchParams.get "refreshToken" [("token", abc); ("refreshToken", xyz)])
    with (Some xyz) in H.
  cbn [AuthService.truthy_opt] in H. rewrite Tx in H. exact H.
Qed.

Example bootstrap_at_the_root :
  AuthService.bootstrapFromHash oauth_redirect
  = ({| localStorage := {["authToken" := "abc"; "refreshToken" := "xyz"]};
        location := {| pathname := "/"; search := EmptyString; hash := EmptyString |};
        fetched := [] |}, Some true).
Proof. vm_compute. reflexivity. Qed.

(** C5. On a load of the address [//foo#token=abc&refreshToken=xyz] (a
    path that begins with two slashes) the bootstrap stores both tokens
    and then [replaceState] throws: nothing is returned, and the fragment
    with the two tokens stays in the address bar. *)
Theorem bootstrap_keeps_fragment_on_double_slash_path :
  AuthService.bootstrapFromHash oauth_redirect_double_slash
  = ({| localStorage := {["authToken" := "abc"; "refreshToken" := "xyz"]};
        location := {| pathname := "//foo"; search := EmptyString;
                       hash := "#token=abc&refreshToken=xyz" |};
        fetched := [] |}, None).
Proof. vm_compute. reflexivity. Qed.


(** ** The error of a failed login *)

Lemma translate_wrong_credentials e raw :
  AuthContext.says_wrong_credentials raw = true ->
  ApiService.translateServerMessage e raw = "用戶名或密碼錯誤" \/
  ApiService.translateServerMessage e raw = "Invalid username or password.".
Proof.
  unfold AuthContext.says_wrong_credentials, ApiService.translateServerMessage.
  intros H.
  cbn [ApiService.maps ApiService.translate_loop ApiService.zh ApiService.en
       ApiService.zhOut].
  destruct (Js.test ApiService.re_wrong_password raw).
  - destruct (Js.startsWith _ _); [left | right]; reflexivity.
  - simpl in H. rewrite H.
    destruct (Js.startsWith _ _); [left | right]; reflexivity.
Qed.

Lemma login_failure e creds r st w :
  ApiService.ok (status r) = false ->
  exists w',
    AuthContext.login e creds (Settled r) st w
    = ({| AuthContext.state_user := AuthContext.state_user st;
          AuthContext.state_isAuthenticated := AuthContext.state_isAuthenticated st;
          AuthContext.state_loading := false;
          AuthContext.state_error :=
            Some (AuthContext.normalize
                    (ApiService.translateServerMessage e (ApiService.rawMessage r))) |},
       w', false).
Proof.
  intros Hok.
  unfold AuthContext.login, AuthService.login, ApiService.request,
    ApiService.request_settle.
  rewrite Hok. cbn [negb]. eexists. reflexivity.
Qed.

(** C4. A login refused with the server message that the user name does
    not exist surfaces that message, in English and in Chinese, while a
    wrong password gives the generic message: the two runs show different
    errors.  The server's own text matches the pattern of the provider;
    the text that reaches the provider is the translated one, which does
    not. *)
Theorem login_reveals_unknown_username :
  surfaced plain_env "用戶名或密碼錯誤" = Some AuthContext.generic_message /\
  surfaced plain_env "用戶名不存在" = Some "Username does not exist." /\
  surfaced zh_env "用戶名不存在" = Some "使用者名稱不存在" /\
  surfaced plain_env "用戶名不存在" <> surfaced plain_env "用戶名或密碼錯誤" /\
  Js.test_i AuthContext.auth_failure_pattern "用戶名不存在" = true /\
  Js.test_i AuthContext.auth_failure_pattern "Username does not exist." = false /\
  Js.test_i AuthContext.auth_failure_pattern "使用者名稱不存在" = false.
Proof.
  assert (H1 : surfaced plain_env "用戶名或密碼錯誤" = Some AuthContext.generic_message)
    by (vm_compute; reflexivity).
  assert (H2 : surfaced plain_env "用戶名不存在" = Some "Username does not exist.")
    by (vm_compute; reflexivity).
  assert (H3 : surfaced zh_env "用戶名不存在" = Some "使用者名稱不存在")
    by (vm_compute; reflexivity).
  refine (conj H1 (conj H2 (conj H3 (conj _ (conj _ (conj _ _)))))).
  - rewrite H1, H2. vm_compute. discriminate.
  - vm_compute. reflexivity.
  - vm_compute. reflexivity.
  - vm_compute. reflexivity.
Qed.

(** A login that the server refuses returns false and sets
    the session error to the generic message exactly when the translated
    server message matches the authentication-failure pattern, and to the
    translated message itself otherwise; whenever the server's message is
    one of the wrong-credentials messages of the translation table the
    error is the generic message, in every language. *)
Theorem login_error_normalized (e : env) (credentials : AuthContext.LoginRequest)
    (r : Response AuthResponse) (st : AuthContext.AuthState) (w : world) :
  ApiService.ok (status r) = false ->
  let out := AuthContext.login e credentials (Settled r) st w in
  let translated := ApiService.translateServerMessage e (ApiService.rawMessage r) in
  snd out = false /\
  AuthContext.state_error (fst (fst out))
  = Some (if Js.test_i AuthContext.auth_failure_pattern translated
          then AuthContext.generic_message else translated) /\
  (AuthContext.says_wrong_credentials (ApiService.rawMessage r) = true ->
   AuthContext.state_error (fst (fst out)) = Some AuthContext.generic_message).
Proof.
  intros Hok out translated. subst out translated.
  destruct (login_failure e credentials r st w Hok) as [w' ->].
  cbn [fst snd AuthContext.state_error].
  repeat split.
  intros Hc. f_equal. unfold AuthContext.normalize.
  destruct (translate_wrong_credentials e _ Hc) as [-> | ->]; vm_compute; reflexivity.
Qed.

Lemma login_error_normalized_witness :
  surfaced plain_env "登入失敗: 憑證錯誤" = Some AuthContext.generic_message.
Proof.
  apply (login_error_normalized plain_env some_credentials
           (login_refused "登入失敗: 憑證錯誤") anonymous oauth_redirect).
  - reflexivity.
  - vm_compute. reflexivity.
Defined.

(** ** The role gate *)

Lemma role_eqb_eq a b : App.role_eqb a b = true <-> a = b.
Proof. destruct a, b; simpl; split; intros H; try reflexivity; discriminate. Qed.

(** C1. [isSuperUser] holds exactly when the session is authenticated and
    the user has role ADMIN or SUPER_USER or is named "admin"; so it holds
    for an authenticated user of role USER named "admin", and never for an
    unauthenticated session. *)
Theorem role_gate_derivation :
  (forall isAuthenticated user,
      App.isSuperUser isAuthenticated user = true <->
      isAuthenticated = true /\
      exists u, user = Some u /\
                (role u = ADMIN \/ role u = SUPER_USER \/ username u = "admin")) /\
  (forall u, role u = USER -> username u = "admin" ->
             App.isSuperUser true (Some u) = true) /\
  (forall user, App.isSuperUser false user = false).
Proof.
  assert (Hiff : forall isAuthenticated user,
             App.isSuperUser isAuthenticated user = true <->
             isAuthenticated = true /\
             exists u, user = Some u /\
                       (role u = ADMIN \/ role u = SUPER_USER \/ username u = "admin")).
  { intros auth user. unfold App.isSuperUser. split.
    - intros H. apply andb_prop in H as [Ha H]. split; [exact Ha |].
      destruct user as [u |]; [| discriminate].
      exists u. split; [reflexivity |].
      apply orb_prop in H as [H | H]; [apply orb_prop in H as [H | H] |].
      + right; left. apply role_eqb_eq, H.
      + left. apply role_eqb_eq, H.
      + right; right. apply String.eqb_eq, H.
    - intros [-> (u & -> & H)]. simpl.
      destruct H as [H | [H | H]].
      + rewrite H. reflexivity.
      + rewrite H. reflexivity.
      + apply String.eqb_eq in H. rewrite H. apply orb_true_r. }
  split; [exact Hiff | split].
  - intros u _ Hn. apply Hiff. split; [reflexivity |]. eauto.
  - intros user. destruct user; reflexivity.
Qed.

Lemma role_gate_derivation_witness :
  role admin_named_user = USER /\ App.isSuperUser true (Some admin_named_user) = true.
Proof.
  split; [reflexivity |].
  apply (proj1 (proj2 role_gate_derivation) admin_named_user); reflexivity.
Defined.

(** ** The guard of the handlers *)

(** C9. With [isSuperUser] false, saving, adding or deleting a post,
    adding, updating or deleting a portfolio item and deleting a comment
    each return at once: the whole state, with posts, portfolio items,
    comments, storage and the list of requests sent, is as before. *)
Theorem mutations_need_super_user (e : env) (isAuthenticated : bool)
    (user : option User) (st : App.AppState) :
  App.isSuperUser isAuthenticated user = false ->
  let su := App.isSuperUser isAuthenticated user in
  (forall postData, App.handleSaveBlogPost su postData st = st) /\
  (forall postData, App.handleAddBlogPost su postData st = st) /\
  (forall ids net, App.handleDeleteBlogPosts e su ids net st = st) /\
  (forall item, App.handleAddPortfolioItem su item st = st) /\
  (forall item, App.handleUpdatePortfolioItem su item st = st) /\
  (forall ids net, App.handleDeletePortfolioItems e su ids net st = st) /\
  (forall fuel id net, App.handleDeleteComment fuel e su id net st = Some st).
Proof.
  intros H su. subst su. rewrite H.
  repeat split.
Qed.

Lemma mutations_need_super_user_witness :
  App.isSuperUser true None = false /\
  App.handleDeleteBlogPosts plain_env (App.isSuperUser true None) ["3"]
    (fun _ => Settled no_content) empty_app
  = empty_app.
Proof.
  split; [reflexivity |].
  apply (mutations_need_super_user plain_env true None empty_app).
  reflexivity.
Defined.

(** ** Sorting *)

Section SortFacts.
Context {A : Type}.
Variable comparefn : A -> A -> option Z.

Abbreviation sc := (JsArray.SortCompare comparefn).
Abbreviation ins := (JsArray.insert comparefn).
Abbreviation srt := (JsArray.sort comparefn).
Abbreviation ord := (JsArray.ordered comparefn).

Lemma insert_perm x l : Permutation (ins x l) (x :: l).
Proof.
  induction l as [| y l IH]; simpl; [reflexivity |].
  destruct (0 <? sc x y)%Z; [| reflexivity].
  rewrite IH. apply perm_swap.
Qed.

Lemma sort_perm l : Permutation (srt l) l.
Proof.
  induction l as [| x l IH]; simpl; [reflexivity |].
  rewrite insert_perm. apply perm_skip, IH.
Qed.

(** Stability: elements that compare equal among themselves keep their
    relative order. *)
Lemma insert_filter (same : A -> bool) x l :
  (forall a b, same a = true -> same b = true -> sc a b = 0%Z) ->
  List.filter same (ins x l) = List.filter same (x :: l).
Proof.
  intros Hsame. induction l as [| y l IH]; [reflexivity |].
  simpl. destruct (0 <? sc x y)%Z eqn:Hlt; [| reflexivity].
  simpl. simpl in IH. rewrite IH.
  destruct (same x) eqn:Hx; [| reflexivity].
  destruct (same y) eqn:Hy; [| reflexivity].
  rewrite (Hsame x y Hx Hy) in Hlt. discriminate.
Qed.

Lemma sort_stable (same : A -> bool) l :
  (forall a b, same a = true -> same b = true -> sc a b = 0%Z) ->
  List.filter same (srt l) = List.filter same l.
Proof.
  intros Hsame. induction l as [| x l IH]; [reflexivity |].
  simpl. rewrite (insert_filter same x (srt l) Hsame). simpl.
  rewrite IH. reflexivity.
Qed.

Lemma sort_of_ordered l : ord l -> srt l = l.
Proof.
  induction l as [| x l IH]; [reflexivity |].
  intros [Hx Hl]. simpl. rewrite (IH Hl).
  destruct l as [| y l]; [reflexivity |].
  simpl. destruct (Z.ltb_spec 0 (sc x y)); [lia | reflexivity].
Qed.

Hypothesis antisym : JsArray.sign_antisymmetric comparefn.

Lemma insert_ordered x l : ord l -> ord (ins x l).
Proof.
  induction l as [| y l IH]; intros Hl.
  - simpl. auto.
  - simpl. destruct (Z.ltb_spec 0 (sc x y)) as [Hlt | Hge].
    + destruct Hl as [Hy Hl]. specialize (IH Hl).
      split; [| exact IH].
      destruct l as [| z l]; simpl.
      * apply antisym, Hlt.
      * destruct (0 <? sc x z)%Z; [exact Hy | apply antisym, Hlt].
    + split; [lia | exact Hl].
Qed.

Lemma sort_ordered l : ord (srt l).
Proof.
  induction l as [| x l IH]; simpl; [exact I | apply insert_ordered, IH].
Qed.

End SortFacts.

(** ** Every sort that ECMAScript allows *)

Section EngineFacts.
Context {A : Type}.
Variable comparefn : A -> A -> option Z.

Abbreviation cf := (JsArray.SortCompare comparefn).

Lemma consistent_on_incl (l l' : list A) :
  (forall x, In x l' -> In x l) ->
  JsArray.consistent_on comparefn l -> JsArray.consistent_on comparefn l'.
Proof.
  intros Hincl (H1 & H2 & H3 & H4 & H5 & H6).
  refine (conj _ (conj _ (conj _ (conj _ (conj _ _))))).
  - intros a b Ha Hb. apply H1; auto.
  - intros a Ha. apply H2; auto.
  - intros a b Ha Hb. apply H3; auto.
  - intros a b c Ha Hb Hc. apply (H4 a b c); auto.
  - intros a b c Ha Hb Hc. apply (H5 a b c); auto.
  - intros a b c Ha Hb Hc. apply (H6 a b c); auto.
Qed.

Lemma consistent_on_perm (l l' : list A) :
  Permutation l l' ->
  JsArray.consistent_on comparefn l -> JsArray.consistent_on comparefn l'.
Proof.
  intros Hp. apply consistent_on_incl.
  intros x Hx. apply (Permutation_in _ (Permutation_sym Hp)), Hx.
Qed.

Section OnAList.
Variable l : list A.
Hypothesis Hc : JsArray.consistent_on comparefn l.

Lemma cf_refl a : In a l -> cf a a = 0%Z.
Proof. apply Hc. Qed.

Lemma cf_lt_gt a b : In a l -> In b l -> (cf a b < 0)%Z -> (cf b a > 0)%Z.
Proof.
  destruct Hc as (_ & H2 & H3 & _ & H5 & _). intros Ha Hb Hlt.
  destruct (Z.lt_trichotomy (cf b a) 0) as [Hba | [Hba | Hba]]; [| | lia].
  - pose proof (H5 a b a Ha Hb Ha Hlt Hba). pose proof (H2 a Ha). lia.
  - pose proof (H3 b a Hb Ha Hba). lia.
Qed.

Lemma cf_gt_lt a b : In a l -> In b l -> (cf a b > 0)%Z -> (cf b a < 0)%Z.
Proof.
  destruct Hc as (_ & H2 & H3 & _ & _ & H6). intros Ha Hb Hgt.
  destruct (Z.lt_trichotomy (cf b a) 0) as [Hba | [Hba | Hba]]; [exact Hba | |].
  - pose proof (H3 b a Hb Ha Hba). lia.
  - pose proof (H6 a b a Ha Hb Ha Hgt ltac:(lia)). pose proof (H2 a Ha). lia.
Qed.

Lemma cf_lt_eq a b c :
  In a l -> In b l -> In c l -> (cf a b < 0)%Z -> cf b c = 0%Z -> (cf a c < 0)%Z.
Proof.
  intros Ha Hb Hc' Hab Hbc. pose proof Hc as (_ & _ & H3 & H4 & _ & H6).
  destruct (Z.lt_trichotomy (cf a c) 0) as [Hac | [Hac | Hac]]; [exact Hac | |].
  - pose proof (H3 a c Ha Hc' Hac) as Hca.
    pose proof (H4 b c a Hb Hc' Ha Hbc Hca) as Hba.
    pose proof (H3 b a Hb Ha Hba). lia.
  - pose proof (cf_lt_gt a b Ha Hb Hab) as Hba.
    pose proof (H6 b a c Hb Ha Hc' Hba ltac:(lia)). lia.
Qed.

Lemma cf_not_lt a b c :
  In a l -> In b l -> In c l ->
  ~ (cf c b < 0)%Z -> (cf a b <= 0)%Z -> ~ (cf c a < 0)%Z.
Proof.
  intros Ha Hb Hc' Hcb Hab Hca. pose proof Hc as (_ & _ & _ & _ & H5 & _).
  destruct (Z.lt_trichotomy (cf a b) 0) as [Hlt | [Heq | Hgt]]; [| | lia].
  - apply Hcb, (H5 c a b Hc' Ha Hb Hca Hlt).
  - apply Hcb, (cf_lt_eq c a b Hc' Ha Hb Hca Heq).
Qed.

Lemma cf_equal_to x a b :
  In x l -> In a l -> In b l ->
  JsArray.equal_to comparefn x a = true -> JsArray.equal_to comparefn x b = true ->
  cf a b = 0%Z.
Proof.
  unfold JsArray.equal_to. intros Hx Ha Hb Hxa Hxb.
  apply Z.eqb_eq in Hxa, Hxb. destruct Hc as (_ & _ & H3 & H4 & _).
  apply (H4 a x b Ha Hx Hb); [apply (H3 x a Hx Ha Hxa) | exact Hxb].
Qed.
End OnAList.

Lemma insert_in_sort_order x l :
  JsArray.consistent_on comparefn (x :: l) ->
  JsArray.in_sort_order comparefn l ->
  JsArray.in_sort_order comparefn (JsArray.insert comparefn x l).
Proof.
  induction l as [| y l IH]; intros Hc Ho.
  - split; [intros y [] | exact I].
  - cbn [JsArray.insert]. destruct (Z.ltb_spec 0 (cf x y)) as [Hgt | Hle].
    + destruct Ho as [Hmin Ho]. split.
      * intros z Hz. apply (Permutation_in _ (insert_perm comparefn x l)) in Hz.
        destruct Hz as [<- | Hz]; [lia | apply Hmin, Hz].
      * apply IH; [| exact Ho].
        apply (consistent_on_incl (x :: y :: l)); [| exact Hc].
        intros a [<- | Ha]; [left; reflexivity | right; right; exact Ha].
    + split; [| exact Ho].
      intros z [<- | Hz].
      * intros Hlt.
        pose proof (cf_lt_gt _ Hc y x ltac:(right; left; reflexivity)
                      ltac:(left; reflexivity) Hlt). lia.
      * destruct Ho as [Hmin _].
        apply (cf_not_lt _ Hc x y z); [left; reflexivity | right; left; reflexivity
                                       | right; right; exact Hz | apply Hmin, Hz | exact Hle].
Qed.

Lemma insert_filter_on (same : A -> bool) x l :
  (forall a b, In a (x :: l) -> In b (x :: l) ->
               same a = true -> same b = true -> cf a b = 0%Z) ->
  List.filter same (JsArray.insert comparefn x l) = List.filter same (x :: l).
Proof.
  induction l as [| y l IH]; intros Hsame; [reflexivity |].
  cbn [JsArray.insert]. destruct (0 <? cf x y)%Z eqn:Hlt; [| reflexivity].
  cbn [List.filter]. rewrite IH.
  - cbn [List.filter]. destruct (same x) eqn:Hx; [| reflexivity].
    destruct (same y) eqn:Hy; [| reflexivity].
    rewrite (Hsame x y ltac:(left; reflexivity) ltac:(right; left; reflexivity) Hx Hy) in Hlt.
    discriminate.
  - intros a b Ha Hb. apply Hsame.
    + destruct Ha as [<- | Ha]; [left; reflexivity | right; right; exact Ha].
    + destruct Hb as [<- | Hb]; [left; reflexivity | right; right; exact Hb].
Qed.

Lemma sort_stable_on (same : A -> bool) l :
  (forall a b, In a l -> In b l -> same a = true -> same b = true -> cf a b = 0%Z) ->
  List.filter same (JsArray.sort comparefn l) = List.filter same l.
Proof.
  induction l as [| x l IH]; intros Hsame; [reflexivity |].
  cbn [JsArray.sort]. rewrite insert_filter_on.
  - cbn [List.filter]. rewrite IH; [reflexivity |].
    intros a b Ha Hb. apply Hsame; right; assumption.
  - assert (Hin : forall a, In a (x :: JsArray.sort comparefn l) -> In a (x :: l)).
    { intros a [<- | Ha]; [left; reflexivity |].
      right. apply (Permutation_in _ (sort_perm comparefn l)), Ha. }
    intros a b Ha Hb. apply Hsame; apply Hin; assumption.
Qed.

(** The insertion sort is a sort as ECMAScript asks. *)
Lemma sort_as_asked l :
  JsArray.consistent_on comparefn l ->
  Permutation (JsArray.sort comparefn l) l /\
  JsArray.in_sort_order comparefn (JsArray.sort comparefn l) /\
  JsArray.stable comparefn l (JsArray.sort comparefn l).
Proof.
  intros Hc. refine (conj (sort_perm comparefn l) (conj _ _)).
  - induction l as [| x l IH]; [exact I |].
    cbn [JsArray.sort]. apply insert_in_sort_order.
    + apply (consistent_on_perm (x :: l)); [| exact Hc].
      apply perm_skip, Permutation_sym, sort_perm.
    + apply IH. apply (consistent_on_incl (x :: l)); [| exact Hc].
      intros a Ha. right. exact Ha.
  - intros x Hx. apply sort_stable_on.
    intros a b Ha Hb. apply (cf_equal_to l Hc x a b Hx Ha Hb).
Qed.

(** On a consistent comparator the result is fixed: two arrays in sort
    order with the same elements, whose equal elements stand in the same
    order, are the same array. *)
Lemma sort_order_unique (r1 r2 : list A) :
  JsArray.consistent_on comparefn r1 ->
  Permutation r1 r2 ->
  JsArray.in_sort_order comparefn r1 ->
  JsArray.in_sort_order comparefn r2 ->
  (forall x, In x r1 ->
     List.filter (JsArray.equal_to comparefn x) r1
     = List.filter (JsArray.equal_to comparefn x) r2) ->
  r1 = r2.
Proof.
  revert r2. induction r1 as [| h1 t1 IH]; intros r2 Hc Hp Ho1 Ho2 Hst.
  - apply Permutation_nil in Hp. symmetry. exact Hp.
  - destruct r2 as [| h2 t2].
    { apply Permutation_sym, Permutation_nil in Hp. discriminate. }
    assert (Hh2 : In h2 (h1 :: t1)).
    { apply (Permutation_in _ (Permutation_sym Hp)). left. reflexivity. }
    assert (Hh1 : In h1 (h2 :: t2)).
    { apply (Permutation_in _ Hp). left. reflexivity. }
    destruct Ho1 as [Hmin1 Ho1]. destruct Ho2 as [Hmin2 Ho2].
    assert (Hrefl : cf h1 h1 = 0%Z) by (apply (cf_refl _ Hc); left; reflexivity).
    assert (Heq : cf h1 h2 = 0%Z).
    { assert (N1 : ~ (cf h2 h1 < 0)%Z).
      { destruct Hh2 as [<- | Hin]; [lia | apply Hmin1, Hin]. }
      assert (N2 : ~ (cf h1 h2 < 0)%Z).
      { destruct Hh1 as [<- | Hin]; [lia | apply Hmin2, Hin]. }
      destruct (Z.lt_trichotomy (cf h1 h2) 0) as [Hlt | [Hz | Hgt]]; [lia | exact Hz |].
      pose proof (cf_gt_lt _ Hc h1 h2 ltac:(left; reflexivity) Hh2 ltac:(lia)). lia. }
    pose proof (Hst h1 ltac:(left; reflexivity)) as Hf.
    assert (E1 : JsArray.equal_to comparefn h1 h1 = true)
      by (unfold JsArray.equal_to; rewrite Hrefl; reflexivity).
    assert (E2 : JsArray.equal_to comparefn h1 h2 = true)
      by (unfold JsArray.equal_to; rewrite Heq; reflexivity).
    cbn [List.filter] in Hf. rewrite E1, E2 in Hf.
    injection Hf as Hhead Htail. subst h2. f_equal.
    apply IH.
    + apply (consistent_on_incl (h1 :: t1)); [| exact Hc]. intros a Ha. right. exact Ha.
    + apply (Permutation_cons_inv Hp).
    + exact Ho1.
    + exact Ho2.
    + intros x Hx. pose proof (Hst x ltac:(right; exact Hx)) as Hfx.
      cbn [List.filter] in Hfx.
      destruct (JsArray.equal_to comparefn x h1); [injection Hfx; auto | exact Hfx].
Qed.

(** Whatever engine sorts, on a consistent comparator it returns what the
    insertion sort returns, and sorting its result again changes
    nothing. *)
Lemma every_engine_agrees
    (engine_sort : (A -> A -> option Z) -> list A -> list A) (l : list A) :
  JsArray.conforms engine_sort ->
  JsArray.consistent_on comparefn l ->
  engine_sort comparefn l = JsArray.sort comparefn l /\
  engine_sort comparefn (engine_sort comparefn l) = engine_sort comparefn l /\
  Permutation (engine_sort comparefn l) l /\
  JsArray.in_sort_order comparefn (engine_sort comparefn l) /\
  JsArray.stable comparefn l (engine_sort comparefn l).
Proof.
  intros Hengine Hc.
  destruct (Hengine comparefn l Hc) as (Hp & Ho & Hst).
  destruct (sort_as_asked l Hc) as (Hp' & Ho' & Hst').
  set (r := engine_sort comparefn l) in *.
  assert (Hcr : JsArray.consistent_on comparefn r).
  { apply (consistent_on_perm l); [apply Permutation_sym, Hp | exact Hc]. }
  refine (conj _ (conj _ (conj Hp (conj Ho Hst)))).
  - apply sort_order_unique; [exact Hcr | | exact Ho | exact Ho' |].
    + etransitivity; [exact Hp | apply Permutation_sym, Hp'].
    + intros x Hx. apply (Permutation_in _ Hp) in Hx.
      rewrite (Hst x Hx), (Hst' x Hx). reflexivity.
  - destruct (Hengine comparefn r Hcr) as (Hp2 & Ho2 & Hst2).
    apply sort_order_unique; [| exact Hp2 | exact Ho2 | exact Ho |].
    + apply (consistent_on_perm r); [apply Permutation_sym, Hp2 | exact Hcr].
    + intros x Hx. apply (Permutation_in _ Hp2) in Hx. apply (Hst2 x Hx).
Qed.
End EngineFacts.

(** ** The comparators of the pages are consistent *)

Section ConsistentComparators.
Context {A B : Type}.

Lemma consistent_pullback (cmp : B -> B -> option Z) (f : A -> B) (l : list A) :
  JsArray.consistent_on cmp (map f l) ->
  JsArray.consistent_on (fun a b => cmp (f a) (f b)) l.
Proof.
  intros (H1 & H2 & H3 & H4 & H5 & H6).
  assert (Hin : forall a, In a l -> In (f a) (map f l)) by (intros a; apply in_map).
  refine (conj _ (conj _ (conj _ (conj _ (conj _ _))))).
  - intros a b Ha Hb. apply H1; auto.
  - intros a Ha. apply (H2 (f a)); auto.
  - intros a b Ha Hb. apply (H3 (f a) (f b)); auto.
  - intros a b c Ha Hb Hc. apply (H4 (f a) (f b) (f c)); auto.
  - intros a b c Ha Hb Hc. apply (H5 (f a) (f b) (f c)); auto.
  - intros a b c Ha Hb Hc. apply (H6 (f a) (f b) (f c)); auto.
Qed.

Lemma consistent_flip (cmp : A -> A -> option Z) (l : list A) :
  JsArray.consistent_on cmp l -> JsArray.consistent_on (fun a b => cmp b a) l.
Proof.
  intros (H1 & H2 & H3 & H4 & H5 & H6).
  refine (conj _ (conj _ (conj _ (conj _ (conj _ _))))).
  - intros a b Ha Hb. apply H1; auto.
  - intros a Ha. apply (H2 a); auto.
  - intros a b Ha Hb. apply (H3 b a); auto.
  - intros a b c Ha Hb Hc Hab Hbc. apply (H4 c b a); auto.
  - intros a b c Ha Hb Hc Hab Hbc. apply (H5 c b a); auto.
  - intros a b c Ha Hb Hc Hab Hbc. apply (H6 c b a); auto.
Qed.

Lemma consistent_difference (key : A -> option Z) (l : list A) :
  (forall a, In a l -> key a <> None) ->
  JsArray.consistent_on (fun a b => ContentList.sub (key a) (key b)) l.
Proof.
  intros Hkey.
  assert (Hsc : forall a b, In a l -> In b l ->
            exists x y, key a = Some x /\ key b = Some y /\
                        JsArray.SortCompare (fun a b => ContentList.sub (key a) (key b)) a b
                        = (x - y)%Z).
  { intros a b Ha Hb. unfold JsArray.SortCompare, ContentList.sub.
    pose proof (Hkey a Ha). pose proof (Hkey b Hb).
    destruct (key a) as [x |], (key b) as [y |]; try congruence.
    exists x, y. auto. }
  refine (conj _ (conj _ (conj _ (conj _ (conj _ _))))).
  - intros a b Ha Hb. unfold ContentList.sub.
    pose proof (Hkey a Ha). pose proof (Hkey b Hb).
    destruct (key a), (key b); congruence.
  - intros a Ha. destruct (Hsc a a Ha Ha) as (x & y & Hx & Hy & ->).
    rewrite Hx in Hy. injection Hy as ->. lia.
  - intros a b Ha Hb.
    destruct (Hsc a b Ha Hb) as (x & y & Hx & Hy & ->).
    destruct (Hsc b a Hb Ha) as (y' & x' & Hy' & Hx' & ->).
    rewrite Hx in Hx'. rewrite Hy in Hy'. injection Hx' as <-. injection Hy' as <-. lia.
  - intros a b c Ha Hb Hc.
    destruct (Hsc a b Ha Hb) as (x & y & Hx & Hy & ->).
    destruct (Hsc b c Hb Hc) as (y' & z & Hy' & Hz & ->).
    destruct (Hsc a c Ha Hc) as (x' & z' & Hx' & Hz' & ->).
    rewrite Hx in Hx'. rewrite Hy in Hy'. rewrite Hz in Hz'.
    injection Hx' as <-. injection Hy' as <-. injection Hz' as <-. lia.
  - intros a b c Ha Hb Hc.
    destruct (Hsc a b Ha Hb) as (x & y & Hx & Hy & ->).
    destruct (Hsc b c Hb Hc) as (y' & z & Hy' & Hz & ->).
    destruct (Hsc a c Ha Hc) as (x' & z' & Hx' & Hz' & ->).
    rewrite Hx in Hx'. rewrite Hy in Hy'. rewrite Hz in Hz'.
    injection Hx' as <-. injection Hy' as <-. injection Hz' as <-. lia.
  - intros a b c Ha Hb Hc.
    destruct (Hsc a b Ha Hb) as (x & y & Hx & Hy & ->).
    destruct (Hsc b c Hb Hc) as (y' & z & Hy' & Hz & ->).
    destruct (Hsc a c Ha Hc) as (x' & z' & Hx' & Hz' & ->).
    rewrite Hx in Hx'. rewrite Hy in Hy'. rewrite Hz in Hz'.
    injection Hx' as <-. injection Hy' as <-. injection Hz' as <-. lia.
Qed.
End ConsistentComparators.

Lemma views_or_0_is_a_number (p : ContentItem) : ContentList.views_or_0 p <> None.
Proof. unfold ContentList.views_or_0. destruct (views p); discriminate. Qed.

Lemma compare_posts_consistent pf sortOrder posts :
  JsArray.consistent (ContentList.lc pf) ->
  ContentList.dates_are_valid pf sortOrder posts ->
  JsArray.consistent_on (ContentList.compare_posts pf sortOrder) posts.
Proof.
  intros Hlc Hdates. destruct sortOrder; cbn [ContentList.dates_are_valid] in Hdates.
  - apply (consistent_flip (fun a b => ContentList.sub (ContentList.post_time pf a)
                                                        (ContentList.post_time pf b))).
    apply consistent_difference, Hdates.
  - apply (consistent_difference (ContentList.post_time pf)), Hdates.
  - apply (consistent_pullback (ContentList.lc pf) (ContentList.post_title pf)), Hlc.
  - apply (consistent_flip (fun a b => ContentList.lc pf (ContentList.post_title pf a)
                                                         (ContentList.post_title pf b))).
    apply (consistent_pullback (ContentList.lc pf) (ContentList.post_title pf)), Hlc.
  - apply (consistent_flip (fun a b => ContentList.sub (ContentList.views_or_0 a)
                                                        (ContentList.views_or_0 b))).
    apply consistent_difference. intros a _. apply views_or_0_is_a_number.
  - apply (consistent_difference ContentList.views_or_0).
    intros a _. apply views_or_0_is_a_number.
Qed.

Lemma compare_items_consistent pf sortKey items :
  JsArray.consistent (ContentList.lc pf) ->
  ContentList.item_dates_are_valid pf sortKey items ->
  JsArray.consistent_on (ContentList.compare_items pf sortKey) items.
Proof.
  intros Hlc Hdates. destruct sortKey; cbn [ContentList.item_dates_are_valid] in Hdates.
  - apply (consistent_flip (fun a b => ContentList.sub (ContentList.item_time pf a)
                                                        (ContentList.item_time pf b))).
    apply consistent_difference, Hdates.
  - apply (consistent_difference (ContentList.item_time pf)), Hdates.
  - apply (consistent_pullback (ContentList.lc pf) (ContentList.item_title pf)), Hlc.
  - apply (consistent_flip (fun a b => ContentList.lc pf (ContentList.item_title pf a)
                                                         (ContentList.item_title pf b))).
    apply (consistent_pullback (ContentList.lc pf) (ContentList.item_title pf)), Hlc.
  - apply (consistent_pullback (ContentList.lc pf) (ContentList.item_category pf)), Hlc.
  - apply (consistent_flip (fun a b => ContentList.lc pf (ContentList.item_category pf a)
                                                         (ContentList.item_category pf b))).
    apply (consistent_pullback (ContentList.lc pf) (ContentList.item_category pf)), Hlc.
  - apply (consistent_flip (fun a b => ContentList.sub (ContentList.views_or_0 a)
                                                        (ContentList.views_or_0 b))).
    apply consistent_difference. intros a _. apply views_or_0_is_a_number.
  - apply (consistent_difference ContentList.views_or_0).
    intros a _. apply views_or_0_is_a_number.
Qed.


Lemma ordinal_compare_sign a b :
  (ordinal_compare a b = 0%Z <-> a = b) /\
  ((ordinal_compare a b < 0)%Z <-> OrderedTypeEx.String_as_OT.lt a b) /\
  ((ordinal_compare a b > 0)%Z <-> OrderedTypeEx.String_as_OT.lt b a).
Proof.
  unfold ordinal_compare.
  pose proof (OrderedTypeEx.String_as_OT.cmp_antisym b a) as Hanti.
  unfold OrderedTypeEx.String_as_OT.cmp in Hanti.
  destruct (String.compare a b) eqn:Hab; simpl in Hanti;
    pose proof (OrderedTypeEx.String_as_OT.cmp_eq a b) as Heq;
    pose proof (OrderedTypeEx.String_as_OT.cmp_lt a b) as Hlt;
    pose proof (OrderedTypeEx.String_as_OT.cmp_lt b a) as Hgt;
    unfold OrderedTypeEx.String_as_OT.cmp in Heq, Hlt, Hgt;
    rewrite Hab in Heq, Hlt; rewrite Hanti in Hgt;
    (split; [| split]); split; intros H;
    first [ lia
          | apply Heq; reflexivity
          | apply Hlt; reflexivity
          | apply Hgt; reflexivity
          | apply Heq in H; discriminate H
          | apply Hlt in H; discriminate H
          | apply Hgt in H; discriminate H ].
Qed.

Lemma ordinal_compare_consistent :
  JsArray.consistent (ContentList.lc sample_platform).
Proof.
  intros l.
  assert (Hsc : forall a b,
            JsArray.SortCompare (ContentList.lc sample_platform) a b = ordinal_compare a b)
    by reflexivity.
  refine (conj _ (conj _ (conj _ (conj _ (conj _ _))))).
  - intros a b _ _. discriminate.
  - intros a _. rewrite Hsc. apply ordinal_compare_sign. reflexivity.
  - intros a b _ _. rewrite !Hsc. intros H.
    apply ordinal_compare_sign in H. apply ordinal_compare_sign. congruence.
  - intros a b c _ _ _. rewrite !Hsc. intros H1 H2.
    apply ordinal_compare_sign in H1, H2. apply ordinal_compare_sign. congruence.
  - intros a b c _ _ _. rewrite !Hsc. intros H1 H2.
    apply ordinal_compare_sign in H1, H2. apply ordinal_compare_sign.
    apply (OrderedTypeEx.String_as_OT.lt_trans _ _ _ H1 H2).
  - intros a b c _ _ _. rewrite !Hsc. intros H1 H2.
    apply ordinal_compare_sign in H1, H2. apply ordinal_compare_sign.
    apply (OrderedTypeEx.String_as_OT.lt_trans _ _ _ H2 H1).
Qed.

Lemma sample_dates_are_valid :
  ContentList.dates_are_valid sample_platform ContentList.date_desc sample_posts.
Proof.
  intros p Hp. simpl in Hp.
  repeat (destruct Hp as [<- | Hp]; [discriminate |]). destruct Hp.
Qed.


Example sort_date_desc_of_the_sample :
  map item_id (ContentList.sort_posts sample_platform ContentList.date_desc sample_posts)
  = ["22"; "3"; "1"].
Proof. vm_compute. reflexivity. Qed.

Example sort_views_desc_keeps_ties :
  map item_id (ContentList.sort_posts sample_platform ContentList.views_desc sample_posts)
  = ["3"; "1"; "22"].
Proof. vm_compute. reflexivity. Qed.

Example sort_title_asc :
  map item_id (ContentList.sort_posts sample_platform ContentList.title_asc sample_posts)
  = ["1"; "22"; "3"].
Proof. vm_compute. reflexivity. Qed.

(** ** Pagination *)

Lemma slice_from_start {A : Type} (l : list A) (a b : Z) :
  (0 <= a)%Z -> (0 <= b)%Z ->
  JsArray.slice l a (a + b) = firstn (Z.to_nat b) (skipn (Z.to_nat a) l).
Proof.
  intros Ha Hb. unfold JsArray.slice.
  destruct (Z.ltb_spec a 0); [lia |].
  destruct (Z.ltb_spec (a + b) 0); [lia |].
  destruct (Z_le_gt_dec a (Z.of_nat (length l))) as [Hin | Hout].
  - rewrite (Z.min_l a) by lia.
    destruct (Z_le_gt_dec (a + b) (Z.of_nat (length l))) as [Hfit | Hcut].
    + rewrite Z.min_l by lia. f_equal. lia.
    + rewrite Z.min_r by lia.
      rewrite !take_ge; [reflexivity | |]; rewrite length_drop; lia.
  - rewrite (Z.min_r a) by lia.
    rewrite (drop_ge l (Z.to_nat (Z.of_nat (length l)))) by lia.
    rewrite (drop_ge l (Z.to_nat a)) by lia.
    rewrite !take_nil. reflexivity.
Qed.

Lemma page_is_window {A : Type} (items : list A) (page pageSize : Z) :
  (1 <= page)%Z -> (0 <= pageSize)%Z ->
  ContentList.paginatedPosts items page pageSize
  = firstn (Z.to_nat pageSize) (skipn (Z.to_nat ((page - 1) * pageSize)) items).
Proof.
  intros Hp Hs. unfold ContentList.paginatedPosts.
  apply slice_from_start; nia.
Qed.

Lemma pages_concat {A : Type} (items : list A) (pageSize : Z) (k : nat) :
  (0 <= pageSize)%Z ->
  concat (map (fun i => ContentList.paginatedPosts items (Z.of_nat i) pageSize) (seq 1 k))
  = firstn (k * Z.to_nat pageSize) items.
Proof.
  intros Hs. induction k as [| k IH]; [reflexivity |].
  rewrite seq_S, map_app, concat_app, IH. simpl.
  rewrite app_nil_r, page_is_window by lia.
  replace (Z.to_nat ((Z.of_nat (S k) - 1) * pageSize)) with (k * Z.to_nat pageSize)%nat
    by nia.
  rewrite take_take_drop. f_equal. lia.
Qed.

(** C8. A page is the slice of the list from index [(page-1)*pageSize] to
    [page*pageSize]; for a page size of at least one, page [page >= 1] is
    the window of [pageSize] items that starts at that index, the pages
    1 .. ceil(n/pageSize) concatenated are the whole list, so every item is
    on exactly one page, and every later page is empty. *)
Theorem pagination_partitions {A : Type} (items : list A) :
  (forall page pageSize,
     ContentList.paginatedPosts items page pageSize
     = JsArray.slice items ((page - 1) * pageSize) (page * pageSize)) /\
  (forall pageSize, (1 <= pageSize)%Z ->
     let n := Z.of_nat (length items) in
     let pages := ((n + pageSize - 1) / pageSize)%Z in
     (forall page, (1 <= page)%Z ->
        ContentList.paginatedPosts items page pageSize
        = firstn (Z.to_nat pageSize) (skipn (Z.to_nat ((page - 1) * pageSize)) items)) /\
     concat (map (fun i => ContentList.paginatedPosts items (Z.of_nat i) pageSize)
                 (seq 1 (Z.to_nat pages))) = items /\
     (forall page, (pages < page)%Z ->
        ContentList.paginatedPosts items page pageSize = [])).
Proof.
  split.
  { intros page pageSize. unfold ContentList.paginatedPosts. f_equal. ring. }
  intros pageSize Hs n pages.
  assert (Hcover : (n <= pages * pageSize)%Z).
  { pose proof (Z.mul_succ_div_gt (n + pageSize - 1) pageSize ltac:(lia)) as H.
    fold pages in H. lia. }
  assert (Hpages : (0 <= pages)%Z).
  { subst pages. apply Z.div_pos; lia. }
  split; [| split].
  - intros page Hp. apply page_is_window; lia.
  - rewrite pages_concat by lia. apply take_ge. subst n. nia.
  - intros page Hp. rewrite page_is_window by lia.
    rewrite drop_ge; [apply take_nil |]. subst n. nia.
Qed.

Lemma pagination_partitions_witness :
  concat (map (fun i => ContentList.paginatedPosts sample_posts (Z.of_nat i) 2)
              (seq 1 (Z.to_nat ((Z.of_nat (length sample_posts) + 2 - 1) / 2))))
  = sample_posts.
Proof.
  apply (proj2 (pagination_partitions sample_posts) 2%Z). lia.
Defined.

Example page_two_of_three :
  map item_id (ContentList.paginatedPosts sample_posts 2 2) = ["22"].
Proof. vm_compute. reflexivity. Qed.

Example page_zero_is_empty :
  ContentList.paginatedPosts sample_posts 0 2 = [].
Proof. vm_compute. reflexivity. Qed.

(** ** Deleting a comment *)

Lemma depth_le_max (depth : string -> nat) (p : list Comment) c :
  In c p -> depth (comment_id c) <= App.max_depth depth p.
Proof.
  unfold App.max_depth. induction p as [| c' l IH]; intros Hc; [destruct Hc |].
  simpl. destruct Hc as [-> | Hc]; [lia |]. specialize (IH Hc). lia.
Qed.

Section DeleteComment.
Variable p : list Comment.

Lemma is_child_of_spec x c : App.is_child_of x c = true <-> parentId c = Some x.
Proof.
  unfold App.is_child_of. destruct (parentId c) as [q |].
  - rewrite String.eqb_eq. split; congruence.
  - split; discriminate.
Qed.

Lemma descendant_below c x d :
  In c p -> parentId c = Some x ->
  App.descendant p (comment_id c) d -> App.descendant p x d.
Proof.
  intros Hc Hp Hd. induction Hd as [d Hin Hpar | d' d _ IH Hin Hpar].
  - apply (App.reply_below p x c d); [apply App.reply; assumption | exact Hin | exact Hpar].
  - apply (App.reply_below p x d' d); [exact IH | exact Hin | exact Hpar].
Qed.

Abbreviation step fuel :=
  (fun (acc : option (gset string)) (c : Comment) =>
     match acc with
     | Some td => App.findChildren fuel p (comment_id c) (td ∪ {[comment_id c]})
     | None => None
     end).

Lemma fold_none fuel cs : fold_left (step fuel) cs None = None.
Proof. induction cs as [| c cs IH]; simpl; auto. Qed.

Lemma forEach_spec fuel x :
  (forall y td td', App.findChildren fuel p y td = Some td' -> App.closes p y td td') ->
  forall cs td td',
    (forall c, In c cs -> In c p /\ parentId c = Some x) ->
    fold_left (step fuel) cs (Some td) = Some td' ->
    td ⊆ td' /\
    (forall c, In c cs -> comment_id c ∈ td') /\
    (forall y, y ∈ td' -> y ∉ td ->
       (exists d, App.descendant p x d /\ comment_id d = y) /\
       (forall c, In c p -> parentId c = Some y -> comment_id c ∈ td')).
Proof.
  intros IHfuel. induction cs as [| c cs IH]; intros td td' Hcs Hfold.
  - simpl in Hfold. injection Hfold as <-.
    split; [reflexivity |]. split; [intros c [] |]. intros y Hy Hn. contradiction.
  - simpl in Hfold.
    destruct (App.findChildren fuel p (comment_id c) (td ∪ {[comment_id c]}))
      as [td1 |] eqn:Hrec; [| rewrite fold_none in Hfold; discriminate].
    destruct (IHfuel _ _ _ Hrec) as (Hsub1 & Hkids1 & Hnew1).
    destruct (IH td1 td' (fun c' H => Hcs c' (or_intror H)) Hfold)
      as (Hsub & Hin & Hnew).
    destruct (Hcs c (or_introl eq_refl)) as [Hcp Hcx].
    assert (Hc1 : comment_id c ∈ td1).
    { apply Hsub1, elem_of_union_r, elem_of_singleton. reflexivity. }
    split.
    { intros y Hy. apply Hsub, Hsub1, elem_of_union_l, Hy. }
    split.
    + intros c' [<- | Hc']; [apply Hsub, Hc1 | auto].
    + intros y Hy Hn.
      destruct (decide (y ∈ td1)) as [Hy1 | Hy1]; [| auto].
      destruct (decide (y = comment_id c)) as [-> | Hne].
      * split; [exists c; split; [apply App.reply; assumption | reflexivity] |].
        intros c' Hc' Hp'. apply Hsub, (Hkids1 c' Hc' Hp').
      * assert (Hfresh : y ∉ td ∪ {[comment_id c]}).
        { intros [H | H]%elem_of_union; [contradiction |].
          apply elem_of_singleton in H. contradiction. }
        destruct (Hnew1 y Hy1 Hfresh) as [(d & Hd & Hid) Hkids].
        split; [exists d; split; [eapply descendant_below; eassumption | exact Hid] |].
        intros c' Hc' Hp'. apply Hsub, (Hkids c' Hc' Hp').
Qed.

Lemma findChildren_spec fuel :
  forall x td td', App.findChildren fuel p x td = Some td' -> App.closes p x td td'.
Proof.
  induction fuel as [| fuel IH]; intros x td td' H; [discriminate |].
  simpl in H.
  destruct (forEach_spec fuel x IH (List.filter (App.is_child_of x) p) td td')
    as (Hsub & Hin & Hnew); [| exact H |].
  - intros c Hc. apply filter_In in Hc as [Hc Hch].
    split; [exact Hc | apply is_child_of_spec, Hch].
  - split; [exact Hsub |]. split; [| exact Hnew].
    intros c Hc Hp. apply Hin, filter_In. split; [exact Hc |].
    apply is_child_of_spec, Hp.
Qed.

Variable depth : string -> nat.
Hypothesis acyclic : App.forest depth p.

Lemma findChildren_terminates fuel :
  forall x td, App.max_depth depth p < depth x + fuel -> 1 <= fuel ->
               exists td', App.findChildren fuel p x td = Some td'.
Proof.
  induction fuel as [| fuel IH]; intros x td Hfuel Hpos; [lia |].
  simpl.
  assert (Hcs : forall c, In c (List.filter (App.is_child_of x) p) ->
                          In c p /\ parentId c = Some x).
  { intros c Hc. apply filter_In in Hc as [Hc Hch].
    split; [exact Hc | apply is_child_of_spec, Hch]. }
  revert td. induction (List.filter (App.is_child_of x) p) as [| c cs IHcs]; intros td.
  - simpl. eauto.
  - simpl. destruct (Hcs c (or_introl eq_refl)) as [Hc Hp].
    pose proof (acyclic c x Hc Hp) as Hlt.
    pose proof (depth_le_max depth p c Hc) as Hle.
    destruct (IH (comment_id c) (td ∪ {[comment_id c]})) as [td1 ->]; [lia | lia |].
    apply IHcs. intros c' Hc'. apply Hcs. right. exact Hc'.
Qed.

Lemma delete_comment_updater_spec fuel id :
  App.max_depth depth p < fuel ->
  exists cs,
    App.delete_comment_updater fuel id p = Some cs /\
    (forall c, In c cs <->
               In c p /\ comment_id c <> id /\
               forall d, App.descendant p id d -> comment_id d <> comment_id c).
Proof.
  intros Hfuel. unfold App.delete_comment_updater.
  destruct (findChildren_terminates fuel id {[id]}) as [td Htd]; [lia | lia |].
  rewrite Htd. eexists. split; [reflexivity |].
  destruct (findChildren_spec fuel _ _ _ Htd) as (Hsub & Hkids & Hnew).
  assert (Hother : forall y : string, y <> id -> y ∉ ({[id]} : gset string)).
  { intros y Hy H. apply elem_of_singleton in H. contradiction. }
  assert (Hall : forall d, App.descendant p id d -> comment_id d ∈ td).
  { intros d Hd. induction Hd as [d Hin Hpar | d' d _ IH Hin Hpar].
    - apply (Hkids d Hin Hpar).
    - destruct (decide (comment_id d' = id)) as [Heq | Hne].
      + rewrite Heq in Hpar. apply (Hkids d Hin Hpar).
      + apply (proj2 (Hnew (comment_id d') IH (Hother _ Hne)) d Hin Hpar). }
  intros c. rewrite filter_In, negb_true_iff, bool_decide_eq_false.
  split.
  - intros [Hc Hn]. split; [exact Hc |]. split.
    + intros Heq. apply Hn. rewrite Heq. apply Hsub, elem_of_singleton. reflexivity.
    + intros d Hd Heq. apply Hn. rewrite <- Heq. apply Hall, Hd.
  - intros (Hc & Hid & Hdesc). split; [exact Hc |].
    intros Hin.
    destruct (Hnew (comment_id c) Hin (Hother _ Hid)) as [(d & Hd & Heq) _].
    apply (Hdesc d Hd Heq).
Qed.
End DeleteComment.

(** C10. For comments that form a forest, a delete that the server
    accepts leaves exactly the comments whose id is neither the deleted id
    nor the id of a reply, at any depth, below the deleted comment; so
    every such reply is removed with it, and no remaining comment has a
    parent that was removed. *)
Theorem delete_comment_removes_replies (depth : string -> nat) (fuel : nat) (e : env)
    (id : string) (net : FetchOutcome unit) (st : App.AppState) :
  App.forest depth (App.allComments st) ->
  ApiService.request_fails net = false ->
  App.max_depth depth (App.allComments st) < fuel ->
  exists st',
    App.handleDeleteComment fuel e true id net st = Some st' /\
    (forall c, In c (App.allComments st') <->
               In c (App.allComments st) /\ comment_id c <> id /\
               forall d, App.descendant (App.allComments st) id d ->
                         comment_id d <> comment_id c) /\
    (forall c, App.descendant (App.allComments st) id c ->
               ~ In c (App.allComments st')) /\
    (forall c d, In c (App.allComments st') -> In d (App.allComments st) ->
                 parentId c = Some (comment_id d) -> In d (App.allComments st')).
Proof.
  intros Hforest Hnet Hfuel.
  destruct (delete_comment_updater_spec (App.allComments st) depth Hforest fuel id Hfuel)
    as (cs & Hupd & Hcs).
  assert (Hok : exists w, ApiService.deleteComment e id net (App.browser st) = (w, inr tt)).
  { unfold ApiService.deleteComment, ApiService.request, ApiService.request_settle.
    unfold ApiService.request_fails in Hnet.
    destruct net as [msg | r]; [discriminate |].
    destruct (negb (ApiService.ok (status r))); [discriminate |].
    destruct (okBody r) as [| [] |]; try discriminate; eauto. }
  destruct Hok as [w Hw].
  exists (App.setAllComments cs (App.with_browser w st)).
  unfold App.handleDeleteComment. simpl. rewrite Hw, Hupd.
  split; [reflexivity |]. simpl. split; [exact Hcs |]. split.
  - intros c Hd Hin. apply Hcs in Hin as (_ & _ & Hn). exact (Hn c Hd eq_refl).
  - intros c d Hc Hd Hpar. apply Hcs. split; [exact Hd |].
    apply Hcs in Hc as (Hcin & Hcid & Hcdesc). split.
    + intros Heq. rewrite Heq in Hpar.
      exact (Hcdesc c (App.reply _ _ c Hcin Hpar) eq_refl).
    + intros d' Hd' Heq. rewrite <- Heq in Hpar.
      exact (Hcdesc c (App.reply_below _ _ d' c Hd' Hcin Hpar) eq_refl).
Qed.

Lemma thread_is_forest : App.forest thread_depth thread.
Proof.
  intros c q Hc Hp. simpl in Hc.
  repeat (destruct Hc as [<- | Hc]; [simpl in Hp; try discriminate;
                                     injection Hp as <-; vm_compute; lia |]).
  destruct Hc.
Qed.

Lemma delete_comment_removes_replies_witness :
  exists st',
    App.handleDeleteComment 3 plain_env true "a" (Settled no_content) app_with_thread
    = Some st' /\
    ~ In (comment "c" (Some "b")) (App.allComments st').
Proof.
  destruct (delete_comment_removes_replies thread_depth 3 plain_env "a"
              (Settled no_content) app_with_thread)
    as (st' & Hrun & _ & Hgone & _).
  - exact thread_is_forest.
  - reflexivity.
  - vm_compute. lia.
  - exists st'. split; [exact Hrun |].
    apply Hgone.
    eapply App.reply_below with (c' := comment "b" (Some "a")).
    + apply App.reply; [simpl; auto | reflexivity].
    + simpl; auto.
    + reflexivity.
Defined.

Example delete_a_leaves_d_e :
  option_map (fun st => map comment_id (App.allComments st))
    (App.handleDeleteComment 3 plain_env true "a" (Settled no_content) app_with_thread)
  = Some ["d"; "e"].
Proof. vm_compute. reflexivity. Qed.

(** Without the forest shape the recursion of [findChildren] does not end:
    on a comment that names itself as parent no amount of fuel suffices. *)
Example self_parent_never_finishes fuel :
  App.delete_comment_updater fuel "x" [comment "x" (Some "x")] = None.
Proof.
  unfold App.delete_comment_updater.
  assert (H : forall td, App.findChildren fuel [comment "x" (Some "x")] "x" td = None).
  { induction fuel as [| fuel IH]; intros td; [reflexivity |].
    simpl. apply IH. }
  rewrite H. reflexivity.
Qed.

(* ===================================================================== *)
(** * Further properties of the code                                      *)
(* ===================================================================== *)

(** ** bootstrapFromHash *)

(** X1. A bootstrap that returned true has emptied the fragment: run again
    on the result it changes nothing and returns false. *)
Theorem bootstrap_not_repeated (w : world) :
  snd (AuthService.bootstrapFromHash w) = Some true ->
  AuthService.bootstrapFromHash (fst (AuthService.bootstrapFromHash w))
  = (fst (AuthService.bootstrapFromHash w), Some false).
Proof.
  unfold AuthService.bootstrapFromHash.
  destruct (negb (Js.startsWith (hash (location w)) "#")); [discriminate |].
  destruct (AuthService.truthy_opt
              (URLSearchParams.get "token"
                 (URLSearchParams.create (AuthService.slice1 (hash (location w))))));
    [| destruct (AuthService.truthy_opt _); discriminate].
  destruct (replaceState_path_search _) as [w3 |] eqn:Hreplaced; [| discriminate].
  intros _. cbn [fst].
  destruct (replaceState_spec _ _ Hreplaced) as (_ & _ & _ & _ & Hhash).
  rewrite Hhash. reflexivity.
Qed.

Lemma bootstrap_not_repeated_witness :
  AuthService.bootstrapFromHash (fst (AuthService.bootstrapFromHash oauth_redirect))
  = (fst (AuthService.bootstrapFromHash oauth_redirect), Some false).
Proof.
  apply (bootstrap_not_repeated oauth_redirect). reflexivity.
Defined.

Lemma bootstrap_sends_nothing (w : world) :
  fetched (fst (AuthService.bootstrapFromHash w)) = fetched w.
Proof.
  unfold AuthService.bootstrapFromHash.
  destruct (negb (Js.startsWith (hash (location w)) "#")); [reflexivity |].
  destruct (AuthService.truthy_opt (URLSearchParams.get "token" _)).
  - destruct (replaceState_path_search _) as [w3 |] eqn:Hreplaced; cbn [fst].
    + destruct (replaceState_spec _ _ Hreplaced) as (_ & Hfetched & _). rewrite Hfetched.
      destruct (AuthService.truthy_opt (URLSearchParams.get "refreshToken" _)); reflexivity.
    + destruct (AuthService.truthy_opt (URLSearchParams.get "refreshToken" _)); reflexivity.
  - cbn [fst].
    destruct (AuthService.truthy_opt (URLSearchParams.get "refreshToken" _)); reflexivity.
Qed.



(** ** Login through the provider *)

(** X3. [login] of the provider returns true exactly when the request does
    not fail.  A failed login keeps the session's user and flag and writes
    nothing to storage (a 401 removes the access token).  An accepted login
    whose response carries a token stores it, caches the user and leaves
    the session authenticated with that user. *)
Theorem provider_login_outcome (e : env) (credentials : AuthContext.LoginRequest)
    (net : FetchOutcome AuthResponse) (st : AuthContext.AuthState) (w : world) :
  let out := AuthContext.login e credentials net st w in
  snd out = negb (ApiService.request_fails net) /\
  (ApiService.request_fails net = true ->
   AuthContext.state_user (fst (fst out)) = AuthContext.state_user st /\
   AuthContext.state_isAuthenticated (fst (fst out)) = AuthContext.state_isAuthenticated st /\
   forall k, k <> "authToken" -> getItem k (snd (fst out)) = getItem k w) /\
  (forall r response t,
      net = Settled r -> ApiService.ok (status r) = true ->
      okBody r = Json response -> token response = Some t -> Js.truthy t = true ->
      AuthContext.state_isAuthenticated (fst (fst out)) = true /\
      AuthContext.state_user (fst (fst out)) = user response /\
      AuthContext.state_error (fst (fst out)) = None /\
      AuthService.isAuthenticated (snd (fst out)) = true /\
      getItem "authToken" (snd (fst out)) = Some t /\
      getItem "userProfile" (snd (fst out))
      = Some (AuthService.to_stored (option_map (JSON_stringify e) (user response)))).
Proof.
  intros out. subst out.
  unfold AuthContext.login, AuthService.login, ApiService.request.
  set (w0 := ApiService.request_send e "/auth/login" _ w).
  assert (Hw0 : forall k, getItem k w0 = getItem k w) by reflexivity.
  split; [| split].
  - unfold ApiService.request_settle, ApiService.request_fails.
    destruct net as [msg | r]; [reflexivity |].
    destruct (negb (ApiService.ok (status r))); [reflexivity |].
    destruct (okBody r); reflexivity.
  - intros Hf.
    pose proof (request_settle_other_keys e empty_response net w0) as Hkeys.
    destruct (request_fails_spec e empty_response net w0 Hf) as [err Herr].
    destruct (ApiService.request_settle e empty_response net w0) as [w1 res].
    simpl in Herr. subst res. simpl. repeat split.
    intros k Hk. rewrite <- Hw0. apply (Hkeys k Hk).
  - intros r response t -> Hok Hbody Htok Ht.
    unfold ApiService.request_settle. rewrite Hok, Hbody. simpl.
    unfold AuthService.save_tokens, AuthService.setCurrentUser,
      AuthService.isAuthenticated.
    rewrite Htok. simpl. rewrite Ht.
    repeat split;
      rewrite ?getItem_setItem; repeat (case_decide; try congruence); simpl; auto.
Qed.

Lemma provider_login_outcome_witness :
  AuthService.isAuthenticated
    (snd (fst (AuthContext.login plain_env some_credentials (Settled login_accepted)
                 anonymous fresh_session))) = true.
Proof.
  apply (provider_login_outcome plain_env some_credentials (Settled login_accepted)
           anonymous fresh_session) with (r := login_accepted) (t := "t1") (response :=
           {| token := Some "t1"; refreshToken := Some "r2"; user := Some alice |});
    reflexivity.
Defined.

(** ** uploadFile *)

(** X4. Whatever body comes with a response that is not ok, [uploadFile]
    throws the error "Upload Error: <status>": the server's message never
    leaves the function.  And no outcome of an upload, a 401 included,
    changes the storage. *)
Theorem uploadFile_error_is_generic {T : Type} (e : env) (empty : T)
    (endpoint : string) (w : world) :
  (forall r, ApiService.ok (status r) = false ->
     snd (ApiService.uploadFile e empty endpoint (Settled r) w)
     = inl (JsError ("Upload Error: " +:+ Js.string_of_N (status r)))) /\
  (forall net, localStorage (fst (ApiService.uploadFile e empty endpoint net w))
               = localStorage w).
Proof.
  split.
  - intros r Hok. unfold ApiService.uploadFile, ApiService.uploadFile_settle.
    rewrite Hok. reflexivity.
  - intros net. unfold ApiService.uploadFile, ApiService.uploadFile_settle.
    destruct net as [msg | r]; [reflexivity |].
    destruct (negb (ApiService.ok (status r))); [reflexivity |].
    destruct (okBody r); reflexivity.
Qed.

Lemma uploadFile_error_is_generic_witness :
  snd (ApiService.uploadFile plain_env tt "/upload" (Settled upload_refused) stale_session)
  = inl (JsError "Upload Error: 413").
Proof.
  apply (proj1 (uploadFile_error_is_generic plain_env tt "/upload" stale_session)
           upload_refused).
  reflexivity.
Defined.

(** ** translateServerMessage *)

Lemma translate_as_spec e message :
  ApiService.translateServerMessage e message
  = ApiService.translate_as (Js.startsWith (Js.or_else (language e) "en") "zh") message.
Proof. reflexivity. Qed.

Lemma translate_as_idempotent isZh m :
  ApiService.translate_as isZh (ApiService.translate_as isZh m)
  = ApiService.translate_as isZh m.
Proof.
  remember (ApiService.translate_as isZh m) as out eqn:Hout.
  unfold ApiService.translate_as in Hout.
  cbn [ApiService.maps ApiService.translate_loop ApiService.zh ApiService.en
       ApiService.zhOut] in Hout.
  destruct (Js.test ApiService.re_wrong_password m) eqn:E1;
    [subst out; destruct isZh; vm_compute; reflexivity |].
  destruct (Js.test ApiService.re_bad_credential m) eqn:E2;
    [subst out; destruct isZh; vm_compute; reflexivity |].
  destruct (Js.test ApiService.re_unknown_user m) eqn:E3;
    [subst out; destruct isZh; vm_compute; reflexivity |].
  destruct (Js.test (Js.Lit "用戶名長度必須在3-50個字符之間") m) eqn:E4;
    [subst out; destruct isZh; vm_compute; reflexivity |].
  destruct (Js.test (Js.Lit "密碼長度至少6個字符") m) eqn:E5;
    [subst out; destruct isZh; vm_compute; reflexivity |].
  destruct (Js.test (Js.Alt (Js.Lit "郵箱格式不正確") (Js.Lit "郵箱格式不正确")) m) eqn:E6;
    [subst out; destruct isZh; vm_compute; reflexivity |].
  destruct (Js.test (Js.Alt _ (Js.Alt _ (Js.Seq (Js.Lit "帳號") _))) m) eqn:E7;
    [subst out; destruct isZh; vm_compute; reflexivity |].
  destruct (Js.test (Js.Alt _ (Js.Alt (Js.Lit "郵箱已存在") _)) m) eqn:E8;
    [subst out; destruct isZh; vm_compute; reflexivity |].
  destruct (Js.test (Js.Lit "密碼確認不匹配") m) eqn:E9;
    [subst out; destruct isZh; vm_compute; reflexivity |].
  unfold ApiService.translate_as.
  cbn [ApiService.maps ApiService.translate_loop ApiService.zh ApiService.en
       ApiService.zhOut].
  destruct isZh.
  - subst out. rewrite E1, E2, E3, E4, E5, E6, E7, E8, E9. reflexivity.
  - destruct (Js.test (Js.Alt (Js.Lit "錯誤") (Js.Lit "失敗")) m) eqn:E10.
    + subst out. vm_compute. reflexivity.
    + subst out. rewrite E1, E2, E3, E4, E5, E6, E7, E8, E9, E10. reflexivity.
Qed.

(** X5. Translating a translated message changes nothing: what
    [translateServerMessage] returns passes through it unchanged, in every
    language. *)
Theorem translate_twice_same (e : env) (message : string) :
  ApiService.translateServerMessage e (ApiService.translateServerMessage e message)
  = ApiService.translateServerMessage e message.
Proof. rewrite !translate_as_spec. apply translate_as_idempotent. Qed.

(** X6. Outside the Chinese locales the translated message never contains
    錯誤 or 失敗: such a message is replaced by an English one. *)
Theorem translated_has_no_chinese_failure_word (e : env) (message : string) :
  Js.startsWith (Js.or_else (language e) "en") "zh" = false ->
  Js.test (Js.Alt (Js.Lit "錯誤") (Js.Lit "失敗"))
    (ApiService.translateServerMessage e message) = false.
Proof.
  intros Hzh. rewrite translate_as_spec, Hzh.
  unfold ApiService.translate_as.
  cbn [ApiService.maps ApiService.translate_loop ApiService.zh ApiService.en
       ApiService.zhOut].
  repeat (match goal with
          | |- context [if Js.test ?r message then _ else _] =>
            destruct (Js.test r message) eqn:?; [try (vm_compute; reflexivity) |]
          end).
  assumption.
Qed.

Lemma translated_has_no_chinese_failure_word_witness :
  Js.test (Js.Alt (Js.Lit "錯誤") (Js.Lit "失敗"))
    (ApiService.translateServerMessage plain_env "資料庫連線失敗") = false.
Proof.
  apply (translated_has_no_chinese_failure_word plain_env "資料庫連線失敗").
  reflexivity.
Defined.

(** ** What a request does to the world *)

(** X7. A request sends exactly one [fetch], to the endpoint itself when it
    starts with "http" and below the base URL otherwise, and leaves the
    storage as it was unless the response has status 401, in which case
    the access token, and nothing else, is removed. *)
Theorem request_effect {T : Type} (e : env) (empty : T) (endpoint : string)
    (options : RequestInit) (net : FetchOutcome T) (w : world) :
  let out := ApiService.request e empty endpoint options net w in
  (exists call,
      fetched (fst out) = fetched w ++ [call] /\
      call_url call = (if Js.startsWith endpoint "http" then endpoint
                       else baseURL e +:+ endpoint) /\
      call_method call = method options /\
      call_body call = body options) /\
  localStorage (fst out)
  = (if ApiService.answered_401 net then delete "authToken" (localStorage w)
     else localStorage w) /\
  location (fst out) = location w.
Proof.
  intros out. subst out. unfold ApiService.request. split; [| split].
  - rewrite request_settle_fetched. eexists. split; [reflexivity |].
    repeat split.
  - unfold ApiService.request_settle, ApiService.answered_401.
    destruct net as [msg | r]; [reflexivity |].
    destruct (status r =? 401)%N eqn:E.
    + apply N.eqb_eq in E. rewrite E. reflexivity.
    + destruct (negb (ApiService.ok (status r))); [reflexivity |].
      destruct (okBody r); reflexivity.
  - unfold ApiService.request_settle.
    destruct net as [msg | r]; [reflexivity |].
    destruct (negb (ApiService.ok (status r))).
    + destruct (status r =? 401)%N; reflexivity.
    + destruct (okBody r); reflexivity.
Qed.

(** ** Logout through the provider *)

(** X8. After [logout] of the provider, whatever the server answered, the
    session has no user and is not authenticated, the role gate is closed,
    the storage holds no credentials, and [refreshUser] finds nothing to
    restore: it leaves session and world as they are. *)
Theorem provider_logout_ends_session (e : env)
    (JSON_parse : string -> AuthService.ParsedProfile)
    (net net' : FetchOutcome unit) (st : AuthContext.AuthState) (w : world) :
  let out := AuthContext.logout e net st w in
  AuthContext.state_user (fst out) = None /\
  AuthContext.state_isAuthenticated (fst out) = false /\
  AuthContext.state_loading (fst out) = false /\
  App.isSuperUser (AuthContext.state_isAuthenticated (fst out))
                  (AuthContext.state_user (fst out)) = false /\
  AuthService.no_credentials (snd out) /\
  AuthService.isAuthenticated (snd out) = false /\
  AuthContext.refreshUser e JSON_parse net' (fst out) (snd out) = out.
Proof.
  intros out. subst out. unfold AuthContext.logout. cbn [fst snd].
  pose proof (logout_settle_clears e net (AuthService.logout_begin e w)) as Hc.
  fold (AuthService.logout e net w) in Hc.
  destruct Hc as (Ha & Hr & Hp).
  repeat split; try assumption.
  - unfold AuthService.isAuthenticated. rewrite Ha. reflexivity.
  - unfold AuthContext.refreshUser, AuthService.getCurrentUser. rewrite Hp.
    reflexivity.
Qed.

(** ** initializeAuth *)

(** X9. [initializeAuth] always ends with [loading] false.  When no access
    token is stored once the fragment has been looked at, it sends no
    request and leaves user, flag and error of the session as they were; so
    a session that it made authenticated had a token to start from. *)
Theorem initializeAuth_needs_a_token (e : env)
    (JSON_parse : string -> AuthService.ParsedProfile)
    (net_me : FetchOutcome AuthService.MeResponse) (net_logout : FetchOutcome unit)
    (st : AuthContext.AuthState) (w : world) :
  let w1 := fst (AuthService.bootstrapFromHash w) in
  let out := AuthContext.initializeAuth e JSON_parse net_me net_logout st w in
  AuthContext.state_loading (fst out) = false /\
  (AuthService.isAuthenticated w1 = false ->
   out = (AuthContext.setLoading false st, w1) /\ fetched (snd out) = fetched w) /\
  (AuthContext.state_isAuthenticated (fst out) = true ->
   AuthContext.state_isAuthenticated st = true \/ AuthService.isAuthenticated w1 = true).
Proof.
  intros w1 out. subst out. unfold AuthContext.initializeAuth. fold w1.
  destruct (AuthService.isAuthenticated w1) eqn:Htok.
  - split; [| split; [discriminate | auto]].
    destruct (AuthService.getMe e net_me w1) as [w2 [err | me]]; [| reflexivity].
    destruct (AuthService.getCurrentUser JSON_parse w2) as [err' | [u |]];
      reflexivity.
  - split; [reflexivity | split].
    + intros _. split; [reflexivity |]. cbn [snd]. subst w1.
      apply bootstrap_sends_nothing.
    + cbn [fst]. intros H. left. exact H.
Qed.

Lemma initializeAuth_needs_a_token_witness :
  AuthContext.initializeAuth plain_env parse_alice (Settled me_401)
    (Rejected "Failed to fetch") anonymous fresh_session
  = (AuthContext.setLoading false anonymous,
     fst (AuthService.bootstrapFromHash fresh_session)).
Proof.
  apply (initializeAuth_needs_a_token plain_env parse_alice (Settled me_401)
           (Rejected "Failed to fetch") anonymous fresh_session).
  reflexivity.
Defined.

(** X10. With a stored token that the server answers with 401 and a cached
    profile that parses, [initializeAuth] restores the cached user and
    marks the session authenticated although the request layer has removed
    the access token: the provider says authenticated while
    [AuthService.isAuthenticated] says no. *)
Theorem initializeAuth_falls_back_to_cached_profile (e : env)
    (JSON_parse : string -> AuthService.ParsedProfile)
    (r : Response AuthService.MeResponse) (net_logout : FetchOutcome unit)
    (st : AuthContext.AuthState) (w : world) (profile : string) (u : User) :
  Js.startsWith (hash (location w)) "#" = false ->
  AuthService.isAuthenticated w = true ->
  status r = 401%N ->
  getItem "userProfile" w = Some profile -> Js.truthy profile = true ->
  JSON_parse profile = AuthService.ParsedUser u ->
  let out := AuthContext.initializeAuth e JSON_parse (Settled r) net_logout st w in
  AuthContext.state_user (fst out) = Some u /\
  AuthContext.state_isAuthenticated (fst out) = true /\
  AuthService.isAuthenticated (snd out) = false /\
  getItem "userProfile" (snd out) = Some profile.
Proof.
  intros Hhash Htok Hst Hprof Htruthy Hparse out. subst out.
  unfold AuthContext.initializeAuth.
  assert (Hb : fst (AuthService.bootstrapFromHash w) = w).
  { unfold AuthService.bootstrapFromHash. rewrite Hhash. reflexivity. }
  rewrite Hb, Htok.
  unfold AuthService.getMe.
  destruct (request_401_removes_access_token_frame e {| AuthService.me_user := None |}
              "/auth/me" {| method := Some "GET"; headers := None; body := None |}
              r w Hst) as (msg & Hres & Hgone & Hkeep).
  destruct (ApiService.request e _ "/auth/me" _ (Settled r) w) as [w2 res].
  cbn [fst snd] in Hres, Hgone, Hkeep. subst res.
  unfold AuthService.getCurrentUser.
  rewrite (Hkeep "userProfile") by discriminate.
  rewrite Hprof, Htruthy, Hparse. cbn [fst snd].
  repeat split.
  - unfold AuthService.isAuthenticated. rewrite Hgone. reflexivity.
  - rewrite (Hkeep "userProfile") by discriminate. exact Hprof.
Qed.

Lemma initializeAuth_falls_back_to_cached_profile_witness :
  let out := AuthContext.initializeAuth plain_env parse_alice (Settled me_401)
               (Rejected "Failed to fetch") anonymous expired_with_profile in
  AuthContext.state_isAuthenticated (fst out) = true /\
  AuthService.isAuthenticated (snd out) = false.
Proof.
  destruct (initializeAuth_falls_back_to_cached_profile plain_env parse_alice me_401
              (Rejected "Failed to fetch") anonymous expired_with_profile "alice" alice)
    as (_ & H1 & H2 & _); try reflexivity.
  split; assumption.
Defined.

(** ** RegisterPage *)

(** X11. [handleSubmit] validates before it registers: with a user name
    of fewer than three code units, or a confirmation that differs from the
    password, [register] is not called (the state it would act on is
    returned as it was), the form is no longer submitting, shows no
    success and stays on the page; the short name is reported at the user
    name field, the mismatch as the error of the form. *)
Theorem register_form_validates_first {S : Type} (t : string -> string)
    (register : AuthService.RegisterRequest -> S -> S * (exn + bool))
    (authError : option string) (f : RegisterPage.Form) (st : S) :
  (RegisterPage.length16 (RegisterPage.username_field f) < 3)%nat \/
  RegisterPage.password_field f <> RegisterPage.confirmPassword_field f ->
  let out := RegisterPage.handleSubmit t register authError f st in
  snd out = st /\
  RegisterPage.isSubmitting (fst out) = false /\
  RegisterPage.successMessage (fst out) = None /\
  RegisterPage.href (fst out) = RegisterPage.href f /\
  ((RegisterPage.length16 (RegisterPage.username_field f) < 3)%nat ->
   RegisterPage.usernameError (fst out) = Some "使用者名稱至少需要3個字元" /\
   RegisterPage.error (fst out) = None) /\
  ((3 <= RegisterPage.length16 (RegisterPage.username_field f))%nat ->
   RegisterPage.error (fst out) = Some (t "registerPage.passwordsDoNotMatchError") /\
   RegisterPage.usernameError (fst out) = None).
Proof.
  intros H out. subst out. unfold RegisterPage.handleSubmit.
  destruct (Nat.ltb_spec (RegisterPage.length16 (RegisterPage.username_field f)) 3)
    as [Hshort | Hlong].
  - cbn. repeat split; auto; lia.
  - destruct H as [H | H]; [lia |].
    destruct (String.eqb_spec (RegisterPage.password_field f)
                (RegisterPage.confirmPassword_field f)) as [Heq | Hne];
      [contradiction |].
    cbn. repeat split; auto; lia.
Qed.

Lemma register_form_validates_first_witness :
  snd (RegisterPage.handleSubmit (fun k => k)
         (RegisterPage.provider_register plain_env (Settled name_taken))
         None blank_form (anonymous, fresh_session))
  = (anonymous, fresh_session).
Proof.
  apply (register_form_validates_first (fun k => k)
           (RegisterPage.provider_register plain_env (Settled name_taken))
           None blank_form (anonymous, fresh_session)).
  left. vm_compute. lia.
Defined.

Lemma translate_loop_find isZh ms m :
  ApiService.translate_loop isZh ms m
  = option_map (fun entry => if isZh then Js.or_else (ApiService.zhOut entry) m
                             else ApiService.en entry)
               (find (fun entry => Js.test (ApiService.zh entry) m) ms).
Proof.
  induction ms as [| entry ms IH]; [reflexivity |].
  simpl. destruct (Js.test (ApiService.zh entry) m); [reflexivity | exact IH].
Qed.

Lemma entry_of_english_text m entry text :
  ApiService.matching_entry m = Some entry ->
  ApiService.en entry = text ->
  (text = "Username already exists." -> ApiService.zhOut entry = Some "使用者名稱已存在") /\
  (text = "Email already exists." -> ApiService.zhOut entry = Some "電子郵件已被使用").
Proof.
  intros Hfind Hen. unfold ApiService.matching_entry in Hfind.
  apply find_some in Hfind as [Hin _].
  unfold ApiService.maps in Hin. simpl in Hin.
  repeat (destruct Hin as [<- | Hin];
          [simpl in Hen; subst text; split; intros Heq;
           first [discriminate Heq | reflexivity] |]).
  destruct Hin.
Qed.

Lemma register_failure e userData r st w :
  ApiService.ok (status r) = false ->
  exists w',
    AuthContext.register e userData (Settled r) st w
    = (AuthContext.setLoading false
         (AuthContext.setError
            (Some (ApiService.translateServerMessage e (ApiService.rawMessage r)))
            (AuthContext.setError None (AuthContext.setLoading true st))),
       w', false).
Proof.
  intros Hok.
  unfold AuthContext.register, AuthService.register, ApiService.request,
    ApiService.request_settle.
  rewrite Hok. cbn [negb]. eexists. reflexivity.
Qed.

(** X12. When registration is refused with a message that the translation
    table reads as a taken user name (or a taken e-mail address), the page
    shows it at the user name field (the e-mail field) in a language that
    is not Chinese; in a Chinese locale the translated text matches neither
    pattern of the page and becomes the error of the whole form, the field
    errors staying as they were. *)
Theorem taken_name_is_a_field_error_outside_chinese (e : env)
    (userData : AuthService.RegisterRequest) (r : Response AuthResponse)
    (st : AuthContext.AuthState) (w : world) (f : RegisterPage.Form) :
  ApiService.ok (status r) = false ->
  let isZh := Js.startsWith (Js.or_else (language e) "en") "zh" in
  let out := AuthContext.register e userData (Settled r) st w in
  let f' := RegisterPage.onAuthError (AuthContext.state_error (fst (fst out))) f in
  snd out = false /\
  (option_map ApiService.en (ApiService.matching_entry (ApiService.rawMessage r))
   = Some "Username already exists." ->
   (isZh = false ->
    RegisterPage.usernameError f' = Some "Username already exists." /\
    RegisterPage.emailError f' = None /\ RegisterPage.error f' = None) /\
   (isZh = true ->
    RegisterPage.error f' = Some "使用者名稱已存在" /\
    RegisterPage.usernameError f' = RegisterPage.usernameError f /\
    RegisterPage.emailError f' = RegisterPage.emailError f)) /\
  (option_map ApiService.en (ApiService.matching_entry (ApiService.rawMessage r))
   = Some "Email already exists." ->
   (isZh = false ->
    RegisterPage.emailError f' = Some "Email already exists." /\
    RegisterPage.usernameError f' = None /\ RegisterPage.error f' = None) /\
   (isZh = true ->
    RegisterPage.error f' = Some "電子郵件已被使用" /\
    RegisterPage.usernameError f' = RegisterPage.usernameError f /\
    RegisterPage.emailError f' = RegisterPage.emailError f)).
Proof.
  intros Hok isZh out f'. subst out f'.
  destruct (register_failure e userData r st w Hok) as [w' ->].
  cbn [fst snd AuthContext.state_error AuthContext.setLoading AuthContext.setError].
  rewrite translate_as_spec. fold isZh.
  unfold ApiService.translate_as. rewrite translate_loop_find.
  fold (ApiService.matching_entry (ApiService.rawMessage r)).
  split; [reflexivity |].
  split; intros Hentry;
    destruct (ApiService.matching_entry (ApiService.rawMessage r)) as [entry |] eqn:Hm;
    try discriminate; injection Hentry as Hen;
    destruct (entry_of_english_text _ entry _ Hm Hen) as [Hname Hmail];
    cbn [option_map]; (split; intros HisZh; rewrite HisZh).
  - rewrite Hen. vm_compute. repeat split.
  - rewrite (Hname eq_refl). cbn [Js.or_else Js.truthy].
    unfold RegisterPage.onAuthError.
    change (negb (Js.truthy "使用者名稱已存在")) with false.
    replace (Js.test_i RegisterPage.re_username_taken "使用者名稱已存在") with false
      by (vm_compute; reflexivity).
    replace (Js.test_i RegisterPage.re_email_taken "使用者名稱已存在") with false
      by (vm_compute; reflexivity).
    cbn. repeat split.
  - rewrite Hen. vm_compute. repeat split.
  - rewrite (Hmail eq_refl). cbn [Js.or_else Js.truthy].
    unfold RegisterPage.onAuthError.
    change (negb (Js.truthy "電子郵件已被使用")) with false.
    replace (Js.test_i RegisterPage.re_username_taken "電子郵件已被使用") with false
      by (vm_compute; reflexivity).
    replace (Js.test_i RegisterPage.re_email_taken "電子郵件已被使用") with false
      by (vm_compute; reflexivity).
    cbn. repeat split.
Qed.

Lemma taken_name_is_a_field_error_outside_chinese_witness :
  RegisterPage.usernameError
    (RegisterPage.onAuthError
       (AuthContext.state_error
          (fst (fst (AuthContext.register plain_env bob_request (Settled name_taken)
                       anonymous fresh_session))))
       blank_form)
  = Some "Username already exists.".
Proof.
  apply (taken_name_is_a_field_error_outside_chinese plain_env bob_request name_taken
           anonymous fresh_session blank_form).
  - reflexivity.
  - vm_compute. reflexivity.
  - reflexivity.
Defined.

(** ** Route guards *)

(** X13. A managed route renders its page exactly when the role gate is
    open; a visitor who is not authenticated is sent to /login whatever the
    user record says, and an authenticated user outside the gate is sent
    to the home page. *)
Theorem managed_route_decision (isAuthenticated : bool) (user : option User)
    (name : string) :
  (Routes.managed_route isAuthenticated user name = Routes.Page name <->
   App.isSuperUser isAuthenticated user = true) /\
  (isAuthenticated = false ->
   Routes.managed_route isAuthenticated user name = Routes.Navigate "/login") /\
  (isAuthenticated = true -> App.isSuperUser isAuthenticated user = false ->
   Routes.managed_route isAuthenticated user name = Routes.Navigate "/").
Proof.
  unfold Routes.managed_route, Routes.ProtectedRoute, Routes.SuperUserRoute.
  destruct isAuthenticated; cbn [negb].
  - destruct (App.isSuperUser true user); cbn [negb];
      repeat split; intros; congruence.
  - change (App.isSuperUser false user) with false.
    repeat split; intros; congruence.
Qed.

Lemma managed_route_decision_witness :
  Routes.managed_route true (Some alice) "manage/posts" = Routes.Navigate "/".
Proof.
  apply (managed_route_decision true (Some alice) "manage/posts"); reflexivity.
Defined.

(** ** Saving, updating and deleting content *)

Section FindIndex.
Context {A : Type}.
Variable f : A -> bool.

Lemma findIndex_None l : App.findIndex f l = None -> existsb f l = false.
Proof.
  induction l as [| x l IH]; [reflexivity |].
  simpl. destruct (f x); [discriminate |].
  destruct (App.findIndex f l); [discriminate |]. intros _. apply IH. reflexivity.
Qed.

Lemma findIndex_Some l i y :
  App.findIndex f l = Some i -> f y = true ->
  existsb f l = true /\
  find f (<[i := y]> l) = Some y /\
  length (<[i := y]> l) = length l /\
  App.findIndex f (<[i := y]> l) = Some i /\
  (forall x, f x = false -> In x (<[i := y]> l) <-> In x l).
Proof.
  revert i. induction l as [| a l IH]; intros i Hi Hy; [discriminate |].
  simpl in Hi. destruct (f a) eqn:Ha.
  - injection Hi as <-. simpl. rewrite Ha, Hy.
    refine (conj eq_refl (conj eq_refl (conj eq_refl (conj eq_refl _)))).
    intros x Hx. split; (intros [E | H]; [congruence | right; exact H]).
  - destruct (App.findIndex f l) as [j |] eqn:Hj; [| discriminate].
    injection Hi as <-. destruct (IH j eq_refl Hy) as (He & Hf & Hl & Hidx & Hin).
    simpl. rewrite Ha, He, Hf, Hl, Hidx.
    refine (conj eq_refl (conj eq_refl (conj eq_refl (conj eq_refl _)))).
    intros x Hx. split;
      (intros [E | H]; [left; exact E | right; apply (Hin x Hx), H]).
Qed.
End FindIndex.

(** X14. For a super user, after [handleSaveBlogPost] the first post with
    the saved id is the saved post; posts with other ids are the same as
    before; the list grows by one exactly when the id was new; the route
    changes to the post; and saving the same post again leaves the list as
    it is. *)
Theorem saved_post_is_found (postData : ContentItem) (st : App.AppState) :
  let same := fun item => String.eqb (item_id item) (item_id postData) in
  let st' := App.handleSaveBlogPost true postData st in
  find same (App.userAddedPosts st') = Some postData /\
  (forall x, item_id x <> item_id postData ->
             In x (App.userAddedPosts st') <-> In x (App.userAddedPosts st)) /\
  length (App.userAddedPosts st')
  = (if existsb same (App.userAddedPosts st) then length (App.userAddedPosts st)
     else S (length (App.userAddedPosts st))) /\
  App.navigated st' = App.navigated st ++ ["/blog/" +:+ item_id postData] /\
  App.userAddedPosts (App.handleSaveBlogPost true postData st') = App.userAddedPosts st'.
Proof.
  intros same st'. subst st'. unfold App.handleSaveBlogPost. cbn.
  fold same.
  assert (Hself : same postData = true) by apply String.eqb_refl.
  assert (Hother : forall x, item_id x <> item_id postData -> same x = false).
  { intros x Hx. apply String.eqb_neq, Hx. }
  destruct (App.findIndex same (App.userAddedPosts st)) as [i |] eqn:Hi.
  - destruct (findIndex_Some same _ i postData Hi Hself) as (He & Hf & Hl & Hidx & Hin).
    rewrite He, Hidx.
    refine (conj Hf (conj _ (conj Hl (conj eq_refl _)))).
    + intros x Hx. apply (Hin x (Hother x Hx)).
    + apply list_insert_insert_eq.
  - rewrite (findIndex_None same _ Hi). cbn. rewrite Hself. cbn.
    refine (conj eq_refl (conj _ (conj eq_refl (conj eq_refl eq_refl)))).
    intros x Hx. split; [intros [E | H]; [congruence | exact H] | intros H; right; exact H].
Qed.

Lemma saved_post_is_found_witness :
  In (post "3" "c" 5%Z)
     (App.userAddedPosts (App.handleSaveBlogPost true post_b_revised empty_app)).
Proof.
  destruct (saved_post_is_found post_b_revised empty_app) as (_ & H & _).
  apply (H (post "3" "c" 5%Z)); [vm_compute; discriminate | left; reflexivity].
Defined.

(** X16. For a super user, [handleUpdatePortfolioItem] keeps the number,
    the order and the ids of the items, puts the given item wherever its id
    occurs, and changes nothing when its id does not occur: an update
    never adds an item. *)
Theorem update_keeps_the_list_shape (item : ContentItem) (st : App.AppState) :
  let items := App.userAddedPortfolioItems st in
  let items' := App.userAddedPortfolioItems (App.handleUpdatePortfolioItem true item st) in
  map item_id items' = map item_id items /\
  (forall x, In x items' -> item_id x = item_id item -> x = item) /\
  (forall x, item_id x <> item_id item -> In x items' <-> In x items) /\
  (existsb (fun i => String.eqb (item_id i) (item_id item)) items = false ->
   items' = items).
Proof.
  intros items items'. subst items'. cbn. fold items.
  induction items as [| a l IH].
  { refine (conj eq_refl (conj _ (conj _ _))); [intros x [] | reflexivity | reflexivity]. }
  destruct IH as (Hids & Hsame & Hother & Habsent).
  simpl. destruct (String.eqb_spec (item_id a) (item_id item)) as [Heq | Hne].
  - refine (conj _ (conj _ (conj _ _))).
    + simpl. rewrite Hids, Heq. reflexivity.
    + intros x [E | H] Hx; [symmetry; exact E | apply (Hsame x H Hx)].
    + intros x Hx. split.
      * intros [E | H]; [congruence | right; apply (Hother x Hx), H].
      * intros [E | H]; [congruence | right; apply (Hother x Hx), H].
    + discriminate.
  - refine (conj _ (conj _ (conj _ _))).
    + simpl. rewrite Hids. reflexivity.
    + intros x [E | H] Hx; [congruence | apply (Hsame x H Hx)].
    + intros x Hx. split.
      * intros [E | H]; [left; exact E | right; apply (Hother x Hx), H].
      * intros [E | H]; [left; exact E | right; apply (Hother x Hx), H].
    + simpl. intros H. rewrite (Habsent H). reflexivity.
Qed.

Lemma update_keeps_the_list_shape_witness :
  App.userAddedPortfolioItems (App.handleUpdatePortfolioItem true post_unknown portfolio_app)
  = App.userAddedPortfolioItems portfolio_app.
Proof.
  apply (update_keeps_the_list_shape post_unknown portfolio_app). reflexivity.
Defined.

Example update_replaces_in_place :
  map title (App.userAddedPortfolioItems
               (App.handleUpdatePortfolioItem true post_b_revised portfolio_app))
  = [Some "c"; Some "a, revised"; Some "b"].
Proof. vm_compute. reflexivity. Qed.

Section DeleteAll.
Variable e : env.
Variable endpoint : string -> string.
Variable net : string -> FetchOutcome unit.

Abbreviation send_one :=
  (fun w id => ApiService.request_send e (endpoint id)
                 {| method := Some "DELETE"; headers := None; body := None |} w).

Abbreviation settle_one :=
  (fun (acc : world * bool) id =>
     match ApiService.request_settle e tt (net id) (fst acc) with
     | (w', inr _) => (w', snd acc)
     | (w', inl _) => (w', false)
     end).

Lemma send_all_fetched ids w :
  length (fetched (fold_left send_one ids w)) = length (fetched w) + length ids.
Proof.
  revert w. induction ids as [| id ids IH]; intros w; simpl; [lia |].
  rewrite IH. unfold ApiService.request_send, do_fetch. simpl.
  rewrite length_app. simpl. lia.
Qed.

Lemma settle_all_spec ids w b :
  fetched (fst (fold_left settle_one ids (w, b))) = fetched w /\
  snd (fold_left settle_one ids (w, b))
  = b && forallb (fun id => negb (ApiService.request_fails (net id))) ids.
Proof.
  revert w b. induction ids as [| id ids IH]; intros w b; simpl.
  - split; [reflexivity | rewrite andb_true_r; reflexivity].
  - pose proof (request_settle_fetched e tt (net id) w) as Hf.
    assert (Hres : (exists err, snd (ApiService.request_settle e tt (net id) w) = inl err
                                /\ ApiService.request_fails (net id) = true) \/
                   (exists v, snd (ApiService.request_settle e tt (net id) w) = inr v
                              /\ ApiService.request_fails (net id) = false)).
    { unfold ApiService.request_settle, ApiService.request_fails.
      destruct (net id) as [msg | r]; simpl; [left; eauto |].
      destruct (negb (ApiService.ok (status r))); simpl; [left; eauto |].
      destruct (okBody r); simpl; [right | right | left]; eauto. }
    destruct (ApiService.request_settle e tt (net id) w) as [w' res].
    simpl in Hf, Hres.
    destruct Hres as [(err & -> & Hfail) | (v & -> & Hfail)]; rewrite Hfail; simpl;
      destruct (IH w' b) as [IH1 IH2]; destruct (IH w' false) as [IH3 IH4].
    + rewrite IH3, IH4, Hf. split; [reflexivity |]. rewrite andb_false_r. reflexivity.
    + rewrite IH1, IH2, Hf. split; reflexivity.
Qed.

Lemma send_all_calls ids w :
  exists calls,
    fetched (fold_left send_one ids w) = fetched w ++ calls /\
    map call_url calls
    = map (fun id => if Js.startsWith (endpoint id) "http" then endpoint id
                     else baseURL e +:+ endpoint id) ids /\
    Forall (fun call => call_method call = Some "DELETE" /\ call_body call = None) calls.
Proof.
  revert w. induction ids as [| id ids IH]; intros w.
  - exists []. rewrite app_nil_r. repeat split. constructor.
  - cbn [fold_left]. destruct (IH (send_one w id)) as (calls & Hf & Hurl & Hall).
    unfold ApiService.request_send, do_fetch in Hf. cbn [fetched] in Hf.
    rewrite <- app_assoc in Hf. eexists. split; [exact Hf |].
    cbn [map call_url app]. split.
    + f_equal. exact Hurl.
    + constructor; [split; reflexivity | exact Hall].
Qed.

Lemma delete_all_spec ids w :
  length (fetched (fst (App.delete_all e endpoint ids net w)))
  = length (fetched w) + length ids /\
  snd (App.delete_all e endpoint ids net w)
  = forallb (fun id => negb (ApiService.request_fails (net id))) ids /\
  fetched (fst (App.delete_all e endpoint ids net w)) = fetched (fold_left send_one ids w).
Proof.
  unfold App.delete_all.
  destruct (settle_all_spec ids (fold_left send_one ids w) true) as [H1 H2].
  rewrite H1, H2, send_all_fetched. repeat split; reflexivity.
Qed.
End DeleteAll.

(** X15. For a super user, [handleDeleteBlogPosts] sends one DELETE
    request per id, in the order of the ids, each to
    [baseURL/content/posts/id] and without a body, and then acts on the
    list all or nothing: when every request is fulfilled exactly the posts
    whose id is among the given ids are removed, and when any request
    fails the list stays as it was and one alert is raised. *)
Theorem delete_posts_all_or_nothing (e : env) (ids : list string)
    (net : string -> FetchOutcome unit) (st : App.AppState) :
  let st' := App.handleDeleteBlogPosts e true ids net st in
  let all_fulfilled := forallb (fun id => negb (ApiService.request_fails (net id))) ids in
  length (fetched (App.browser st')) = length (fetched (App.browser st)) + length ids /\
  (all_fulfilled = true ->
   App.userAddedPosts st'
   = List.filter (fun post => negb (App.includes ids (item_id post))) (App.userAddedPosts st)
   /\ App.alerts st' = App.alerts st) /\
  (all_fulfilled = false ->
   App.userAddedPosts st' = App.userAddedPosts st /\
   App.alerts st' = App.alerts st ++ ["刪除文章失敗，請重試"]) /\
  App.userAddedPortfolioItems st' = App.userAddedPortfolioItems st /\
  App.allComments st' = App.allComments st /\
  (exists calls,
      fetched (App.browser st') = fetched (App.browser st) ++ calls /\
      map call_url calls = map (fun id => baseURL e +:+ "/content/posts/" +:+ id) ids /\
      Forall (fun call => call_method call = Some "DELETE" /\ call_body call = None) calls).
Proof.
  intros st' all_fulfilled. subst st'. unfold App.handleDeleteBlogPosts. cbn [negb].
  destruct (delete_all_spec e (fun id => "/content/posts/" +:+ id) net ids (App.browser st))
    as (Hlen & Hall & Hsent).
  destruct (send_all_calls e (fun id => "/content/posts/" +:+ id) ids (App.browser st))
    as (calls & Hcalls & Hurls & Hmethods).
  rewrite Hcalls in Hsent.
  assert (Hcalled : exists calls,
             fetched (fst (App.delete_all e (fun id => "/content/posts/" +:+ id) ids net
                             (App.browser st)))
             = fetched (App.browser st) ++ calls /\
             map call_url calls = map (fun id => baseURL e +:+ "/content/posts/" +:+ id) ids /\
             Forall (fun call => call_method call = Some "DELETE" /\ call_body call = None)
                    calls).
  { exists calls. split; [exact Hsent |]. split; [| exact Hmethods].
    rewrite Hurls. apply map_ext. intros id. reflexivity. }
  fold all_fulfilled in Hall.
  destruct (App.delete_all e _ ids net (App.browser st)) as [w b].
  cbn [fst snd] in Hlen, Hall, Hcalled. subst b.
  destruct all_fulfilled; cbn.
  - refine (conj Hlen (conj _ (conj _ (conj eq_refl (conj eq_refl Hcalled)))));
      [auto | discriminate].
  - refine (conj Hlen (conj _ (conj _ (conj eq_refl (conj eq_refl Hcalled)))));
      [discriminate | auto].
Qed.

Lemma delete_posts_all_or_nothing_witness :
  App.userAddedPosts (App.handleDeleteBlogPosts plain_env true ["3"; "22"] refuses_22 empty_app)
  = App.userAddedPosts empty_app.
Proof.
  apply (delete_posts_all_or_nothing plain_env ["3"; "22"] refuses_22 empty_app).
  reflexivity.
Defined.

(** ** Deleting a comment twice *)

Lemma forest_filter depth (keep : Comment -> bool) p :
  App.forest depth p -> App.forest depth (List.filter keep p).
Proof.
  intros H c q Hc Hp. apply filter_In in Hc as [Hc _]. exact (H c q Hc Hp).
Qed.

Lemma max_depth_sub depth p q :
  (forall c, In c q -> In c p) -> App.max_depth depth q <= App.max_depth depth p.
Proof.
  intros Hsub. induction q as [| c q IH]; [unfold App.max_depth; simpl; lia |].
  assert (Hq : App.max_depth depth q <= App.max_depth depth p).
  { apply IH. intros c' Hc'. apply Hsub. right. exact Hc'. }
  pose proof (depth_le_max depth p c (Hsub c (or_introl eq_refl))) as Hc.
  unfold App.max_depth in *. simpl. lia.
Qed.

Lemma filter_all {A : Type} (keep : A -> bool) l :
  (forall x, In x l -> keep x = true) -> List.filter keep l = l.
Proof.
  induction l as [| x l IH]; intros H; [reflexivity |].
  simpl. rewrite (H x (or_introl eq_refl)). f_equal.
  apply IH. intros y Hy. apply H. right. exact Hy.
Qed.

Lemma descendant_has_child p a d :
  App.descendant p a d -> exists c, In c p /\ parentId c = Some a.
Proof.
  intros H. induction H as [c Hc Hp | c' c _ IH _ _]; [eauto | exact IH].
Qed.

(** X17. For comments that form a forest, deleting a comment a second
    time, after a first delete that the server accepted, removes nothing
    more: the first delete has left neither the comment nor a reply to
    it. *)
Theorem delete_comment_twice (depth : string -> nat) (fuel : nat) (e : env)
    (id : string) (net net2 : FetchOutcome unit) (st : App.AppState) :
  App.forest depth (App.allComments st) ->
  ApiService.request_fails net = false ->
  ApiService.request_fails net2 = false ->
  App.max_depth depth (App.allComments st) < fuel ->
  exists st1 st2,
    App.handleDeleteComment fuel e true id net st = Some st1 /\
    App.handleDeleteComment fuel e true id net2 st1 = Some st2 /\
    App.allComments st2 = App.allComments st1.
Proof.
  intros Hforest Hnet Hnet2 Hfuel.
  assert (Hok : forall n w, ApiService.request_fails n = false ->
                  exists w', ApiService.deleteComment e id n w = (w', inr tt)).
  { intros n w Hn.
    unfold ApiService.deleteComment, ApiService.request, ApiService.request_settle.
    unfold ApiService.request_fails in Hn.
    destruct n as [msg | r]; [discriminate |].
    destruct (negb (ApiService.ok (status r))); [discriminate |].
    destruct (okBody r) as [| [] |]; try discriminate; eauto. }
  set (p := App.allComments st) in *.
  destruct (delete_comment_updater_spec p depth Hforest fuel id Hfuel) as (cs & Hupd & Hcs).
  assert (Hsub : forall c, In c cs -> In c p) by (intros c Hc; apply Hcs, Hc).
  assert (Hforest1 : App.forest depth cs).
  { intros c q Hc Hp. exact (Hforest c q (Hsub c Hc) Hp). }
  assert (Hfuel1 : App.max_depth depth cs < fuel).
  { pose proof (max_depth_sub depth p cs Hsub). lia. }
  destruct (delete_comment_updater_spec cs depth Hforest1 fuel id Hfuel1)
    as (cs2 & Hupd2 & Hcs2).
  assert (Hsame : cs2 = cs).
  { unfold App.delete_comment_updater in Hupd2.
    destruct (App.findChildren fuel cs id {[id]}) as [td |]; [| discriminate].
    injection Hupd2 as <-. apply filter_all. intros c Hc.
    assert (Hin : In c (List.filter
                          (fun c0 => negb (bool_decide (comment_id c0 ∈ td))) cs)).
    { apply Hcs2. split; [exact Hc |]. split; [apply Hcs, Hc |].
      intros d Hd _.
      destruct (descendant_has_child cs id d Hd) as (k & Hk & Hpar).
      apply Hcs in Hk as (Hkp & _ & Hnone).
      exact (Hnone k (App.reply p id k Hkp Hpar) eq_refl). }
    apply filter_In in Hin as [_ Hkeep]. exact Hkeep. }
  destruct (Hok net (App.browser st) Hnet) as [w1 Hw1].
  destruct (Hok net2 w1 Hnet2) as [w2 Hw2].
  exists (App.setAllComments cs (App.with_browser w1 st)).
  exists (App.setAllComments cs (App.with_browser w2 (App.setAllComments cs
                                                       (App.with_browser w1 st)))).
  unfold App.handleDeleteComment. cbn. fold p.
  rewrite Hw1, Hupd. cbn. rewrite Hw2, Hupd2, Hsame. repeat split.
Qed.

Lemma delete_comment_twice_witness :
  exists st1 st2,
    App.handleDeleteComment 3 plain_env true "a" (Settled no_content) app_with_thread
    = Some st1 /\
    App.handleDeleteComment 3 plain_env true "a" (Settled no_content) st1 = Some st2 /\
    App.allComments st2 = App.allComments st1.
Proof.
  apply (delete_comment_twice thread_depth 3 plain_env "a" (Settled no_content)
           (Settled no_content) app_with_thread).
  - exact thread_is_forest.
  - reflexivity.
  - reflexivity.
  - vm_compute. lia.
Defined.

(** ** The selection of the management pages *)

Lemma includes_In l x : App.includes l x = true <-> In x l.
Proof.
  unfold App.includes. rewrite existsb_exists. split.
  - intros (y & Hy & E). apply String.eqb_eq in E. subst y. exact Hy.
  - intros H. exists x. split; [exact H | apply String.eqb_refl].
Qed.

Lemma includes_false l x : App.includes l x = false <-> ~ In x l.
Proof.
  rewrite <- includes_In. destruct (App.includes l x); split; intros H;
    try reflexivity; try discriminate; try (intros E; discriminate).
  exfalso. apply H. reflexivity.
Qed.

Lemma filter_other_absent id l :
  ~ In id l -> List.filter (fun i => negb (String.eqb i id)) l = l.
Proof.
  intros H. apply filter_all. intros x Hx.
  destruct (String.eqb_spec x id) as [E | E]; [subst x; contradiction | reflexivity].
Qed.

Lemma NoDup_snoc {A : Type} (l : list A) (x : A) :
  List.NoDup l -> ~ In x l -> List.NoDup (l ++ [x]).
Proof.
  induction l as [| a l IH]; intros Hnd Hx.
  - simpl. constructor; [intros [] | constructor].
  - inversion Hnd as [| a' l' Ha Hl]. subst. simpl. constructor.
    + intros H. apply in_app_or in H as [H | [H | []]]; [contradiction |].
      apply Hx. left. symmetry. exact H.
    + apply IH; [exact Hl |]. intros H. apply Hx. right. exact H.
Qed.

(** X18. Clicking a row toggles its id in the selection: the id is
    selected afterwards exactly when it was not before, no other id
    changes, a selection without repeated ids stays so, and selecting an id
    that was not selected and clicking again gives back the very list. *)
Theorem select_one_toggles (id : string) (prev : list string) :
  App.includes (Selection.handleSelectOne id prev) id = negb (App.includes prev id) /\
  (forall other, other <> id ->
     App.includes (Selection.handleSelectOne id prev) other = App.includes prev other) /\
  (List.NoDup prev -> List.NoDup (Selection.handleSelectOne id prev)) /\
  (App.includes prev id = false ->
   Selection.handleSelectOne id (Selection.handleSelectOne id prev) = prev).
Proof.
  unfold Selection.handleSelectOne.
  destruct (App.includes prev id) eqn:Hin.
  - refine (conj _ (conj _ (conj _ _))).
    + apply includes_false. intros H. apply filter_In in H as [_ H].
      rewrite String.eqb_refl in H. discriminate.
    + intros other Hne.
      destruct (App.includes prev other) eqn:Ho.
      * apply includes_In. apply filter_In. split; [apply includes_In, Ho |].
        apply negb_true_iff, String.eqb_neq, Hne.
      * apply includes_false. intros H. apply filter_In in H as [H _].
        apply includes_In in H. congruence.
    + intros Hnd. apply List.NoDup_filter, Hnd.
    + discriminate.
  - assert (Hnot : ~ In id prev) by (apply includes_false, Hin).
    refine (conj _ (conj _ (conj _ _))).
    + apply includes_In, in_or_app. right. left. reflexivity.
    + intros other Hne.
      destruct (App.includes prev other) eqn:Ho.
      * apply includes_In, in_or_app. left. apply includes_In, Ho.
      * apply includes_false. intros H. apply in_app_or in H as [H | [H | []]].
        -- apply includes_In in H. congruence.
        -- congruence.
    + intros Hnd. apply NoDup_snoc; assumption.
    + intros _.
      replace (App.includes (prev ++ [id]) id) with true
        by (symmetry; apply includes_In, in_or_app; right; left; reflexivity).
      rewrite List.filter_app. simpl. rewrite String.eqb_refl. simpl.
      rewrite app_nil_r. apply filter_other_absent, Hnot.
Qed.

Lemma select_one_toggles_witness :
  Selection.handleSelectOne "2" (Selection.handleSelectOne "2" ["1"; "3"]) = ["1"; "3"].
Proof.
  apply (select_one_toggles "2" ["1"; "3"]). reflexivity.
Defined.

(** ** The category filter of the post management page *)

(** X19. [processedPosts] never invents or repeats a post.  With the
    filter "all", and also with a filter for which there is no category
    definition, it returns all posts, reordered; with a defined category it
    returns exactly the posts whose category key is one of the keys of the
    definition, so a post without category key is in no category. *)
Theorem processedPosts_members (pf : ContentList.platform)
    (defs : list ContentList.CategoryDef) (filterCategory : string)
    (sortOrder : ContentList.SortOrder) (posts : list ContentItem) :
  let shown := ContentList.processedPosts pf defs filterCategory sortOrder posts in
  let found := find (fun def => String.eqb (ContentList.titleKey def) filterCategory) defs in
  length shown <= length posts /\
  (filterCategory = "all" \/ found = None -> Permutation shown posts) /\
  (forall def, filterCategory <> "all" -> found = Some def ->
     forall x, In x shown <->
               In x posts /\
               exists k, categoryKey x = Some k /\ k <> EmptyString /\
                         In k (ContentList.categoryKeys def)).
Proof.
  intros shown found. subst shown. unfold ContentList.processedPosts, ContentList.sort_posts.
  set (cmp := ContentList.compare_posts pf sortOrder).
  pose proof (sort_perm cmp (ContentList.category_filter defs filterCategory posts)) as Hperm.
  unfold ContentList.category_filter in *. fold found in Hperm |- *.
  destruct (String.eqb_spec filterCategory "all") as [Hall | Hnot]; cbn [negb] in *.
  - refine (conj _ (conj _ _)).
    + rewrite (Permutation_length Hperm). lia.
    + intros _. exact Hperm.
    + intros def Hne. contradiction.
  - destruct found as [def |] eqn:Hfound.
    + refine (conj _ (conj _ _)).
      * rewrite (Permutation_length Hperm). apply filter_length_le.
      * intros [H | H]; [contradiction | discriminate].
      * intros def' _ [= <-] x. split.
        -- intros Hx. apply (Permutation_in _ Hperm) in Hx.
           apply filter_In in Hx as [Hx Hk]. split; [exact Hx |].
           destruct (categoryKey x) as [k |]; [| discriminate].
           apply andb_prop in Hk as [Ht Hk]. exists k. split; [reflexivity |].
           split; [intros ->; discriminate |].
           apply existsb_exists in Hk as (k' & Hk' & E).
           apply String.eqb_eq in E. subst k'. exact Hk'.
        -- intros (Hx & k & Hk & Hne & Hin).
           apply (Permutation_in _ (Permutation_sym Hperm)).
           apply filter_In. split; [exact Hx |]. rewrite Hk.
           apply andb_true_intro. split.
           ++ destruct k; [contradiction | reflexivity].
           ++ apply existsb_exists. exists k. split; [exact Hin | apply String.eqb_refl].
    + refine (conj _ (conj _ _)).
      * rewrite (Permutation_length Hperm). lia.
      * intros _. exact Hperm.
      * intros def _ H. discriminate.
Qed.

Lemma processedPosts_members_witness :
  Permutation
    (ContentList.processedPosts sample_platform [photography] "blogPage.categorySport"
       ContentList.date_desc mixed_posts)
    mixed_posts.
Proof.
  apply (processedPosts_members sample_platform [photography] "blogPage.categorySport"
           ContentList.date_desc mixed_posts).
  right. reflexivity.
Defined.

Example photography_filter :
  map item_id (ContentList.processedPosts sample_platform [photography]
                 "blogPage.categoryPhotography" ContentList.date_asc mixed_posts)
  = ["1"].
Proof. vm_compute. reflexivity. Qed.

(** ** The carousel of the portfolio page *)

Lemma slice_prefix {A : Type} (l : list A) (n : Z) :
  (0 <= n)%Z -> JsArray.slice l 0 n = firstn (Z.to_nat n) l.
Proof.
  intros Hn. replace n with (0 + n)%Z at 1 by lia.
  rewrite slice_from_start by lia. reflexivity.
Qed.

Lemma filter_partition_perm {A : Type} (keep : A -> bool) (l : list A) :
  Permutation (List.filter keep l ++ List.filter (fun x => negb (keep x)) l) l.
Proof.
  induction l as [| x l IH]; [constructor |].
  simpl. destruct (keep x); simpl.
  - constructor. exact IH.
  - apply Permutation_sym, Permutation_cons_app, Permutation_sym, IH.
Qed.

Lemma Forall_perm_filter {A : Type} (cmp : A -> A -> option Z) (keep : A -> bool) l :
  Forall (fun x => keep x = true) (JsArray.sort cmp (List.filter keep l)).
Proof.
  apply List.Forall_forall. intros x Hx.
  apply (Permutation_in _ (sort_perm cmp _)) in Hx.
  apply filter_In in Hx as [_ Hk]. exact Hk.
Qed.

(** X20. The carousel shows at most eight items, all of them items of the
    portfolio, the featured ones first: it is a run of featured items
    followed by a run of items that are not featured, it holds featured
    items only when there are eight or more of them, and with at most eight
    items in the portfolio it holds them all. *)
Theorem carousel_prefers_featured (pf : ContentList.platform)
    (allPortfolioItems : list Portfolio.PortfolioItemData) :
  let shown := Portfolio.carouselItems pf allPortfolioItems in
  length shown <= 8 /\
  (forall x, In x shown -> In x allPortfolioItems) /\
  (exists featured others,
      shown = featured ++ others /\
      Forall (fun x => Portfolio.isFeatured x = true) featured /\
      Forall (fun x => Portfolio.isFeatured x = false) others) /\
  (8 <= length (List.filter Portfolio.isFeatured allPortfolioItems) ->
   Forall (fun x => Portfolio.isFeatured x = true) shown) /\
  (length allPortfolioItems <= 8 -> Permutation shown allPortfolioItems).
Proof.
  intros shown. subst shown. unfold Portfolio.carouselItems.
  set (cmp := Portfolio.by_date_desc pf).
  set (F := JsArray.sort cmp (List.filter Portfolio.isFeatured allPortfolioItems)).
  set (N := JsArray.sort cmp (List.filter (fun item => negb (Portfolio.isFeatured item))
                                allPortfolioItems)).
  rewrite slice_prefix by lia. change (Z.to_nat 8) with 8.
  assert (HF : Forall (fun x => Portfolio.isFeatured x = true) F)
    by apply Forall_perm_filter.
  assert (HN : Forall (fun x => Portfolio.isFeatured x = false) N).
  { eapply List.Forall_impl; [| apply (Forall_perm_filter cmp
                                    (fun item => negb (Portfolio.isFeatured item)))].
    intros x Hx. apply negb_true_iff, Hx. }
  assert (Hall : Permutation (F ++ N) allPortfolioItems).
  { etransitivity; [| apply (filter_partition_perm Portfolio.isFeatured)].
    apply Permutation_app; apply sort_perm. }
  assert (HlenF : length F = length (List.filter Portfolio.isFeatured allPortfolioItems))
    by apply Permutation_length, sort_perm.
  refine (conj _ (conj _ (conj _ (conj _ _)))).
  - rewrite length_take. lia.
  - intros x Hx. apply (Permutation_in _ Hall).
    rewrite <- (take_drop 8 (F ++ N)). apply in_or_app. left. exact Hx.
  - exists (take 8 F), (take (8 - length F) N).
    split; [apply take_app |]. split; apply Forall_take; assumption.
  - intros Hmany. rewrite take_app.
    replace (8 - length F) with 0 by lia. rewrite take_0, app_nil_r.
    apply Forall_take, HF.
  - intros Hfew. rewrite take_ge; [exact Hall |].
    rewrite (Permutation_length Hall). exact Hfew.
Qed.

Lemma carousel_prefers_featured_witness :
  Permutation (Portfolio.carouselItems sample_platform few_photos) few_photos.
Proof.
  apply (carousel_prefers_featured sample_platform few_photos).
  vm_compute. lia.
Defined.

Example carousel_of_three :
  map (fun x => item_id (Portfolio.content x))
      (Portfolio.carouselItems sample_platform few_photos)
  = ["22"; "333"; "1"].
Proof. vm_compute. reflexivity. Qed.

(** ** Infinite scroll *)

Lemma scrolled_closed_form (k : nat) (total : Z) :
  Portfolio.scrolled k total
  = (if (total <=? 12)%Z then 12 else Z.min (12 + 6 * Z.of_nat k) total)%Z.
Proof.
  induction k as [| k IH].
  - simpl. unfold Portfolio.ITEMS_PER_PAGE.
    destruct (Z.leb_spec total 12); lia.
  - cbn [Portfolio.scrolled]. rewrite IH.
    unfold Portfolio.on_intersect, Portfolio.load_more, Portfolio.ITEMS_TO_LOAD.
    cbn [andb negb].
    destruct (Z.leb_spec total 12).
    + destruct (Z.ltb_spec 12 total); lia.
    + destruct (Z.ltb_spec (Z.min (12 + 6 * Z.of_nat k) total) total); lia.
Qed.



Example scroll_steps_over_twenty_items :
  map (fun k => Portfolio.scrolled k 20) [0; 1; 2; 3]%nat = [12; 18; 20; 20]%Z.
Proof. vm_compute. reflexivity. Qed.

(** ** PostNavigation *)

Section FindByKey.
Context {A : Type}.
Variable key : A -> string.

Lemma findIndex_lookup (f : A -> bool) l i :
  App.findIndex f l = Some i -> exists x, l !! i = Some x /\ f x = true.
Proof.
  revert i. induction l as [| a l IH]; intros i Hi; [discriminate |].
  simpl in Hi. destruct (f a) eqn:Ha.
  - injection Hi as <-. exists a. split; [reflexivity | exact Ha].
  - destruct (App.findIndex f l) as [j |] eqn:Hj; [| discriminate].
    injection Hi as <-. destruct (IH j eq_refl) as (x & Hx & Hfx).
    exists x. split; [exact Hx | exact Hfx].
Qed.

Lemma lookup_In (l : list A) i x : l !! i = Some x -> In x l.
Proof.
  revert i. induction l as [| a l IH]; intros i Hi; [discriminate |].
  destruct i as [| i]; simpl in Hi.
  - injection Hi as ->. left. reflexivity.
  - right. apply (IH i Hi).
Qed.

Lemma findIndex_of_key l j x :
  List.NoDup (map key l) -> l !! j = Some x ->
  App.findIndex (fun y => String.eqb (key y) (key x)) l = Some j.
Proof.
  revert j. induction l as [| a l IH]; intros j Hnd Hj; [discriminate |].
  inversion Hnd as [| k ks Hk Hks]. subst.
  destruct j as [| j]; simpl in Hj.
  - injection Hj as ->. simpl. rewrite String.eqb_refl. reflexivity.
  - simpl. destruct (String.eqb_spec (key a) (key x)) as [E | E].
    + exfalso. apply Hk. rewrite E. apply in_map, (lookup_In l j x Hj).
    + rewrite (IH j Hks Hj). reflexivity.
Qed.
End FindByKey.

(** X22. Posts with distinct ids: the post after the previous post is
    the current one, and the post before the next post is the current one
    (each found in the list under the id of the current post); the
    previous and the next post are never the current post itself. *)
Theorem previous_and_next_are_inverse (pf : ContentList.platform)
    (allPosts : list ContentItem) (currentPost : ContentItem) :
  List.NoDup (map item_id allPosts) ->
  (forall p, PostNavigation.previousPost pf currentPost allPosts = Some p ->
     item_id p <> item_id currentPost /\
     exists c, PostNavigation.nextPost pf p allPosts = Some c /\
               item_id c = item_id currentPost /\ In c allPosts) /\
  (forall n, PostNavigation.nextPost pf currentPost allPosts = Some n ->
     item_id n <> item_id currentPost /\
     exists c, PostNavigation.previousPost pf n allPosts = Some c /\
               item_id c = item_id currentPost /\ In c allPosts).
Proof.
  intros Hnd.
  unfold PostNavigation.previousPost, PostNavigation.nextPost,
    PostNavigation.currentIndex.
  set (L := PostNavigation.sortedPosts pf allPosts).
  assert (Hperm : Permutation L allPosts) by apply sort_perm.
  assert (HndL : List.NoDup (map item_id L)).
  { apply (Permutation_NoDup (Permutation_map item_id (Permutation_sym Hperm))), Hnd. }
  assert (Hdistinct : forall i j x y, L !! i = Some x -> L !! j = Some y ->
                                      item_id x = item_id y -> i = j).
  { intros i j x y Hx Hy E.
    pose proof (findIndex_of_key item_id L i x HndL Hx) as H1.
    pose proof (findIndex_of_key item_id L j y HndL Hy) as H2.
    rewrite E in H1. congruence. }
  split.
  - intros p.
    destruct (App.findIndex _ L) as [i |] eqn:Hi; [| discriminate].
    destruct (findIndex_lookup _ L i Hi) as (c & Hc & Hid).
    apply String.eqb_eq in Hid.
    destruct (Z.ltb_spec (Z.of_nat i) (Z.of_nat (length L) - 1)); [| discriminate].
    intros Hp. split.
    + intros E. pose proof (Hdistinct (i + 1) i p c Hp Hc ltac:(congruence)). lia.
    + rewrite (findIndex_of_key item_id L (i + 1) p HndL Hp).
      replace (0 <? i + 1)%nat with true by (symmetry; apply Nat.ltb_lt; lia).
      replace (i + 1 - 1) with i by lia.
      exists c. split; [exact Hc |]. split; [exact Hid |].
      apply (Permutation_in _ Hperm), (lookup_In L i c Hc).
  - intros n.
    destruct (App.findIndex _ L) as [i |] eqn:Hi; [| discriminate].
    destruct (findIndex_lookup _ L i Hi) as (c & Hc & Hid).
    apply String.eqb_eq in Hid.
    destruct (Nat.ltb_spec 0 i); [| discriminate].
    intros Hn. split.
    + intros E. pose proof (Hdistinct (i - 1) i n c Hn Hc ltac:(congruence)). lia.
    + rewrite (findIndex_of_key item_id L (i - 1) n HndL Hn).
      pose proof (lookup_lt_Some L i c Hc) as Hlen.
      replace (Z.of_nat (i - 1) <? Z.of_nat (length L) - 1)%Z with true
        by (symmetry; apply Z.ltb_lt; lia).
      replace (i - 1 + 1) with i by lia.
      exists c. split; [exact Hc |]. split; [exact Hid |].
      apply (Permutation_in _ Hperm), (lookup_In L i c Hc).
Qed.

Lemma sample_ids_distinct : List.NoDup (map item_id sample_posts).
Proof.
  simpl. repeat constructor; simpl; intros H;
    repeat (destruct H as [H | H]; [discriminate H |]); exact H.
Qed.

Lemma previous_and_next_are_inverse_witness :
  exists c,
    PostNavigation.nextPost sample_platform (post "3" "c" 5) sample_posts = Some c /\
    item_id c = "22".
Proof.
  destruct (proj1 (previous_and_next_are_inverse sample_platform sample_posts
                     (post "22" "b" 1) sample_ids_distinct)
              (post "3" "c" 5))
    as (_ & c & Hc & Hid & _).
  - vm_compute. reflexivity.
  - exists c. split; [exact Hc | exact Hid].
Defined.

(** ** TimeAgo *)

(** X23. [formatTimeAgo] says "just now" for an invalid date and for every
    date not more than sixty seconds back, dates in the future included.
    Otherwise it shows a count of at least one in a unit that the elapsed
    time strictly exceeds, and the count is at most 12 for months, 30 for
    days, 24 for hours and 60 for minutes. *)
Theorem time_ago_counts (language : string) (now date : Z) :
  let seconds := ((now - date) / 1000)%Z in
  let just_now := if String.eqb language "zh-Hant" then "剛剛" else "just now" in
  TimeAgo.formatTimeAgo language now None = just_now /\
  ((seconds <= 60)%Z -> TimeAgo.formatTimeAgo language now (Some date) = just_now) /\
  ((60 < seconds)%Z ->
   exists u,
     TimeAgo.formatTimeAgo language now (Some date) = TimeAgo.ago language seconds u /\
     (TimeAgo.seconds_in u < seconds)%Z /\
     (1 <= seconds / TimeAgo.seconds_in u)%Z /\
     (forall cap, TimeAgo.most u = Some cap -> (seconds / TimeAgo.seconds_in u <= cap)%Z)).
Proof.
  intros seconds just_now. unfold TimeAgo.formatTimeAgo. fold seconds. fold just_now.
  split; [reflexivity |].
  assert (Hq : forall unit_s, (0 < unit_s)%Z -> (unit_s < seconds)%Z ->
                              (1 <= seconds / unit_s)%Z).
  { intros unit_s Hpos Hlt. apply Z.div_le_lower_bound; lia. }
  assert (Hcap : forall unit_s cap, (0 < unit_s)%Z -> (seconds < unit_s * (cap + 1))%Z ->
                                    (seconds / unit_s <= cap)%Z).
  { intros unit_s cap Hpos Hlt.
    assert (seconds / unit_s < cap + 1)%Z by (apply Z.div_lt_upper_bound; lia). lia. }
  split.
  - intros Hle. cbn [TimeAgo.seconds_in].
    repeat (match goal with
            | |- context [(?a <? seconds)%Z] => destruct (Z.ltb_spec a seconds); [lia |]
            end).
    reflexivity.
  - intros Hgt. cbn [TimeAgo.seconds_in].
    destruct (Z.ltb_spec 31536000 seconds).
    { exists TimeAgo.Years. cbn [TimeAgo.seconds_in TimeAgo.most].
      repeat split; [lia | apply Hq; lia | discriminate]. }
    destruct (Z.ltb_spec 2592000 seconds).
    { exists TimeAgo.Months. cbn [TimeAgo.seconds_in TimeAgo.most].
      repeat split; [lia | apply Hq; lia |]. intros cap [= <-]. apply Hcap; lia. }
    destruct (Z.ltb_spec 86400 seconds).
    { exists TimeAgo.Days. cbn [TimeAgo.seconds_in TimeAgo.most].
      repeat split; [lia | apply Hq; lia |]. intros cap [= <-]. apply Hcap; lia. }
    destruct (Z.ltb_spec 3600 seconds).
    { exists TimeAgo.Hours. cbn [TimeAgo.seconds_in TimeAgo.most].
      repeat split; [lia | apply Hq; lia |]. intros cap [= <-]. apply Hcap; lia. }
    destruct (Z.ltb_spec 60 seconds); [| lia].
    exists TimeAgo.Minutes. cbn [TimeAgo.seconds_in TimeAgo.most].
    repeat split; [lia | apply Hq; lia |]. intros cap [= <-]. apply Hcap; lia.
Qed.

Lemma time_ago_counts_witness :
  TimeAgo.formatTimeAgo "en" 1060000%Z (Some 1000000%Z) = "just now".
Proof.
  apply (time_ago_counts "en" 1060000%Z 1000000%Z). vm_compute. discriminate.
Defined.

Example time_ago_examples :
  TimeAgo.formatTimeAgo "en" 3600000%Z (Some 0%Z) = "60 minutes ago" /\
  TimeAgo.formatTimeAgo "en" 3601000%Z (Some 0%Z) = "1 hours ago" /\
  TimeAgo.formatTimeAgo "zh-Hant" 31536000000%Z (Some 0%Z) = "12個月前" /\
  TimeAgo.formatTimeAgo "en" 0%Z (Some 5000%Z) = "just now".
Proof. vm_compute. repeat split; reflexivity. Qed.

(** ** BlogHero *)

Lemma mod_after_one_turn a n : n <= a -> a < 2 * n -> a mod n = a - n.
Proof.
  intros H1 H2. symmetry. apply (Nat.mod_unique a n 1); lia.
Qed.

(** X24. With at least two posts and the slide index inside the list, the
    upcoming list has min(4, n-1) entries, every entry is a post of the
    list, the current post is not among them and no post occurs twice;
    with fewer than two posts it is empty. *)
Theorem upcoming_skips_current {A : Type} (posts : list A) (realIndex : nat) :
  let n := length posts in
  (n < 2 -> BlogHero.upcomingPosts posts realIndex = []) /\
  (2 <= n -> realIndex < n ->
   length (BlogHero.upcomingIndices realIndex n) = Nat.min 4 (n - 1) /\
   ~ In realIndex (BlogHero.upcomingIndices realIndex n) /\
   List.NoDup (BlogHero.upcomingIndices realIndex n) /\
   Forall (fun entry => exists p, entry = Some p /\ In p posts)
          (BlogHero.upcomingPosts posts realIndex)).
Proof.
  intros n. unfold BlogHero.upcomingPosts. fold n. unfold BlogHero.upcomingIndices.
  split.
  - intros Hn. destruct (Nat.ltb_spec n 2); [reflexivity | lia].
  - intros Hn Hr. destruct (Nat.ltb_spec n 2) as [Hsmall | _]; [lia |].
    set (m := Nat.min 4 (n - 1)).
    assert (Hm : m <= n - 1) by apply Nat.le_min_r.
    assert (Hval : forall i, i < m ->
              ((realIndex + 1 + i) mod n = realIndex + 1 + i /\ realIndex + 1 + i < n) \/
              ((realIndex + 1 + i) mod n = realIndex + 1 + i - n /\ n <= realIndex + 1 + i)).
    { intros i Hi. destruct (Nat.lt_ge_cases (realIndex + 1 + i) n) as [Hs | Hl].
      - left. split; [apply Nat.mod_small, Hs | exact Hs].
      - right. split; [apply mod_after_one_turn; lia | exact Hl]. }
    refine (conj _ (conj _ (conj _ _))).
    + rewrite length_map, length_seq. reflexivity.
    + intros H. apply in_map_iff in H as (i & Hi & Hin).
      apply in_seq in Hin. destruct (Hval i ltac:(lia)) as [[E ?] | [E ?]]; lia.
    + assert (Hgen : forall s k, s + k <= m ->
                List.NoDup (map (fun i => (realIndex + 1 + i) mod n) (seq s k))).
      { intros s k. revert s. induction k as [| k IH]; intros s Hsk; [constructor |].
        simpl. constructor; [| apply IH; lia].
        intros H. apply in_map_iff in H as (j & Hj & Hin). apply in_seq in Hin.
        destruct (Hval s ltac:(lia)) as [[E1 ?] | [E1 ?]];
          destruct (Hval j ltac:(lia)) as [[E2 ?] | [E2 ?]]; lia. }
      apply Hgen. lia.
    + apply List.Forall_forall. intros entry H.
      apply in_map_iff in H as (j & <- & Hj).
      apply in_map_iff in Hj as (i & <- & Hin). apply in_seq in Hin.
      assert (Hlt : (realIndex + 1 + i) mod n < length posts).
      { fold n. apply Nat.mod_upper_bound. lia. }
      destruct (lookup_lt_is_Some_2 posts _ Hlt) as [p Hp].
      exists p. split; [exact Hp | apply (lookup_In posts _ p Hp)].
Qed.

Lemma upcoming_skips_current_witness :
  ~ In 2 (BlogHero.upcomingIndices 2 (length sample_posts)).
Proof.
  apply (upcoming_skips_current sample_posts 2); vm_compute; lia.
Defined.

Example upcoming_wraps_around :
  BlogHero.upcomingIndices 4 6 = [5; 0; 1; 2].
Proof. vm_compute. reflexivity. Qed.


(** ** AuthService.refreshToken, accepted *)

(** X25. With a refresh token in storage and a response that is ok and
    parses, [refreshToken] resolves with the response, starts no logout and
    has sent one request.  A response with a token replaces the access
    token and stores the refresh token of the response, the text
    "undefined" when the response has none; a response without token
    leaves the storage as it was. *)
Theorem refresh_accepted_replaces_tokens (e : env) (r : Response AuthResponse)
    (response : AuthResponse) (w : world) :
  AuthService.truthy_opt (getItem "refreshToken" w) = true ->
  ApiService.ok (status r) = true ->
  okBody r = Json response ->
  let run := AuthService.refreshToken_run e (Settled r) w in
  AuthService.settled_with run = inr response /\
  AuthService.logout_started run = false /\
  length (fetched (AuthService.settled_world run)) = S (length (fetched w)) /\
  (forall k, k <> "authToken" -> k <> "refreshToken" ->
     getItem k (AuthService.settled_world run) = getItem k w) /\
  (forall t, token response = Some t -> Js.truthy t = true ->
     getItem "authToken" (AuthService.settled_world run) = Some t /\
     getItem "refreshToken" (AuthService.settled_world run)
     = Some (match refreshToken response with Some rt => rt | None => "undefined" end)) /\
  (AuthService.truthy_opt (token response) = false ->
   localStorage (AuthService.settled_world run) = localStorage w).
Proof.
  intros Hrt Hok Hbody run. subst run.
  unfold AuthService.refreshToken_run, AuthService.refreshToken_try.
  rewrite Hrt. cbn [negb].
  unfold ApiService.request, ApiService.request_settle.
  rewrite Hok, Hbody. cbn [negb].
  set (w1 := ApiService.request_send e "/auth/refresh" _ w).
  assert (Hw1 : localStorage w1 = localStorage w) by reflexivity.
  assert (Hf1 : length (fetched w1) = S (length (fetched w))).
  { unfold w1, ApiService.request_send, do_fetch. cbn [fetched].
    rewrite length_app. simpl. lia. }
  cbn [AuthService.settled_with AuthService.logout_started AuthService.settled_world].
  unfold AuthService.save_tokens.
  refine (conj eq_refl (conj eq_refl (conj _ (conj _ (conj _ _))))).
  - destruct (AuthService.truthy_opt (token response)); cbn [fetched setItem]; exact Hf1.
  - intros k Ha Hr.
    destruct (AuthService.truthy_opt (token response)); unfold getItem; cbn [localStorage setItem].
    + rewrite !lookup_insert_ne by congruence. rewrite Hw1. reflexivity.
    + rewrite Hw1. reflexivity.
  - intros t Ht Htruthy. rewrite Ht. cbn [AuthService.truthy_opt]. rewrite Htruthy.
    unfold getItem. cbn [localStorage setItem AuthService.to_stored]. split.
    + rewrite lookup_insert_ne by discriminate. apply lookup_insert_eq.
    + rewrite lookup_insert_eq. destruct (refreshToken response); reflexivity.
  - intros Hfalse. rewrite Hfalse. exact Hw1.
Qed.

Lemma refresh_accepted_replaces_tokens_witness :
  getItem "authToken"
    (AuthService.settled_world
       (AuthService.refreshToken_run plain_env (Settled refresh_without_refresh_token)
          stale_session)) = Some "t2" /\
  getItem "refreshToken"
    (AuthService.settled_world
       (AuthService.refreshToken_run plain_env (Settled refresh_without_refresh_token)
          stale_session)) = Some "undefined".
Proof.
  destruct (refresh_accepted_replaces_tokens plain_env refresh_without_refresh_token
              {| token := Some "t2"; refreshToken := None; user := None |}
              stale_session)
    as (_ & _ & _ & _ & H & _); try reflexivity.
  apply (H "t2"); reflexivity.
Defined.

(** ** Selecting and deleting rows *)

(** X26. [handleConfirmDelete] always closes the dialog and never hands
    an empty list to [onDelete].  A row waiting to be deleted goes first:
    it alone is handed over and the selection stays as it is.  Without such
    a row a selection that is not empty is handed over and emptied, and
    with nothing selected [onDelete] is not called. *)
Theorem confirm_delete_hands_over (s : Selection.DeleteState) :
  let out := Selection.handleConfirmDelete s in
  let row := match Selection.itemToDelete s with
             | Some item => Js.truthy item
             | None => false
             end in
  Selection.isDeleteModalOpen (snd out) = false /\
  fst out <> Some [] /\
  (forall item, Selection.itemToDelete s = Some item -> Js.truthy item = true ->
     fst out = Some [item] /\
     Selection.selectedIds (snd out) = Selection.selectedIds s /\
     Selection.itemToDelete (snd out) = None) /\
  (row = false ->
   Selection.itemToDelete (snd out) = Selection.itemToDelete s /\
   Selection.selectedIds (snd out) = [] /\
   fst out = (if Selection.selectedIds s is [] then None else Some (Selection.selectedIds s))).
Proof.
  intros out row. subst out row. unfold Selection.handleConfirmDelete.
  destruct s as [sel item modal]. cbn [Selection.itemToDelete Selection.selectedIds].
  destruct item as [item |]; [destruct (Js.truthy item) eqn:Hrow |];
    destruct sel as [| id sel]; cbn [length Nat.ltb Nat.leb fst snd
      Selection.isDeleteModalOpen Selection.itemToDelete Selection.selectedIds];
    (refine (conj eq_refl (conj _ (conj _ _)));
     [ discriminate
     | intros item' Hitem Htruthy;
       first [ injection Hitem as <-; first [ congruence | auto ] | discriminate ]
     | intros Hno; first [ discriminate | auto ] ]).
Qed.

Lemma confirm_delete_hands_over_witness :
  fst (Selection.handleConfirmDelete row_and_selection) = Some ["22"] /\
  Selection.selectedIds (snd (Selection.handleConfirmDelete row_and_selection)) = ["3"; "1"] /\
  Selection.itemToDelete (snd (Selection.handleConfirmDelete row_and_selection)) = None.
Proof.
  destruct (confirm_delete_hands_over row_and_selection) as (_ & _ & H & _).
  apply (H "22"); reflexivity.
Defined.

Lemma window_app {A : Type} (l : list A) (a b : nat) :
  exists before after, l = before ++ firstn b (skipn a l) ++ after.
Proof.
  exists (firstn a l), (skipn b (skipn a l)).
  rewrite (firstn_skipn b (skipn a l)). symmetry. apply firstn_skipn.
Qed.

(** X27. Ticking "select all" selects the ids of the posts of the current
    page in their order and nothing else: never more ids than the page
    size, only ids of posts of the list, without repetition when the posts
    have distinct ids; unticking it empties the selection.  Confirming the
    deletion then hands over exactly the ids of the page. *)
Theorem select_all_is_the_page (posts : list ContentItem) (page pageSize : Z) :
  (1 <= page)%Z -> (1 <= pageSize)%Z ->
  let shown := ContentList.paginatedPosts posts page pageSize in
  let sel := Selection.handleSelectAll true shown in
  (Z.of_nat (length sel) <= pageSize)%Z /\
  length sel = length shown /\
  (forall id, In id sel -> exists post, In post posts /\ item_id post = id) /\
  (List.NoDup (map item_id posts) -> List.NoDup sel) /\
  Selection.handleSelectAll false shown = [] /\
  (shown <> [] ->
   fst (Selection.handleConfirmDelete
          {| Selection.selectedIds := sel; Selection.itemToDelete := None;
             Selection.isDeleteModalOpen := true |}) = Some (map item_id shown)).
Proof.
  intros Hpage Hsize shown sel. subst sel. unfold Selection.handleSelectAll.
  assert (Hshown : shown = firstn (Z.to_nat pageSize)
                             (skipn (Z.to_nat ((page - 1) * pageSize)) posts)).
  { apply page_is_window; lia. }
  destruct (window_app posts (Z.to_nat ((page - 1) * pageSize)) (Z.to_nat pageSize))
    as (before & after & Hposts).
  rewrite <- Hshown in Hposts.
  refine (conj _ (conj _ (conj _ (conj _ (conj eq_refl _))))).
  - rewrite length_map, Hshown, length_firstn. lia.
  - apply length_map.
  - intros id Hid. apply in_map_iff in Hid as (post & Hpost & Hin).
    exists post. split; [| exact Hpost].
    rewrite Hposts. apply in_or_app. right. apply in_or_app. left. exact Hin.
  - intros Hnd. rewrite Hposts, !map_app in Hnd.
    apply List.NoDup_app_remove_l in Hnd. apply List.NoDup_app_remove_r in Hnd. exact Hnd.
  - intros Hne. unfold Selection.handleConfirmDelete.
    cbn [Selection.itemToDelete Selection.selectedIds].
    destruct shown as [| x rest]; [congruence | reflexivity].
Qed.

Lemma select_all_is_the_page_witness :
  Selection.handleSelectAll true (ContentList.paginatedPosts sample_posts 2 2) = ["22"] /\
  fst (Selection.handleConfirmDelete
         {| Selection.selectedIds :=
              Selection.handleSelectAll true (ContentList.paginatedPosts sample_posts 2 2);
            Selection.itemToDelete := None;
            Selection.isDeleteModalOpen := true |}) = Some ["22"].
Proof.
  split; [reflexivity |].
  apply (select_all_is_the_page sample_posts 2 2); [lia | lia | discriminate].
Defined.


(** ** Ranked lists: CategorySidebar, BlogSidebar, BlogPage *)

Lemma slice_window {A : Type} (l : list A) (a b : Z) :
  (0 <= a <= b)%Z ->
  JsArray.slice l a b = firstn (Z.to_nat (b - a)) (skipn (Z.to_nat a) l).
Proof.
  intros H. rewrite <- slice_from_start by lia. f_equal. lia.
Qed.

Lemma In_firstn {A : Type} (l : list A) n x : In x (firstn n l) -> In x l.
Proof.
  intros H. rewrite <- (firstn_skipn n l). apply in_or_app. left. exact H.
Qed.

Lemma In_skipn {A : Type} (l : list A) n x : In x (skipn n l) -> In x l.
Proof.
  intros H. rewrite <- (firstn_skipn n l). apply in_or_app. right. exact H.
Qed.

Section Ranked.
Context {A : Type}.
Variable cmp : A -> A -> option Z.
Variable key : A -> Z.

Lemma ordered_head_max (a : A) (l : list A) :
  (forall x y, In x (a :: l) -> In y (a :: l) ->
               JsArray.SortCompare cmp x y = (key y - key x)%Z) ->
  JsArray.ordered cmp (a :: l) -> forall y, In y l -> (key y <= key a)%Z.
Proof.
  revert a. induction l as [| b l IH]; intros a Hkey Hord y Hy; [destruct Hy |].
  change (JsArray.ordered cmp (a :: b :: l))
    with ((JsArray.SortCompare cmp a b <= 0)%Z /\ JsArray.ordered cmp (b :: l)) in Hord.
  destruct Hord as [Hab Hord].
  assert (Hb : (key b <= key a)%Z).
  { rewrite Hkey in Hab; [lia | left; reflexivity | right; left; reflexivity]. }
  destruct Hy as [<- | Hy]; [exact Hb |].
  assert (key y <= key b)%Z; [| lia].
  apply (IH b); [| exact Hord | exact Hy].
  intros x' y' Hx' Hy'. apply Hkey; right; assumption.
Qed.

Lemma ordered_ranked (l : list A) (n : nat) :
  (forall x y, In x l -> In y l -> JsArray.SortCompare cmp x y = (key y - key x)%Z) ->
  JsArray.ordered cmp l ->
  forall x y, In x (firstn n l) -> In y (skipn n l) -> (key y <= key x)%Z.
Proof.
  revert n. induction l as [| a l IH]; intros n Hkey Hord x y Hx Hy.
  - destruct n; destruct Hx.
  - destruct n as [| n]; [destruct Hx |].
    change (In x (a :: firstn n l)) in Hx. change (In y (skipn n l)) in Hy.
    destruct Hx as [<- | Hx].
    + apply (ordered_head_max a l Hkey Hord), (In_skipn l n), Hy.
    + apply (IH n); [| exact (proj2 Hord) | exact Hx | exact Hy].
      intros x' y' Hx' Hy'. apply Hkey; right; assumption.
Qed.

Lemma sort_ranked (l : list A) (n : nat) :
  (forall x y, JsArray.SortCompare cmp x y = (key y - key x)%Z) ->
  forall x y, In x (firstn n (JsArray.sort cmp l)) ->
              In y (skipn n (JsArray.sort cmp l)) -> (key y <= key x)%Z.
Proof.
  intros Hkey. apply ordered_ranked; [intros; apply Hkey |].
  apply sort_ordered. intros x y. rewrite !Hkey. lia.
Qed.
End Ranked.

(** X28. The list of the category sidebar holds at most five posts, all
    of them posts of the blog.  Without a current category they are the
    most viewed ones: the posts left out have at most as many views as any
    post listed (a post without views counting as zero).  With a current
    category no listed post has a category key of that category. *)
Theorem sidebar_lists_the_most_viewed (pf : ContentList.platform)
    (currentCategoryInfo : option ContentList.CategoryDef) (allPosts : list ContentItem) :
  let listed := snd (CategorySidebar.postsToList pf currentCategoryInfo allPosts) in
  length listed <= 5 /\
  (forall x, In x listed -> In x allPosts) /\
  (currentCategoryInfo = None ->
   exists rest,
     Permutation (listed ++ rest) allPosts /\
     forall x y vx vy, In x listed -> In y rest ->
       ContentList.views_or_0 x = Some vx -> ContentList.views_or_0 y = Some vy ->
       (vy <= vx)%Z) /\
  (forall info, currentCategoryInfo = Some info ->
     forall x k, In x listed -> categoryKey x = Some k -> k <> EmptyString ->
                 ~ In k (ContentList.categoryKeys info)).
Proof.
  intros listed. subst listed. unfold CategorySidebar.postsToList.
  destruct currentCategoryInfo as [info |]; cbn [snd]; rewrite slice_prefix by lia;
    change (Z.to_nat 5) with 5.
  - set (cmp := fun a b => ContentList.sub (ContentList.post_time pf b)
                                            (ContentList.post_time pf a)).
    set (others := List.filter _ allPosts).
    assert (Hin : forall x, In x (firstn 5 (JsArray.sort cmp others)) ->
                            In x allPosts /\
                            CategorySidebar.outside (ContentList.categoryKeys info) x = true).
    { intros x Hx. apply In_firstn in Hx.
      apply (Permutation_in _ (sort_perm cmp others)) in Hx.
      apply filter_In in Hx. exact Hx. }
    refine (conj _ (conj _ (conj _ _))).
    + rewrite length_firstn. lia.
    + intros x Hx. apply (Hin x Hx).
    + discriminate.
    + intros info' [= <-] x k Hx Hk Hne Hmember.
      destruct (Hin x Hx) as [_ Hout]. unfold CategorySidebar.outside in Hout.
      rewrite Hk in Hout. destruct k as [| c k]; [contradiction |].
      cbn [Js.truthy] in Hout. apply negb_true_iff in Hout.
      assert (Hex : existsb (String.eqb (String c k)) (ContentList.categoryKeys info) = true).
      { apply existsb_exists. exists (String c k). split; [exact Hmember |].
        apply String.eqb_refl. }
      congruence.
  - set (cmp := fun a b => ContentList.sub (ContentList.views_or_0 b)
                                            (ContentList.views_or_0 a)).
    set (key := fun p : ContentItem => match views p with Some v => v | None => 0%Z end).
    assert (Hkey : forall x y, JsArray.SortCompare cmp x y = (key y - key x)%Z).
    { intros x y. unfold JsArray.SortCompare, cmp, key, ContentList.sub, ContentList.views_or_0.
      destruct (views x), (views y); reflexivity. }
    refine (conj _ (conj _ (conj _ _))).
    + rewrite length_firstn. lia.
    + intros x Hx. apply In_firstn in Hx.
      apply (Permutation_in _ (sort_perm cmp allPosts)), Hx.
    + intros _. exists (skipn 5 (JsArray.sort cmp allPosts)). split.
      * rewrite firstn_skipn. apply sort_perm.
      * intros x y vx vy Hx Hy Hvx Hvy.
        pose proof (sort_ranked cmp key allPosts 5 Hkey x y Hx Hy) as Hle.
        unfold ContentList.views_or_0 in Hvx, Hvy. unfold key in Hle.
        destruct (views x), (views y); injection Hvx as <-; injection Hvy as <-; exact Hle.
    + discriminate.
Qed.

Lemma sidebar_lists_the_most_viewed_witness :
  exists rest,
    Permutation (snd (CategorySidebar.postsToList sample_platform None seven_viewed) ++ rest)
                seven_viewed.
Proof.
  destruct (sidebar_lists_the_most_viewed sample_platform None seven_viewed)
    as (_ & _ & H & _).
  destruct (H eq_refl) as (rest & Hperm & _).
  exists rest. exact Hperm.
Defined.

Example most_viewed_of_seven :
  map item_id (snd (CategorySidebar.postsToList sample_platform None seven_viewed))
  = ["b"; "f"; "d"; "a"; "g"].
Proof. vm_compute. reflexivity. Qed.

(** X29. The hero posts and the postcards of the blog page are the first
    six and the next twelve posts of the sorted list: together the first
    eighteen, with no postcards while there are at most six posts; a blog
    without repeated posts shows no post in both places; and when every
    post has a time of creation no postcard is newer than a hero post. *)
Theorem hero_and_postcards {A : Type} (createdAt : A -> option Z) (allPosts : list A) :
  let sorted := BlogPage.sortedPosts createdAt allPosts in
  let hero := BlogPage.heroPosts createdAt allPosts in
  let cards := BlogPage.postcardPosts createdAt allPosts in
  hero ++ cards = firstn 18 sorted /\
  length hero = Nat.min 6 (length allPosts) /\
  length cards = Nat.min 12 (length allPosts - 6) /\
  (forall x, In x (hero ++ cards) -> In x allPosts) /\
  (List.NoDup allPosts -> forall x, In x hero -> ~ In x cards) /\
  (Forall (fun p => createdAt p <> None) allPosts ->
   forall x y tx ty, In x hero -> In y cards ->
     createdAt x = Some tx -> createdAt y = Some ty -> (ty <= tx)%Z).
Proof.
  intros sorted hero cards. subst hero cards.
  unfold BlogPage.heroPosts, BlogPage.postcardPosts. fold sorted.
  rewrite slice_prefix by lia. rewrite slice_window by lia.
  change (Z.to_nat 6) with 6. change (Z.to_nat (18 - 6)) with 12.
  assert (Hperm : Permutation sorted allPosts) by apply sort_perm.
  assert (Hlen : length sorted = length allPosts) by apply Permutation_length, Hperm.
  assert (Hcat : firstn 6 sorted ++ firstn 12 (skipn 6 sorted) = firstn 18 sorted).
  { apply (take_take_drop sorted 6 12). }
  refine (conj Hcat (conj _ (conj _ (conj _ (conj _ _))))).
  - rewrite length_firstn, Hlen. reflexivity.
  - rewrite length_firstn, length_skipn, Hlen. reflexivity.
  - intros x Hx. rewrite Hcat in Hx. apply In_firstn in Hx.
    apply (Permutation_in _ Hperm), Hx.
  - intros Hnd x Hx Hy.
    assert (HndS : List.NoDup sorted)
      by apply (Permutation_NoDup (Permutation_sym Hperm)), Hnd.
    rewrite <- (firstn_skipn 6 sorted) in HndS.
    apply In_firstn in Hy.
    apply NoDup_ListNoDup, list.NoDup_app in HndS as (_ & Hdisjoint & _).
    apply (Hdisjoint x); apply list_elem_of_In; assumption.
  - intros Hall x y tx ty Hx Hy Htx Hty.
    set (cmp := fun a b => ContentList.sub (createdAt b) (createdAt a)).
    set (key := fun p => match createdAt p with Some v => v | None => 0%Z end).
    assert (Hsome : forall p, In p sorted -> createdAt p <> None).
    { intros p Hp. apply (proj1 (List.Forall_forall _ _) Hall).
      apply (Permutation_in _ Hperm), Hp. }
    assert (Hle : (key y <= key x)%Z).
    { apply (ordered_ranked cmp key sorted 6).
      - intros a b Ha Hb. unfold JsArray.SortCompare, cmp, key, ContentList.sub.
        pose proof (Hsome a Ha). pose proof (Hsome b Hb).
        destruct (createdAt a), (createdAt b); congruence.
      - apply sort_ordered. intros a b.
        unfold JsArray.SortCompare, cmp, ContentList.sub.
        destruct (createdAt a), (createdAt b); lia.
      - exact Hx.
      - apply In_firstn in Hy. exact Hy. }
    unfold key in Hle. rewrite Htx, Hty in Hle. exact Hle.
Qed.

Lemma eight_posts_distinct : List.NoDup eight_posts.
Proof.
  repeat constructor; simpl; intros H;
    repeat (destruct H as [H | H]; [discriminate H |]); exact H.
Qed.

Lemma hero_and_postcards_witness :
  ~ In 8%Z (BlogPage.postcardPosts Some eight_posts).
Proof.
  destruct (hero_and_postcards Some eight_posts) as (_ & _ & _ & _ & H & _).
  apply (H eight_posts_distinct). vm_compute. left. reflexivity.
Defined.

Example hero_and_postcards_of_eight :
  BlogPage.heroPosts Some eight_posts = [8; 7; 6; 5; 4; 3]%Z /\
  BlogPage.postcardPosts Some eight_posts = [2; 1]%Z.
Proof. vm_compute. split; reflexivity. Qed.

(** X30. The breaking post of the blog sidebar is a post with the most
    likes (a post without likes counting as zero), and there is one as
    soon as there is a post; the other popular posts are the next four of
    the ranking, so the breaking post followed by them is its first
    five. *)
Theorem breaking_post_is_most_liked {A : Type} (likes : A -> option Z) (allPosts : list A) :
  let popular := BlogSidebar.popularPosts likes allPosts in
  let others := BlogSidebar.otherPopularPosts likes allPosts in
  (BlogSidebar.breakingPost likes allPosts = None <-> allPosts = []) /\
  (forall top, BlogSidebar.breakingPost likes allPosts = Some top ->
     In top allPosts /\
     (forall p, In p allPosts ->
        (BlogSidebar.likes_or_0 likes p <= BlogSidebar.likes_or_0 likes top)%Z) /\
     top :: others = firstn 5 popular) /\
  length others = Nat.min 4 (length allPosts - 1) /\
  (forall x, In x others -> In x allPosts).
Proof.
  intros popular others. subst others.
  unfold BlogSidebar.breakingPost, BlogSidebar.otherPopularPosts. fold popular.
  rewrite slice_window by lia.
  change (Z.to_nat (5 - 1)) with 4. change (Z.to_nat 1) with 1.
  set (cmp := fun a b => Some (BlogSidebar.likes_or_0 likes b - BlogSidebar.likes_or_0 likes a)%Z).
  assert (Hperm : Permutation popular allPosts) by apply sort_perm.
  assert (Hlen : length popular = length allPosts) by apply Permutation_length, Hperm.
  assert (Hord : JsArray.ordered cmp popular).
  { apply sort_ordered. intros x y. unfold JsArray.SortCompare, cmp. lia. }
  refine (conj _ (conj _ (conj _ _))).
  - destruct popular as [| top rest], allPosts as [| p ps]; try discriminate Hlen;
      split; intros H; try reflexivity; discriminate H.
  - intros top Htop. destruct popular as [| top' rest] eqn:Hpop; [discriminate |].
    injection Htop as ->. refine (conj _ (conj _ _)).
    + apply (Permutation_in _ Hperm). left. reflexivity.
    + intros p Hp. apply (Permutation_in _ (Permutation_sym Hperm)) in Hp.
      destruct Hp as [<- | Hp]; [lia |].
      apply (ordered_head_max cmp (BlogSidebar.likes_or_0 likes) top rest);
        [reflexivity | exact Hord | exact Hp].
    + reflexivity.
  - rewrite length_firstn, length_skipn, Hlen. reflexivity.
  - intros x Hx. apply In_firstn, In_skipn in Hx.
    apply (Permutation_in _ Hperm), Hx.
Qed.

Lemma breaking_post_is_most_liked_witness :
  (BlogSidebar.likes_or_0 views (viewed "a" 3) <= BlogSidebar.likes_or_0 views (viewed "b" 9))%Z.
Proof.
  destruct (breaking_post_is_most_liked views seven_viewed) as (_ & H & _).
  destruct (H (viewed "b" 9) eq_refl) as (_ & Hmost & _).
  apply Hmost. left. reflexivity.
Defined.
